(** * file-fabric: the declarative batch orchestrator and its generators

    A shallow embedding of [src/generate.ts] (validators, per-kind handlers,
    [runFromConfig], [main]), of the generators as far as the orchestrator's
    contract depends on them ([doc_generators], [image_generator],
    [audio_generator], [video_generator], [archive_generator]) and of the
    mp3 endpoint of [server.ts]. The encoders (pdfkit, docx, pptxgenjs,
    exceljs, csv-writer, sharp, wavefile, ffmpeg, archiver, rar), faker and
    the file system are collaborators: a file written is recorded with what
    the encoder was asked to render.

    - JavaScript values are the inductive [JsVal]; a number is [NaN], an
      infinity or a finite rational (every finite double is one). The code
      compares, floors and counts with them; the one product it forms, the
      sample count of [generateWAV], is the exact product: its rounding to
      a double is left out.
    - A string is a byte string holding UTF-8 text.
    - An object is the list of its own enumerable properties in the order
      [Object.keys] lists them.
    - Console output and file-system actions are events appended to the
      trace of a [World]; an exception leaves the trace written so far in
      place, as in JavaScript.
    - The JavaScript engine is a collaborator too where the language
      leaves the matter to it: how a string reads as a number, whether a
      typed array of a permitted length can be allocated, and the wording
      of its own RangeErrors. *)

From Stdlib Require Import String Ascii List Bool Arith ZArith QArith Qround Lia.
From Stdlib Require Import DecimalString.
From Stdlib Require Import Permutation.
Import ListNotations.
Local Open Scope string_scope.
Local Open Scope list_scope.
Local Set Warnings "-register-all".
Local Close Scope Q_scope.

(** ** JavaScript values *)

Inductive JsNum : Type :=
| NaN
| Inf (negative : bool)
| Fin (q : Q).

Inductive JsVal : Type :=
| JUndefined
| JNull
| JBool (b : bool)
| JNum (n : JsNum)
| JStr (s : string)
| JArr (elems : list JsVal)
| JObj (props : list (string * JsVal)).

Inductive Exn : Type :=
| JsError (msg : string)
| JsTypeError (msg : string)
| JsRangeError (msg : string).

Definition message (e : Exn) : string :=
  match e with JsError m | JsTypeError m | JsRangeError m => m end.

(** The outcome of code that may throw. *)
Inductive Res (A : Type) : Type :=
| Ok (a : A)
| Throw (e : Exn).
Arguments Ok {A} a.
Arguments Throw {A} e.

Definition rbind {A B} (r : Res A) (k : A -> Res B) : Res B :=
  match r with Ok a => k a | Throw e => Throw e end.

Notation "'let?' x ':=' r 'in' k" := (rbind r (fun x => k))
  (at level 10, x name, r at level 100, k at level 200).

Definition num (z : Z) : JsVal := JNum (Fin (inject_Z z)).

(** [${idx}] in a template literal. *)
Definition string_of_nat (n : nat) : string :=
  NilZero.string_of_uint (Nat.to_uint n).

(** Conversion to boolean in a condition ([if (v)], [!v], [v && ...]). *)
Definition truthy (v : JsVal) : bool :=
  match v with
  | JUndefined | JNull => false
  | JBool b => b
  | JNum NaN => false
  | JNum (Inf _) => true
  | JNum (Fin q) => negb (Qeq_bool q 0)
  | JStr s => negb (String.eqb s EmptyString)
  | JArr _ | JObj _ => true
  end.

(** [typeof v === "object"]: true of null, arrays and objects. *)
Definition typeof_object (v : JsVal) : bool :=
  match v with JNull | JArr _ | JObj _ => true | _ => false end.

Definition typeof_string (v : JsVal) : bool :=
  match v with JStr _ => true | _ => false end.

Definition is_undefined (v : JsVal) : bool :=
  match v with JUndefined => true | _ => false end.

Definition Array_isArray (v : JsVal) : bool :=
  match v with JArr _ => true | _ => false end.

Fixpoint lookup (k : string) (props : list (string * JsVal)) : JsVal :=
  match props with
  | [] => JUndefined
  | (k', v) :: rest => if String.eqb k k' then v else lookup k rest
  end.

(** [v.k] on a value that is neither undefined nor null, for the property
    names the program reads (none of them is inherited from a prototype):
    a primitive or an array has no such property. *)
Definition field (v : JsVal) (k : string) : JsVal :=
  match v with
  | JObj props => lookup k props
  | _ => JUndefined
  end.

(** [v.k] on any value: reading from undefined or null throws a
    TypeError. *)
Definition prop (v : JsVal) (k : string) : Res JsVal :=
  match v with
  | JUndefined =>
      Throw (JsTypeError ("Cannot read properties of undefined (reading '" ++ k ++ "')"))
  | JNull =>
      Throw (JsTypeError ("Cannot read properties of null (reading '" ++ k ++ "')"))
  | _ => Ok (field v k)
  end.

Definition elems_of (v : JsVal) : list JsVal :=
  match v with JArr elems => elems | _ => [] end.

(** [v.every(p)] on an array. *)
Definition every (p : JsVal -> bool) (v : JsVal) : bool := forallb p (elems_of v).

Fixpoint index_keys (i n : nat) : list string :=
  match n with
  | O => []
  | S n' => string_of_nat i :: index_keys (S i) n'
  end.

(** [Object.keys(v)] for an object or an array. *)
Definition Object_keys (v : JsVal) : list string :=
  match v with
  | JObj props => map fst props
  | JArr elems => index_keys 0 (length elems)
  | _ => []
  end.

(** [Object.entries(v)] for an object or an array. *)
Definition Object_entries (v : JsVal) : list (string * JsVal) :=
  match v with
  | JObj props => props
  | JArr elems => combine (index_keys 0 (length elems)) elems
  | _ => []
  end.

(** ** Strings *)

Definition byte_is (c : ascii) (n : nat) : bool := Nat.eqb (nat_of_ascii c) n.

Definition byte_in (c : ascii) (lo hi : nat) : bool :=
  Nat.leb lo (nat_of_ascii c) && Nat.leb (nat_of_ascii c) hi.

(** [s.trim()] is the empty string: [s] consists of white space and line terminators
    only. The characters are those of ECMAScript's WhiteSpace and
    LineTerminator productions, read in their UTF-8 encoding. *)
Fixpoint blank (s : string) : bool :=
  match s with
  | EmptyString => true
  | String c rest =>
      if byte_in c 9 13 || byte_is c 32 then blank rest
      else
        match rest with
        | String c1 rest1 =>
            if byte_is c 194 && byte_is c1 160 then blank rest1        (* U+00A0 *)
            else
              match rest1 with
              | String c2 rest2 =>
                  if (byte_is c 225 && byte_is c1 154 && byte_is c2 128)  (* U+1680 *)
                     || (byte_is c 226 && byte_is c1 128 &&
                           (byte_in c2 128 138                            (* U+2000..U+200A *)
                            || byte_in c2 168 169                         (* U+2028, U+2029 *)
                            || byte_is c2 175))                           (* U+202F *)
                     || (byte_is c 226 && byte_is c1 129 && byte_is c2 159) (* U+205F *)
                     || (byte_is c 227 && byte_is c1 128 && byte_is c2 128) (* U+3000 *)
                     || (byte_is c 239 && byte_is c1 187 && byte_is c2 191) (* U+FEFF *)
                  then blank rest2
                  else false
              | EmptyString => false
              end
        | EmptyString => false
        end
  end.

Definition is_digit (c : ascii) : bool := byte_in c 48 57.

Fixpoint all_digits (s : string) : bool :=
  match s with
  | EmptyString => true
  | String c rest => is_digit c && all_digits rest
  end.

(** After at least one digit of the width: more digits, then [x], then a
    non-empty run of digits up to the end of the string. *)
Fixpoint resolution_tail (s : string) : bool :=
  match s with
  | EmptyString => false
  | String c rest =>
      if is_digit c then resolution_tail rest
      else byte_is c 120
           && negb (String.eqb rest EmptyString) && all_digits rest
  end.

(** [/^\d+x\d+$/.test(s)]. *)
Definition resolution_re (s : string) : bool :=
  match s with
  | EmptyString => false
  | String c rest => is_digit c && resolution_tail rest
  end.

Fixpoint drop (n : nat) (s : string) : string :=
  match n, s with
  | S n', String _ rest => drop n' rest
  | _, _ => s
  end.

(** [s.replace(pat, rep)] with a string pattern: the first occurrence only
    ([rep] holds no [$] pattern). *)
Fixpoint replace_first (pat rep s : string) : string :=
  if String.prefix pat s then rep ++ drop (String.length pat) s
  else
    match s with
    | EmptyString => EmptyString
    | String c rest => String c (replace_first pat rep rest)
    end.

(** [s] has an occurrence of [pat]. *)
Fixpoint contains (pat s : string) : bool :=
  String.prefix pat s
  || match s with
     | EmptyString => false
     | String _ rest => contains pat rest
     end.

(** [s] between double quotes. *)
Definition quoted (s : string) : string :=
  String (ascii_of_nat 34) (s ++ String (ascii_of_nat 34) EmptyString).

(** [xs.join(sep)] on strings. *)
Definition join (sep : string) (xs : list string) : string :=
  String.concat sep xs.

(** [xs.includes(s)] on strings. *)
Definition includes (xs : list string) (s : string) : bool :=
  existsb (String.eqb s) xs.

(** ** Field validators ([generate.ts], the same in [server.ts]) *)

Definition Number_isFinite (v : JsVal) : bool :=
  match v with JNum (Fin _) => true | _ => false end.

(** The number a value is compared as; the validators consult it only
    behind [Number.isFinite], that is for finite numbers. *)
Definition as_num (v : JsVal) : JsNum :=
  match v with JNum n => n | _ => NaN end.

(** [a <= b], [a < b], [a > b] on numbers: false when either is NaN. *)
Definition num_le (a b : JsNum) : bool :=
  match a, b with
  | NaN, _ | _, NaN => false
  | Inf true, _ => true
  | _, Inf false => true
  | Inf false, _ => false
  | _, Inf true => false
  | Fin x, Fin y => Qle_bool x y
  end.

Definition num_lt (a b : JsNum) : bool :=
  match a, b with
  | NaN, _ | _, NaN => false
  | Inf n1, Inf n2 => n1 && negb n2
  | Inf true, Fin _ => true
  | Fin _, Inf false => true
  | Inf false, Fin _ => false
  | Fin _, Inf true => false
  | Fin x, Fin y => negb (Qle_bool y x)
  end.

Definition num_gt (a b : JsNum) : bool := num_lt b a.

(** [Math.floor(v) !== v]. *)
Definition floor_differs (n : JsNum) : bool :=
  match n with
  | NaN => true
  | Inf _ => false
  | Fin q => negb (Qeq_bool (inject_Z (Qfloor q)) q)
  end.

Definition zero : JsNum := Fin 0.

Definition expectString (v : JsVal) (where_ : string) : Res string :=
  match v with
  | JStr s =>
      if blank s then Throw (JsError (where_ ++ " must be a non-empty string"))
      else Ok s
  | _ => Throw (JsError (where_ ++ " must be a non-empty string"))
  end.

Definition expectPositiveInt (v : JsVal) (where_ : string) : Res JsNum :=
  if negb (Number_isFinite v) || num_le (as_num v) zero || floor_differs (as_num v)
  then Throw (JsError (where_ ++ " must be a positive integer"))
  else Ok (as_num v).

Definition expectPositiveNumber (v : JsVal) (where_ : string) : Res JsNum :=
  if negb (Number_isFinite v) || num_le (as_num v) zero
  then Throw (JsError (where_ ++ " must be a positive number"))
  else Ok (as_num v).

Definition expectBoolean (v : JsVal) (where_ : string) : Res bool :=
  match v with
  | JBool b => Ok b
  | _ => Throw (JsError (where_ ++ " must be a boolean"))
  end.

(** ** Effects: console, file system, synthetic content *)

(** What a generator leaves at a path. The encoders are outside the
    model; an artifact records what they were asked to render. *)
Record VideoSettings : Type := mkVideoSettings {
  vs_duration : JsNum;
  vs_resolution : string;
  vs_fps : JsNum;
  vs_background : string;
  vs_crf : JsNum;
  vs_pixelFormat : string;
  vs_preset : string;
  vs_silentAudio : bool
}.

Inductive Artifact : Type :=
| ArtJson (finalData : JsVal) (pretty : bool)
| ArtPdf (title : string) (fontSize : JsNum) (content : list JsVal)
| ArtTxt (content : list JsVal)
| ArtDocx (content : list JsVal)
| ArtPptx (slides : list (string * list JsVal))
| ArtXlsx (sheets : list (string * list JsVal))
| ArtCsv (header : list string) (records : list JsVal)
| ArtImage (create output : JsVal)
| ArtWav (lengthSeconds : JsNum) (opts : JsVal)
| ArtMp3 (source : string)
| ArtMp4 (settings : VideoSettings)
| ArtZip (files : list JsVal)
| ArtRar (files : list JsVal) (rarPath : string).

Inductive Event : Type :=
| EvOut (line : string)                      (* console.log *)
| EvErr (line : string)                      (* console.error *)
| EvMkdir (dir : string)                     (* fs.mkdirSync(dir, { recursive: true }) *)
| EvWriteFile (path : string) (a : Artifact) (* a file produced at path *)
| EvUnlink (path : string)                   (* fs.unlinkSync(path) *)
| EvSend (path : string).                    (* res.sendFile(path) *)

Record World : Type := mkWorld {
  trace : list Event;   (* what has happened, oldest first *)
  draws : nat           (* how many values faker has handed out *)
}.

(** The collaborators of the program: [path.dirname], faker's producers
    (the value of the n-th draw), and the reasons an action on the file
    system, an external encoder or a transfer fails, given what happened
    before. Of the JavaScript engine: the number it reads a string as
    (StringToNumber), its wording of the RangeError for a typed-array
    length the language forbids, and its refusal, by its own limit or for
    lack of memory, of a length the language permits (the message of the
    RangeError), given what happened before. *)
Record Env : Type := mkEnv {
  dirname : string -> string;
  lorem_sentence : nat -> string;
  person_fullName : nat -> string;
  internet_email : nat -> string;
  io_error : list Event -> Event -> option string;
  string_to_number : string -> JsNum;
  invalid_length : JsNum -> string;
  alloc_error : list Event -> Z -> option string
}.

Definition M (A : Type) : Type := World -> Res A * World.

Definition ret {A} (a : A) : M A := fun w => (Ok a, w).

Definition bind {A B} (m : M A) (k : A -> M B) : M B :=
  fun w =>
    match m w with
    | (Ok a, w') => k a w'
    | (Throw e, w') => (Throw e, w')
    end.

Definition throw {A} (e : Exn) : M A := fun w => (Throw e, w).

Definition lift {A} (r : Res A) : M A := fun w => (r, w).

(** [try { body } catch (e) { handler }]. *)
Definition try_catch {A} (body : M A) (handler : Exn -> M A) : M A :=
  fun w =>
    match body w with
    | (Ok a, w') => (Ok a, w')
    | (Throw e, w') => handler e w'
    end.

Notation "x <- m ;; k" := (bind m (fun x => k))
  (at level 61, m at next level, right associativity).
Notation "m ;; k" := (bind m (fun _ => k))
  (at level 61, right associativity).

Definition record (ev : Event) (w : World) : World :=
  mkWorld (trace w ++ [ev]) (draws w).

(** Console output. *)
Definition log (ev : Event) : M unit := fun w => (Ok tt, record ev w).

Section Effects.
Variable env : Env.

(** An action that can fail: it throws the environment's reason, or
    happens and is recorded. *)
Definition io (ev : Event) : M unit :=
  fun w =>
    match io_error env (trace w) ev with
    | Some reason => (Throw (JsError reason), w)
    | None => (Ok tt, record ev w)
    end.

Definition draw (producer : nat -> string) : M string :=
  fun w => (Ok (producer (draws w)), mkWorld (trace w) (S (draws w))).

Definition faker_sentence : M string := draw (lorem_sentence env).
Definition faker_fullName : M string := draw (person_fullName env).
Definition faker_email : M string := draw (internet_email env).
End Effects.

(** [console.log(`[file-fabric] ${msg}`)]. *)
Definition info (msg : string) : M unit := log (EvOut ("[file-fabric] " ++ msg)).

(** [error(msg, cause)]: the message, then the cause's message when a
    thrown error is passed. *)
Definition error (msg : string) (cause : option Exn) : M unit :=
  log (EvErr ("[file-fabric] ERROR: " ++ msg)) ;;
  match cause with
  | Some e => log (EvErr ("Cause: " ++ message e))
  | None => ret tt
  end.

(** ** Conversions and typed arrays

    The values of a plan or of a request body come from YAML or JSON: an
    object among them holds no function. *)

(** [v ?? d]. *)
Definition nullish (v d : JsVal) : JsVal :=
  match v with JUndefined | JNull => d | _ => v end.

Definition own_toString (props : list (string * JsVal)) : bool :=
  existsb (fun kv => String.eqb (fst kv) "toString") props.

(** Conversion to a primitive returns. An object turns into the text
    [[object Object]] through [Object.prototype.toString], unless it has
    a property of its own named [toString]: that value is not callable,
    the inherited [valueOf] hands back the object, and the conversion
    throws. An array is joined from the texts of its elements. *)
Fixpoint converts (v : JsVal) : bool :=
  match v with
  | JObj props => negb (own_toString props)
  | JArr elems => forallb converts elems
  | _ => true
  end.

(** [String(v)]; the program hands the text on to the encoder. *)
Definition ToString (v : JsVal) : Res unit :=
  if converts v then Ok tt
  else Throw (JsTypeError "Cannot convert object to primitive value").

(** [a * b] on numbers. *)
Definition num_mul (a b : JsNum) : JsNum :=
  match a, b with
  | NaN, _ | _, NaN => NaN
  | Inf s, Inf t => Inf (xorb s t)
  | Inf s, Fin q | Fin q, Inf s =>
      if Qeq_bool q 0 then NaN else Inf (xorb s (negb (Qle_bool 0 q)))
  | Fin x, Fin y => Fin (x * y)%Q
  end.

Definition Math_floor (n : JsNum) : JsNum :=
  match n with
  | Fin q => Fin (inject_Z (Qfloor q))
  | _ => n
  end.

(** [ToIndex(n)]: the length as an integer (NaN counts as 0, a fraction
    is cut off), or nothing where the language throws a RangeError: below
    0 or above 2^53 - 1. *)
Definition ToIndex (n : JsNum) : option Z :=
  match n with
  | NaN => Some 0%Z
  | Inf _ => None
  | Fin q =>
      let z := if Qle_bool 0 q then Qfloor q else Qceiling q in
      if (z <? 0)%Z || (2 ^ 53 - 1 <? z)%Z then None else Some z
  end.

Section Engine.
Variable env : Env.

(** The number a value converts to, when its conversion to a primitive
    returns. The text of an array is the texts of its elements between
    commas, the empty text for undefined and null. *)
Fixpoint number_of (v : JsVal) : JsNum :=
  match v with
  | JUndefined => NaN
  | JNull => Fin 0
  | JBool b => Fin (if b then 1 else 0)
  | JNum n => n
  | JStr s => string_to_number env s
  | JObj _ => NaN                       (* the text [object Object] *)
  | JArr [] => Fin 0                    (* the empty text *)
  | JArr [x] =>
      match x with
      | JUndefined | JNull => Fin 0     (* the empty text *)
      | JBool _ => NaN                  (* the text true or false *)
      | JNum n => n                     (* the text of a number reads back as it *)
      | _ => number_of x
      end
  | JArr _ => NaN                       (* a text with a comma *)
  end.

(** [Number(v)], as arithmetic and [Math.min] apply it. *)
Definition ToNumber (v : JsVal) : Res JsNum :=
  if converts v then Ok (number_of v)
  else Throw (JsTypeError "Cannot convert object to primitive value").

(** [new Int16Array(length)] with a number. *)
Definition new_Int16Array (length : JsNum) : M unit :=
  fun w =>
    match ToIndex length with
    | None => (Throw (JsRangeError (invalid_length env length)), w)
    | Some len =>
        match alloc_error env (trace w) len with
        | Some reason => (Throw (JsRangeError reason), w)
        | None => (Ok tt, w)
        end
    end.
End Engine.

(** ** Generators ([doc_generators], [image_generator], [audio_generator],
    [video_generator], [archive_generator])

    The option records follow the TypeScript interfaces. A [number] that
    bounds a loop ([lines], [rows]) is the natural number of iterations
    the loop makes; an optional field is an [option]. *)

Record JSONOptions : Type := mkJSONOptions {
  json_path : string;
  json_pretty : option bool;
  json_data : JsVal
}.

Record PDFOptions : Type := mkPDFOptions {
  pdf_path : string;
  pdf_title : option string;
  pdf_fontSize : option JsNum;
  pdf_lines : nat;
  pdf_texts : option (list JsVal)
}.

(** [TXTOptions] and [DOCXOptions]. *)
Record LinesOptions : Type := mkLinesOptions {
  lo_path : string;
  lo_lines : nat;
  lo_texts : option (list JsVal)
}.

Record SlideOptions : Type := mkSlideOptions {
  slide_lines : nat;
  slide_texts : option (list JsVal)
}.

Record PPTXOptions : Type := mkPPTXOptions {
  pptx_path : string;
  pptx_slides : list (string * SlideOptions)
}.

Record SheetOptions : Type := mkSheetOptions {
  sheet_rows : nat;
  sheet_texts : option (list JsVal)
}.

Record XLSXOptions : Type := mkXLSXOptions {
  xlsx_path : string;
  xlsx_sheets : list (string * SheetOptions)
}.

Record CSVOptions : Type := mkCSVOptions {
  csv_path : string;
  csv_rows : option nat;
  csv_data : option (list JsVal)
}.

Record VideoOptions : Type := mkVideoOptions {
  vo_duration : option JsNum;
  vo_resolution : option string;
  vo_fps : option JsNum;
  vo_background : option string;
  vo_crf : option JsNum;
  vo_pixelFormat : option string;
  vo_preset : option string;
  vo_silentAudio : option bool
}.

(** [x = d] in a destructuring pattern, [x ?? d] on a typed optional. *)
Definition default {A} (d : A) (x : option A) : A :=
  match x with Some a => a | None => d end.

(** [i % len] on array indices: NaN ([None]) when [len] is 0. *)
Definition js_rem (i len : nat) : option nat :=
  if Nat.eqb len 0 then None else Some (i mod len).

(** [arr[idx]]: undefined when the index is NaN or out of range. *)
Definition element (arr : list JsVal) (idx : option nat) : JsVal :=
  match idx with
  | Some j => nth j arr JUndefined
  | None => JUndefined
  end.

(** [for (; i < lines; i++) content.push(texts[i % texts.length])], with
    [remaining] iterations to go. *)
Fixpoint fill_cyclic (texts : list JsVal) (remaining i : nat)
    (content : list JsVal) : list JsVal :=
  match remaining with
  | O => content
  | S r =>
      fill_cyclic texts r (S i)
        (content ++ [element texts (js_rem i (length texts))])
  end.

Section Generators.
Variable env : Env.

(** [for (; i < lines; i++) content.push(faker.lorem.sentence())]. *)
Fixpoint fill_fake (remaining : nat) (content : list JsVal) : M (list JsVal) :=
  match remaining with
  | O => ret content
  | S r =>
      s <- faker_sentence env ;;
      fill_fake r (content ++ [JStr s])
  end.

(** The content block that [generatePDF], [generateTXT], [generateDOCX]
    and each slide of [generatePPTX] repeat word for word:
    [texts = []] when omitted, filler when [!texts || texts.length === 0]
    (an array is never falsy, so the length decides), wrap-around
    otherwise. *)
Definition content_lines (lines : nat) (texts : option (list JsVal))
  : M (list JsVal) :=
  let texts := default [] texts in
  if Nat.eqb (length texts) 0
  then fill_fake lines []
  else ret (fill_cyclic texts lines 0 []).

Definition generateJSON (options : JSONOptions) : M unit :=
  let pretty := default true (json_pretty options) in
  finalData <-
    match json_data options with
    | JUndefined | JNull =>
        name <- faker_fullName env ;;
        email <- faker_email env ;;
        ret (JObj [("name", JStr name); ("email", JStr email)])
    | data => ret data
    end ;;
  io env (EvWriteFile (json_path options) (ArtJson finalData pretty)).

Definition generatePDF (options : PDFOptions) : M unit :=
  let title := default "Fake PDF" (pdf_title options) in
  let fontSize := default (Fin 20) (pdf_fontSize options) in
  content <- content_lines (pdf_lines options) (pdf_texts options) ;;
  io env (EvWriteFile (pdf_path options) (ArtPdf title fontSize content)).

Definition generateTXT (options : LinesOptions) : M unit :=
  content <- content_lines (lo_lines options) (lo_texts options) ;;
  io env (EvWriteFile (lo_path options) (ArtTxt content)).

Definition generateDOCX (options : LinesOptions) : M unit :=
  content <- content_lines (lo_lines options) (lo_texts options) ;;
  io env (EvWriteFile (lo_path options) (ArtDocx content)).

(** [for (const [slideTitle, slideOpts] of Object.entries(slides))]. *)
Fixpoint pptx_slides_loop (slides : list (string * SlideOptions))
    (deck : list (string * list JsVal)) : M (list (string * list JsVal)) :=
  match slides with
  | [] => ret deck
  | (slideTitle, slideOpts) :: rest =>
      content <- content_lines (slide_lines slideOpts) (slide_texts slideOpts) ;;
      pptx_slides_loop rest (deck ++ [(slideTitle, content)])
  end.

Definition generatePPTX (options : PPTXOptions) : M unit :=
  deck <- pptx_slides_loop (pptx_slides options) [] ;;
  io env (EvWriteFile (pptx_path options) (ArtPptx deck)).

(** The row loop of one sheet; the test [!texts || texts.length === 0]
    sits inside it. *)
Fixpoint xlsx_rows_loop (texts : list JsVal) (remaining i : nat)
    (sheet : list JsVal) : M (list JsVal) :=
  match remaining with
  | O => ret sheet
  | S r =>
      rowData <-
        (if Nat.eqb (length texts) 0
         then
           name <- faker_fullName env ;;
           email <- faker_email env ;;
           ret (JArr [JStr name; JStr email])
         else ret (element texts (js_rem i (length texts)))) ;;
      xlsx_rows_loop texts r (S i) (sheet ++ [rowData])
  end.

Definition header_row : JsVal := JArr [JStr "Name"; JStr "Email"].

Fixpoint xlsx_sheets_loop (sheets : list (string * SheetOptions))
    (book : list (string * list JsVal)) : M (list (string * list JsVal)) :=
  match sheets with
  | [] => ret book
  | (sheetName, sheetOpts) :: rest =>
      sheet <- xlsx_rows_loop (default [] (sheet_texts sheetOpts))
                 (sheet_rows sheetOpts) 0 [header_row] ;;
      xlsx_sheets_loop rest (book ++ [(sheetName, sheet)])
  end.

Definition generateXLSX (options : XLSXOptions) : M unit :=
  book <- xlsx_sheets_loop (xlsx_sheets options) [] ;;
  io env (EvWriteFile (xlsx_path options) (ArtXlsx book)).
End Generators.

(** The test [generateCSV] applies to each record against the keys of the
    first: it passes when the key count is the same and every key of the
    record is among them. *)
Definition same_keys (keys : list string) (record : JsVal) : bool :=
  let recordKeys := Object_keys record in
  negb (negb (Nat.eqb (length recordKeys) (length keys))
        || negb (forallb (fun k => includes keys k) recordKeys)).

(** [for (const record of data) { if (...) throw ... }]. *)
Fixpoint check_records (keys : list string) (data : list JsVal) : Res unit :=
  match data with
  | [] => Ok tt
  | record :: rest =>
      if same_keys keys record then check_records keys rest
      else Throw (JsError "All records must have the same keys and key count")
  end.

Definition resolve_video (opts : VideoOptions) : VideoSettings :=
  mkVideoSettings
    (default (Fin 1) (vo_duration opts))
    (default "1280x720" (vo_resolution opts))
    (default (Fin 30) (vo_fps opts))
    (default "black" (vo_background opts))
    (default (Fin 23) (vo_crf opts))
    (default "yuv420p" (vo_pixelFormat opts))
    (default "medium" (vo_preset opts))
    (default true (vo_silentAudio opts)).

Definition isFinite (n : JsNum) : bool :=
  match n with Fin _ => true | _ => false end.

(** The four guards at the head of [generateMP4]. *)
Definition check_video (s : VideoSettings) : Res unit :=
  if negb (isFinite (vs_duration s)) || num_le (vs_duration s) zero
  then Throw (JsError "duration must be a positive number (seconds).")
  else if negb (resolution_re (vs_resolution s))
  then Throw (JsError ("resolution must be a string like " ++ quoted "1280x720" ++ "."))
  else if negb (isFinite (vs_fps s)) || num_le (vs_fps s) zero
  then Throw (JsError "fps must be a positive number.")
  else if negb (isFinite (vs_crf s)) || num_lt (vs_crf s) zero
          || num_gt (vs_crf s) (Fin 51)
  then Throw (JsError "crf must be in [0,51]. Lower is higher quality.")
  else Ok tt.

(** [v === "white"]. *)
Definition is_white (v : JsVal) : bool :=
  match v with JStr s => String.eqb s "white" | _ => false end.

Section MediaGenerators.
Variable env : Env.

(** [Array.from({ length: rows }, () => ({ name, email }))]. *)
Fixpoint fake_records (remaining : nat) (records : list JsVal) : M (list JsVal) :=
  match remaining with
  | O => ret records
  | S r =>
      name <- faker_fullName env ;;
      email <- faker_email env ;;
      fake_records r (records ++ [JObj [("name", JStr name); ("email", JStr email)]])
  end.

Definition generateCSV (options : CSVOptions) : M unit :=
  let rows := default 5 (csv_rows options) in
  records <-
    match csv_data options with
    | Some ((first :: _) as data) =>
        (* data && data.length > 0 *)
        let keys := Object_keys first in
        lift (check_records keys data) ;;
        ret data
    | _ => fake_records rows []
    end ;;
  match records with
  | [] =>
      (* Object.keys(records[0]) on an empty list *)
      throw (JsTypeError "Cannot convert undefined or null to object")
  | first :: _ =>
      let header := Object_keys first in
      io env (EvWriteFile (csv_path options) (ArtCsv header records))
  end.

Definition generateImage (path : string) (create output : JsVal) : M unit :=
  io env (EvWriteFile path (ArtImage create output)).

Definition rgb (r g b : Z) : JsVal :=
  JObj [("r", num r); ("g", num g); ("b", num b)].

Definition generateJPG (path : string) : M unit :=
  generateImage path
    (JObj [("width", num 300); ("height", num 200); ("channels", num 3);
           ("background", rgb 255 0 0)])
    (JObj [("format", JStr "jpeg")]).

Definition generatePNG (path : string) : M unit :=
  generateImage path
    (JObj [("width", num 300); ("height", num 200); ("channels", num 3);
           ("background", rgb 0 255 0)])
    (JObj [("format", JStr "png")]).

(** [opts: AudioOptions = {}]. The options are read and converted where
    the code converts them: the bit depth to a string and the amplitude to
    a number before the guard on the length, the sample rate in the
    product that gives the sample count, the tone frequency (when the
    noise is not white) after the sample buffer is allocated. The values
    of the samples are the encoder's business. *)
Definition generateWAV (path : string) (lengthSeconds : JsNum) (opts : JsVal)
  : M unit :=
  let opts := if is_undefined opts then JObj [] else opts in
  sr <- lift (prop opts "sampleRate") ;;
  let sampleRate := nullish sr (num 44100) in
  lift (ToString (nullish (field opts "bitDepth") (num 16))) ;;
  lift (ToNumber env (nullish (field opts "amplitude") (JNum (Fin (9 # 10))))) ;;
  if negb (isFinite lengthSeconds) || num_le lengthSeconds zero
  then throw (JsError "lengthSeconds must be a positive number.")
  else
    rate <- lift (ToNumber env sampleRate) ;;
    let totalSamples := Math_floor (num_mul rate lengthSeconds) in
    new_Int16Array env totalSamples ;;
    (if is_white (field opts "noise") then ret tt
     else lift (ToNumber env (nullish (field opts "toneHz") (num 440))) ;; ret tt) ;;
    io env (EvWriteFile path (ArtWav lengthSeconds opts)).

(** The WAV goes to [path.replace(".mp3", ".wav")]; ffmpeg then reads it
    and writes [path]. Nothing removes the WAV. *)
Definition generateMP3 (path : string) (lengthSeconds : JsNum) (opts : JsVal)
  : M unit :=
  let wavPath := replace_first ".mp3" ".wav" path in
  generateWAV wavPath lengthSeconds opts ;;
  io env (EvWriteFile path (ArtMp3 wavPath)).

Definition generateMP4 (path : string) (opts : VideoOptions) : M unit :=
  let settings := resolve_video opts in
  lift (check_video settings) ;;
  io env (EvWriteFile path (ArtMp4 settings)).

Definition generateZIP (outPath : string) (files : list JsVal) : M unit :=
  io env (EvWriteFile outPath (ArtZip files)).

Definition generateRAR (outPath : string) (files : list JsVal) (rarPath : string)
  : M unit :=
  io env (EvWriteFile outPath (ArtRar files rarPath)).
End MediaGenerators.

(** ** Per-kind normalization ([generate.ts], the head of each [try] block) *)

(** [`${section}[${idx}]${rest}`]. *)
Definition loc (section : string) (idx : nat) (rest : string) : string :=
  section ++ "[" ++ string_of_nat idx ++ "]" ++ rest.

(** [v === undefined ? undefined : check(v)]. *)
Definition optional {A} (v : JsVal) (check : JsVal -> Res A) : Res (option A) :=
  if is_undefined v then Ok None
  else let? a := check v in Ok (Some a).

(** Iterations of [for (let i = 0; i < n; i++)] for a finite [n]; the
    bounds that reach a generator went through [expectPositiveInt]. *)
Definition count (n : JsNum) : nat :=
  match n with
  | Fin q => Z.to_nat (Qceiling q)
  | _ => 0
  end.

Definition array_opt (v : JsVal) : option (list JsVal) :=
  match v with JArr elems => Some elems | _ => None end.

(** The [texts] clause shared by the pdf, txt and docx handlers. *)
Definition texts_field (item : JsVal) (where_ : string) : Res (option (list JsVal)) :=
  let? texts := prop item "texts" in
  if is_undefined texts then Ok None
  else if Array_isArray texts && every typeof_string texts then Ok (array_opt texts)
  else Throw (JsError (where_ ++ " must be an array of strings")).

Definition normalizeJSON (idx : nat) (item : JsVal) : Res JSONOptions :=
  let? p := prop item "path" in
  let? outPath := expectString p (loc "json" idx ".path") in
  let? pr := prop item "pretty" in
  let? pretty := (if is_undefined pr then Ok true
                  else expectBoolean pr (loc "json" idx ".pretty")) in
  let? d := prop item "data" in
  let? data := (if truthy d && typeof_object d then Ok d
                else if is_undefined d then Ok JUndefined
                else Throw (JsError (loc "json" idx ".data must be an object"))) in
  Ok (mkJSONOptions outPath (Some pretty) data).

Definition normalizePDF (idx : nat) (item : JsVal) : Res PDFOptions :=
  let? p := prop item "path" in
  let? outPath := expectString p (loc "pdf" idx ".path") in
  let? t := prop item "title" in
  let? title := optional t (fun v => expectString v (loc "pdf" idx ".title")) in
  let? f := prop item "fontSize" in
  let? fontSize := optional f (fun v => expectPositiveInt v (loc "pdf" idx ".fontSize")) in
  let? l := prop item "lines" in
  let? lines := expectPositiveInt l (loc "pdf" idx ".lines") in
  let? texts := texts_field item (loc "pdf" idx ".texts") in
  Ok (mkPDFOptions outPath title fontSize (count lines) texts).

(** The txt and docx handlers differ in the section name only. *)
Definition normalizeLines (section : string) (idx : nat) (item : JsVal)
  : Res LinesOptions :=
  let? p := prop item "path" in
  let? outPath := expectString p (loc section idx ".path") in
  let? l := prop item "lines" in
  let? lines := expectPositiveInt l (loc section idx ".lines") in
  let? texts := texts_field item (loc section idx ".texts") in
  Ok (mkLinesOptions outPath (count lines) texts).

Definition normalizeTXT := normalizeLines "txt".
Definition normalizeDOCX := normalizeLines "docx".

(** [for (const [key, val] of Object.entries(slides))] in [handlePPTX]. *)
Fixpoint check_slides (idx : nat) (entries : list (string * JsVal)) : Res unit :=
  match entries with
  | [] => Ok tt
  | (key, val) :: rest =>
      let here := loc "pptx" idx (".slides[" ++ quoted key ++ "]") in
      if negb (truthy val) || negb (typeof_object val)
      then Throw (JsError (here ++ " must be an object"))
      else
        let? _ := expectPositiveInt (field val "lines") (here ++ ".lines") in
        let texts := field val "texts" in
        if negb (is_undefined texts)
           && (negb (Array_isArray texts) || negb (every typeof_string texts))
        then Throw (JsError (here ++ ".texts must be an array of strings"))
        else check_slides idx rest
  end.

(** The validated [slides] object as [Record<string, SlideOptions>]. *)
Definition slides_of (slides : JsVal) : list (string * SlideOptions) :=
  map (fun kv => (fst kv,
                  mkSlideOptions (count (as_num (field (snd kv) "lines")))
                                 (array_opt (field (snd kv) "texts"))))
      (Object_entries slides).

Definition normalizePPTX (idx : nat) (item : JsVal) : Res PPTXOptions :=
  let? p := prop item "path" in
  let? outPath := expectString p (loc "pptx" idx ".path") in
  let? slides := prop item "slides" in
  if negb (truthy slides) || negb (typeof_object slides)
  then Throw (JsError (loc "pptx" idx
         ".slides must be an object of { [slideTitle]: { lines: number; texts?: string[] } }"))
  else
    let? _ := check_slides idx (Object_entries slides) in
    Ok (mkPPTXOptions outPath (slides_of slides)).

(** [for (const [sheetName, sheetOpts] of Object.entries(sheets))]. *)
Fixpoint check_sheets (idx : nat) (entries : list (string * JsVal)) : Res unit :=
  match entries with
  | [] => Ok tt
  | (sheetName, sheetOpts) :: rest =>
      let here := loc "xlsx" idx (".sheets[" ++ quoted sheetName ++ "]") in
      if negb (truthy sheetOpts) || negb (typeof_object sheetOpts)
      then Throw (JsError (here ++ " must be an object"))
      else
        let? _ := expectPositiveInt (field sheetOpts "rows") (here ++ ".rows") in
        let texts := field sheetOpts "texts" in
        if negb (is_undefined texts)
           && (negb (Array_isArray texts) || negb (every Array_isArray texts))
        then Throw (JsError (here ++ ".texts must be string[][]"))
        else check_sheets idx rest
  end.

Definition sheets_of (sheets : JsVal) : list (string * SheetOptions) :=
  map (fun kv => (fst kv,
                  mkSheetOptions (count (as_num (field (snd kv) "rows")))
                                 (array_opt (field (snd kv) "texts"))))
      (Object_entries sheets).

Definition normalizeXLSX (idx : nat) (item : JsVal) : Res XLSXOptions :=
  let? p := prop item "path" in
  let? outPath := expectString p (loc "xlsx" idx ".path") in
  let? sheets := prop item "sheets" in
  if negb (truthy sheets) || negb (typeof_object sheets)
  then Throw (JsError (loc "xlsx" idx
         ".sheets must be an object of { [sheetName]: { rows: number; texts?: string[][] } }"))
  else
    let? _ := check_sheets idx (Object_entries sheets) in
    Ok (mkXLSXOptions outPath (sheets_of sheets)).

Definition is_record (r : JsVal) : bool := truthy r && typeof_object r.

Definition normalizeCSV (idx : nat) (item : JsVal) : Res CSVOptions :=
  let? p := prop item "path" in
  let? outPath := expectString p (loc "csv" idx ".path") in
  let? r := prop item "rows" in
  let? rows := optional r (fun v => expectPositiveInt v (loc "csv" idx ".rows")) in
  let? d := prop item "data" in
  let? data := (if is_undefined d then Ok None
                else if Array_isArray d && every is_record d then Ok (array_opt d)
                else Throw (JsError (loc "csv" idx ".data must be an array of objects"))) in
  Ok (mkCSVOptions outPath (option_map count rows) data).

Definition normalizePath (section : string) (idx : nat) (item : JsVal) : Res string :=
  let? p := prop item "path" in
  expectString p (loc section idx ".path").

Record ImageRequest : Type := mkImageRequest {
  img_path : string;
  img_create : JsVal;
  img_output : JsVal;
  img_format : string
}.

Definition image_formats : list string :=
  ["jpeg"; "png"; "webp"; "avif"; "tiff"; "gif"; "heif"].

Definition normalizeCustom (idx : nat) (item : JsVal) : Res ImageRequest :=
  let? outPath := normalizePath "images.custom" idx item in
  let? create := prop item "create" in
  let? output := prop item "output" in
  if negb (truthy create) || negb (typeof_object create)
  then Throw (JsError (loc "images.custom" idx ".create must be an object"))
  else if negb (truthy output) || negb (typeof_object output)
  then Throw (JsError (loc "images.custom" idx ".output must be an object"))
  else
    let? _ := expectPositiveInt (field create "width")
                (loc "images.custom" idx ".create.width") in
    let? _ := expectPositiveInt (field create "height")
                (loc "images.custom" idx ".create.height") in
    match field output "format" with
    | JStr format =>
        if negb (includes image_formats format)
        then Throw (JsError (loc "images.custom" idx ".output.format must be one of "
                             ++ join ", " image_formats))
        else Ok (mkImageRequest outPath create output format)
    | _ => Throw (JsError (loc "images.custom" idx ".output.format must be a string"))
    end.

Record AudioRequest : Type := mkAudioRequest {
  au_path : string;
  au_lengthSeconds : JsNum;
  au_opts : JsVal
}.

Definition normalizeAudio (section : string) (idx : nat) (item : JsVal)
  : Res AudioRequest :=
  let? outPath := normalizePath section idx item in
  let? l := prop item "lengthSeconds" in
  let? lengthSeconds := expectPositiveNumber l (loc section idx ".lengthSeconds") in
  let? o := prop item "opts" in
  let opts := if truthy o && typeof_object o then o else JUndefined in
  Ok (mkAudioRequest outPath lengthSeconds opts).

Definition pixel_formats : list string := ["yuv420p"; "yuv422p"; "yuv444p"].

Definition presets : list string :=
  ["ultrafast"; "superfast"; "veryfast"; "faster"; "fast"; "medium"; "slow";
   "slower"; "veryslow"].

(** [expectString] followed by membership in a fixed set. *)
Definition expectOneOf (allowed : list string) (v : JsVal) (where_ : string)
  : Res string :=
  let? s := expectString v where_ in
  if negb (includes allowed s)
  then Throw (JsError (where_ ++ " must be one of " ++ join ", " allowed))
  else Ok s.

Definition expectResolution (v : JsVal) (where_ : string) : Res string :=
  let? res := expectString v where_ in
  if negb (resolution_re res)
  then Throw (JsError (where_ ++ " must be " ++ quoted "WIDTHxHEIGHT"))
  else Ok res.

(** The [crf] clause of [handleVideo] (and of the mp4 endpoint). *)
Definition expectCrf (v : JsVal) (where_ : string) : Res JsNum :=
  let? crf := expectPositiveNumber v where_ in
  if num_lt crf zero || num_gt crf (Fin 51)
  then Throw (JsError (where_ ++ " must be within [0,51]"))
  else Ok crf.

Definition normalizeVideo (idx : nat) (item : JsVal) : Res (string * VideoOptions) :=
  let? outPath := normalizePath "video" idx item in
  let? d := prop item "duration" in
  let? duration := optional d (fun v => expectPositiveNumber v (loc "video" idx ".duration")) in
  let? r := prop item "resolution" in
  let? resolution := optional r (fun v => expectResolution v (loc "video" idx ".resolution")) in
  let? f := prop item "fps" in
  let? fps := optional f (fun v => expectPositiveNumber v (loc "video" idx ".fps")) in
  let? b := prop item "background" in
  let? background := optional b (fun v => expectString v (loc "video" idx ".background")) in
  let? c := prop item "crf" in
  let? crf := optional c (fun v => expectCrf v (loc "video" idx ".crf")) in
  let? pf := prop item "pixelFormat" in
  let? pixelFormat := optional pf (fun v => expectOneOf pixel_formats v (loc "video" idx ".pixelFormat")) in
  let? ps := prop item "preset" in
  let? preset := optional ps (fun v => expectOneOf presets v (loc "video" idx ".preset")) in
  let? sa := prop item "silentAudio" in
  let? silentAudio := optional sa (fun v => expectBoolean v (loc "video" idx ".silentAudio")) in
  Ok (outPath,
      mkVideoOptions duration resolution fps background crf pixelFormat preset silentAudio).

Record ArchiveRequest : Type := mkArchiveRequest {
  ar_path : string;
  ar_files : list JsVal;
  ar_rarPath : string
}.

Definition files_field (section : string) (idx : nat) (item : JsVal) : Res (list JsVal) :=
  let? files := prop item "files" in
  if Array_isArray files && every typeof_string files then Ok (elems_of files)
  else Throw (JsError (loc section idx ".files must be an array of file paths")).

Definition normalizeZIP (idx : nat) (item : JsVal) : Res ArchiveRequest :=
  let? outPath := normalizePath "archives.zip" idx item in
  let? files := files_field "archives.zip" idx item in
  Ok (mkArchiveRequest outPath files "rar").

Definition normalizeRAR (idx : nat) (item : JsVal) : Res ArchiveRequest :=
  let? outPath := normalizePath "archives.rar" idx item in
  let? files := files_field "archives.rar" idx item in
  let? rp := prop item "rarPath" in
  let? rarPath := (if is_undefined rp then Ok "rar"
                   else expectString rp (loc "archives.rar" idx ".rarPath")) in
  Ok (mkArchiveRequest outPath files rarPath).

(** ** Handlers and the orchestrator ([generate.ts]) *)

(** [Array.isArray(cfg) ? cfg : [cfg]]. *)
Definition items_of (cfg : JsVal) : list JsVal :=
  match cfg with
  | JArr items => items
  | _ => [cfg]
  end.

Definition when (c : bool) (m : M unit) : M unit := if c then m else ret tt.

(** [for (const [idx, item] of items.entries()) body], from index [idx]. *)
Fixpoint for_entries (idx : nat) (items : list JsVal)
    (body : nat -> JsVal -> M unit) : M unit :=
  match items with
  | [] => ret tt
  | item :: rest => body idx item ;; for_entries (S idx) rest body
  end.

Fixpoint hint_lines (hints : list string) : M unit :=
  match hints with
  | [] => ret tt
  | h :: rest => error h None ;; hint_lines rest
  end.

(** [catch (e) { error(`... failed at index ${idx}`, e); error(hint); throw e; }]. *)
Definition on_failure (failure : string) (hints : list string) (idx : nat)
    (e : Exn) : M unit :=
  error (failure ++ " failed at index " ++ string_of_nat idx) (Some e) ;;
  hint_lines hints ;;
  throw e.

(** The loop every handler runs over the items of a fragment. *)
Definition each_item (items : list JsVal) (failure : string) (hints : list string)
    (try_block : nat -> JsVal -> M unit) : M unit :=
  for_entries 0 items
    (fun idx item => try_catch (try_block idx item) (on_failure failure hints idx)).

Definition ffmpeg_hint_mp3 : string :=
  "Hint: MP3 requires ffmpeg (provided via ffmpeg-static on supported platforms).".
Definition ffmpeg_hint_mp4 : string :=
  "Hint: MP4 requires ffmpeg (provided via ffmpeg-static on supported platforms).".
Definition rar_hint : string :=
  "Hint: RAR requires a system 'rar' CLI installed and accessible in PATH or via 'rarPath'.".

Section Orchestrator.
Variable env : Env.

Definition ensureDirFor (filePath : string) : M unit :=
  io env (EvMkdir (dirname env filePath)).

Definition tryJSON (idx : nat) (item : JsVal) : M unit :=
  req <- lift (normalizeJSON idx item) ;;
  ensureDirFor (json_path req) ;;
  generateJSON env req ;;
  info ("Generated JSON → " ++ json_path req).

Definition tryPDF (idx : nat) (item : JsVal) : M unit :=
  req <- lift (normalizePDF idx item) ;;
  ensureDirFor (pdf_path req) ;;
  generatePDF env req ;;
  info ("Generated PDF → " ++ pdf_path req).

Definition tryTXT (idx : nat) (item : JsVal) : M unit :=
  req <- lift (normalizeTXT idx item) ;;
  ensureDirFor (lo_path req) ;;
  generateTXT env req ;;
  info ("Generated TXT → " ++ lo_path req).

Definition tryDOCX (idx : nat) (item : JsVal) : M unit :=
  req <- lift (normalizeDOCX idx item) ;;
  ensureDirFor (lo_path req) ;;
  generateDOCX env req ;;
  info ("Generated DOCX → " ++ lo_path req).

Definition tryPPTX (idx : nat) (item : JsVal) : M unit :=
  req <- lift (normalizePPTX idx item) ;;
  ensureDirFor (pptx_path req) ;;
  generatePPTX env req ;;
  info ("Generated PPTX → " ++ pptx_path req).

Definition tryXLSX (idx : nat) (item : JsVal) : M unit :=
  req <- lift (normalizeXLSX idx item) ;;
  ensureDirFor (xlsx_path req) ;;
  generateXLSX env req ;;
  info ("Generated XLSX → " ++ xlsx_path req).

(** If both rows and data are provided, prefer data but warn. *)
Definition csv_notice (idx : nat) (req : CSVOptions) : M unit :=
  match csv_rows req, csv_data req with
  | Some _, Some _ => info (loc "csv" idx ": 'data' provided, 'rows' will be ignored.")
  | _, _ => ret tt
  end.

Definition tryCSV (idx : nat) (item : JsVal) : M unit :=
  req <- lift (normalizeCSV idx item) ;;
  csv_notice idx req ;;
  ensureDirFor (csv_path req) ;;
  generateCSV env req ;;
  info ("Generated CSV → " ++ csv_path req).

Definition tryJPG (idx : nat) (item : JsVal) : M unit :=
  outPath <- lift (normalizePath "images.jpg" idx item) ;;
  ensureDirFor outPath ;;
  generateJPG env outPath ;;
  info ("Generated JPG → " ++ outPath).

Definition tryPNG (idx : nat) (item : JsVal) : M unit :=
  outPath <- lift (normalizePath "images.png" idx item) ;;
  ensureDirFor outPath ;;
  generatePNG env outPath ;;
  info ("Generated PNG → " ++ outPath).

Definition tryCustom (idx : nat) (item : JsVal) : M unit :=
  req <- lift (normalizeCustom idx item) ;;
  ensureDirFor (img_path req) ;;
  generateImage env (img_path req) (img_create req) (img_output req) ;;
  info ("Generated image (" ++ img_format req ++ ") → " ++ img_path req).

Definition tryWAV (idx : nat) (item : JsVal) : M unit :=
  req <- lift (normalizeAudio "audio.wav" idx item) ;;
  ensureDirFor (au_path req) ;;
  generateWAV env (au_path req) (au_lengthSeconds req) (au_opts req) ;;
  info ("Generated WAV → " ++ au_path req).

Definition tryMP3 (idx : nat) (item : JsVal) : M unit :=
  req <- lift (normalizeAudio "audio.mp3" idx item) ;;
  ensureDirFor (au_path req) ;;
  generateMP3 env (au_path req) (au_lengthSeconds req) (au_opts req) ;;
  info ("Generated MP3 → " ++ au_path req).

Definition tryVideo (idx : nat) (item : JsVal) : M unit :=
  req <- lift (normalizeVideo idx item) ;;
  ensureDirFor (fst req) ;;
  generateMP4 env (fst req) (snd req) ;;
  info ("Generated MP4 → " ++ fst req).

Definition tryZIP (idx : nat) (item : JsVal) : M unit :=
  req <- lift (normalizeZIP idx item) ;;
  ensureDirFor (ar_path req) ;;
  generateZIP env (ar_path req) (ar_files req) ;;
  info ("Generated ZIP → " ++ ar_path req).

Definition tryRAR (idx : nat) (item : JsVal) : M unit :=
  req <- lift (normalizeRAR idx item) ;;
  ensureDirFor (ar_path req) ;;
  generateRAR env (ar_path req) (ar_files req) (ar_rarPath req) ;;
  info ("Generated RAR → " ++ ar_path req).

Definition handleJSON (cfg : JsVal) : M unit :=
  each_item (items_of cfg) "JSON generation" [] tryJSON.
Definition handlePDF (cfg : JsVal) : M unit :=
  each_item (items_of cfg) "PDF generation" [] tryPDF.
Definition handleTXT (cfg : JsVal) : M unit :=
  each_item (items_of cfg) "TXT generation" [] tryTXT.
Definition handleDOCX (cfg : JsVal) : M unit :=
  each_item (items_of cfg) "DOCX generation" [] tryDOCX.
Definition handlePPTX (cfg : JsVal) : M unit :=
  each_item (items_of cfg) "PPTX generation" [] tryPPTX.
Definition handleXLSX (cfg : JsVal) : M unit :=
  each_item (items_of cfg) "XLSX generation" [] tryXLSX.
Definition handleCSV (cfg : JsVal) : M unit :=
  each_item (items_of cfg) "CSV generation" [] tryCSV.

Definition handleImages (cfg : JsVal) : M unit :=
  when (truthy (field cfg "jpg"))
    (each_item (items_of (field cfg "jpg")) "JPG generation" [] tryJPG) ;;
  when (truthy (field cfg "png"))
    (each_item (items_of (field cfg "png")) "PNG generation" [] tryPNG) ;;
  when (truthy (field cfg "custom"))
    (each_item (items_of (field cfg "custom")) "Custom image generation" [] tryCustom).

Definition handleAudio (cfg : JsVal) : M unit :=
  when (truthy (field cfg "wav"))
    (each_item (items_of (field cfg "wav")) "WAV generation" [] tryWAV) ;;
  when (truthy (field cfg "mp3"))
    (each_item (items_of (field cfg "mp3")) "MP3 generation" [ffmpeg_hint_mp3] tryMP3).

Definition handleVideo (cfg : JsVal) : M unit :=
  each_item (items_of cfg) "Video generation" [ffmpeg_hint_mp4] tryVideo.

Definition handleArchives (cfg : JsVal) : M unit :=
  when (truthy (field cfg "zip"))
    (each_item (items_of (field cfg "zip")) "ZIP generation" [] tryZIP) ;;
  when (truthy (field cfg "rar"))
    (each_item (items_of (field cfg "rar")) "RAR generation" [rar_hint] tryRAR).

(** [cfg.outputDir], when it is a non-blank string, is created first. *)
Definition ensureOutputDir (cfg : JsVal) : M unit :=
  match field cfg "outputDir" with
  | JStr dir =>
      when (truthy (JStr dir) && negb (blank dir))
        (io env (EvMkdir dir) ;; info ("Ensured outputDir: " ++ dir))
  | _ => ret tt
  end.

(** [runFromConfig] on the document [loadYaml] returned. The outer
    [catch] only rethrows. *)
Definition runFromConfig (cfg : JsVal) : M unit :=
  ensureOutputDir cfg ;;
  when (truthy (field cfg "json")) (handleJSON (field cfg "json")) ;;
  when (truthy (field cfg "pdf")) (handlePDF (field cfg "pdf")) ;;
  when (truthy (field cfg "txt")) (handleTXT (field cfg "txt")) ;;
  when (truthy (field cfg "docx")) (handleDOCX (field cfg "docx")) ;;
  when (truthy (field cfg "pptx")) (handlePPTX (field cfg "pptx")) ;;
  when (truthy (field cfg "xlsx")) (handleXLSX (field cfg "xlsx")) ;;
  when (truthy (field cfg "csv")) (handleCSV (field cfg "csv")) ;;
  when (truthy (field cfg "images")) (handleImages (field cfg "images")) ;;
  when (truthy (field cfg "audio")) (handleAudio (field cfg "audio")) ;;
  when (truthy (field cfg "video")) (handleVideo (field cfg "video")) ;;
  when (truthy (field cfg "archives")) (handleArchives (field cfg "archives")) ;;
  info "Done.".
End Orchestrator.

(** ** The mp3 endpoint ([server.ts])

    [out] is the fresh path [tmpFile("mp3")] returns. [res.sendFile] calls
    back when the transfer has ended, with the error if it failed: the
    callback removes the file, ignoring a failure to do so, and then hands
    the error of the transfer, if any, to [next]. A request whose handler
    throws, or whose transfer fails, ends here with that error; what the
    central error handler then logs and answers is outside the model. *)
Definition sendFileAndCleanup (env : Env) (filePath : string) : M unit :=
  err <- try_catch (io env (EvSend filePath) ;; ret None)
                   (fun e => ret (Some e)) ;;
  try_catch (io env (EvUnlink filePath)) (fun _ => ret tt) ;;
  match err with
  | Some e => throw e
  | None => ret tt
  end.

Definition post_audio_mp3 (env : Env) (body : JsVal) (out : string) : M unit :=
  lengthSeconds <-
    lift (let? l := prop body "lengthSeconds" in
          expectPositiveNumber l "lengthSeconds") ;;
  o <- lift (prop body "opts") ;;
  let opts := if truthy o && typeof_object o then o else JUndefined in
  generateMP3 env out lengthSeconds opts ;;
  sendFileAndCleanup env out.

(** [loadYaml] once the file is read and parsed into [doc]. *)
Definition loadYaml (filePath : string) (doc : JsVal) : Res JsVal :=
  if negb (truthy doc) || negb (typeof_object doc)
  then Throw (JsError ("Failed to read/parse YAML: " ++ filePath ++ ". "
                       ++ "YAML root must be a mapping (object)."))
  else Ok doc.

(** [main] for an existing config file: the exit status. *)
Definition main (env : Env) (configPath : string) (doc : JsVal) (w : World)
  : nat * World :=
  match (cfg <- lift (loadYaml configPath doc) ;; runFromConfig env cfg) w with
  | (Ok _, w') => (0, w')
  | (Throw _, w') => (1, w')
  end.

(** ** The plan as a sequence of work items

    The kinds of file the orchestrator knows, in the order [runFromConfig]
    visits them. *)
Inductive Kind : Type :=
| KJson | KPdf | KTxt | KDocx | KPptx | KXlsx | KCsv
| KJpg | KPng | KCustom | KWav | KMp3 | KVideo | KZip | KRar.

Definition declared_order : list Kind :=
  [KJson; KPdf; KTxt; KDocx; KPptx; KXlsx; KCsv;
   KJpg; KPng; KCustom; KWav; KMp3; KVideo; KZip; KRar].

Definition section_key (k : Kind) : string :=
  match k with
  | KJson => "json" | KPdf => "pdf" | KTxt => "txt" | KDocx => "docx"
  | KPptx => "pptx" | KXlsx => "xlsx" | KCsv => "csv"
  | KJpg | KPng | KCustom => "images"
  | KWav | KMp3 => "audio"
  | KVideo => "video"
  | KZip | KRar => "archives"
  end.

Definition sub_key (k : Kind) : option string :=
  match k with
  | KJpg => Some "jpg" | KPng => Some "png" | KCustom => Some "custom"
  | KWav => Some "wav" | KMp3 => Some "mp3"
  | KZip => Some "zip" | KRar => Some "rar"
  | _ => None
  end.

Definition failure_of (k : Kind) : string :=
  match k with
  | KJson => "JSON generation" | KPdf => "PDF generation"
  | KTxt => "TXT generation" | KDocx => "DOCX generation"
  | KPptx => "PPTX generation" | KXlsx => "XLSX generation"
  | KCsv => "CSV generation" | KJpg => "JPG generation"
  | KPng => "PNG generation" | KCustom => "Custom image generation"
  | KWav => "WAV generation" | KMp3 => "MP3 generation"
  | KVideo => "Video generation" | KZip => "ZIP generation"
  | KRar => "RAR generation"
  end.

Definition hints_of (k : Kind) : list string :=
  match k with
  | KMp3 => [ffmpeg_hint_mp3]
  | KVideo => [ffmpeg_hint_mp4]
  | KRar => [rar_hint]
  | _ => []
  end.

Definition checked {A} (r : Res A) : Res unit := let? _ := r in Ok tt.

(** The field validation the handler of kind [k] performs on an item. *)
Definition validation (k : Kind) (idx : nat) (item : JsVal) : Res unit :=
  match k with
  | KJson => checked (normalizeJSON idx item)
  | KPdf => checked (normalizePDF idx item)
  | KTxt => checked (normalizeTXT idx item)
  | KDocx => checked (normalizeDOCX idx item)
  | KPptx => checked (normalizePPTX idx item)
  | KXlsx => checked (normalizeXLSX idx item)
  | KCsv => checked (normalizeCSV idx item)
  | KJpg => checked (normalizePath "images.jpg" idx item)
  | KPng => checked (normalizePath "images.png" idx item)
  | KCustom => checked (normalizeCustom idx item)
  | KWav => checked (normalizeAudio "audio.wav" idx item)
  | KMp3 => checked (normalizeAudio "audio.mp3" idx item)
  | KVideo => checked (normalizeVideo idx item)
  | KZip => checked (normalizeZIP idx item)
  | KRar => checked (normalizeRAR idx item)
  end.

Definition try_block (env : Env) (k : Kind) : nat -> JsVal -> M unit :=
  match k with
  | KJson => tryJSON env | KPdf => tryPDF env | KTxt => tryTXT env
  | KDocx => tryDOCX env | KPptx => tryPPTX env | KXlsx => tryXLSX env
  | KCsv => tryCSV env | KJpg => tryJPG env | KPng => tryPNG env
  | KCustom => tryCustom env | KWav => tryWAV env | KMp3 => tryMP3 env
  | KVideo => tryVideo env | KZip => tryZIP env | KRar => tryRAR env
  end.

(** One pass of a handler's loop body: the [try] block under its [catch]. *)
Definition attempt (env : Env) (k : Kind) (idx : nat) (item : JsVal) : M unit :=
  try_catch (try_block env k idx item) (on_failure (failure_of k) (hints_of k) idx).

(** The fragment of kind [k] in a plan, undefined when its section is
    skipped. *)
Definition fragment (cfg : JsVal) (k : Kind) : JsVal :=
  let section := field cfg (section_key k) in
  match sub_key k with
  | None => section
  | Some sub => if truthy section then field section sub else JUndefined
  end.

Fixpoint enumerate (k : Kind) (idx : nat) (items : list JsVal)
  : list (Kind * nat * JsVal) :=
  match items with
  | [] => []
  | item :: rest => (k, idx, item) :: enumerate k (S idx) rest
  end.

Definition section_items (cfg : JsVal) (k : Kind) : list (Kind * nat * JsVal) :=
  if truthy (fragment cfg k) then enumerate k 0 (items_of (fragment cfg k)) else [].

(** Every item of the plan with its kind and index, in processing order. *)
Definition plan_items (cfg : JsVal) : list (Kind * nat * JsVal) :=
  flat_map (section_items cfg) declared_order.

Fixpoint run_items (env : Env) (work : list (Kind * nat * JsVal)) : M unit :=
  match work with
  | [] => ret tt
  | (k, idx, item) :: rest => attempt env k idx item ;; run_items env rest
  end.

(** A plan whose fragment of kind [k] is [frag]; [siblings] are the other
    sub-kinds of its section, [others] the other sections. *)
Definition plan_with (k : Kind) (frag : JsVal) (siblings others : list (string * JsVal))
  : JsVal :=
  JObj ((section_key k,
         match sub_key k with
         | None => frag
         | Some sub => JObj ((sub, frag) :: siblings)
         end) :: others).

(** ** A concrete environment for worked examples *)

Fixpoint cut_at_slash (rev_path : list ascii) : option (list ascii) :=
  match rev_path with
  | [] => None
  | c :: rest => if byte_is c 47 then Some rest else cut_at_slash rest
  end.

(** Stands in for [path.dirname] on paths without trailing or doubled
    slashes. *)
Definition simple_dirname (p : string) : string :=
  match cut_at_slash (rev (list_ascii_of_string p)) with
  | None => "."
  | Some [] => "/"
  | Some d => string_of_list_ascii (rev d)
  end.

(** Stands in for the engine's StringToNumber on runs of decimal digits. *)
Definition plain_number (s : string) : JsNum :=
  match NilZero.uint_of_string s with
  | Some digits => Fin (inject_Z (Z.of_uint digits))
  | None => NaN
  end.

(** The wording V8 has for a refused length, for the lengths that print
    as plain integers. *)
Definition plain_wording (n : JsNum) : string :=
  match n with
  | Fin q => "Invalid typed array length: "
             ++ NilZero.string_of_int (Z.to_int (Qfloor q))
  | Inf true => "Invalid typed array length: -Infinity"
  | Inf false => "Invalid typed array length: Infinity"
  | NaN => "Invalid typed array length: NaN"
  end.

Definition quiet_env : Env :=
  mkEnv simple_dirname
        (fun n => ("sentence " ++ string_of_nat n)%string)
        (fun n => ("name " ++ string_of_nat n)%string)
        (fun n => ("mail" ++ string_of_nat n ++ "@example.com")%string)
        (fun _ _ => None)
        plain_number plain_wording (fun _ _ => None).

(** The disk is full for every file under [full/]. *)
Definition full_disk_env : Env :=
  mkEnv simple_dirname
        (fun n => ("sentence " ++ string_of_nat n)%string)
        (fun n => ("name " ++ string_of_nat n)%string)
        (fun n => ("mail" ++ string_of_nat n ++ "@example.com")%string)
        (fun _ ev =>
           match ev with
           | EvWriteFile p _ =>
               if String.prefix "full/" p then Some "ENOSPC: no space left on device"
               else None
           | _ => None
           end)
        plain_number plain_wording (fun _ _ => None).

Definition start : World := mkWorld [] 0.

(** ** Reference definitions, in the words of the specification *)

(** Cyclic fill: the element at position [i] is [texts[i mod L]], for
    every [i] below the requested count. *)
Definition cycled (texts : list JsVal) (n : nat) : list JsVal :=
  map (fun i => nth (i mod length texts) texts JUndefined) (seq 0 n).

(** Synthetic filler: one fresh sentence per requested line, starting at
    faker's [d]-th draw. *)
Definition filler (env : Env) (d n : nat) : list JsVal :=
  map (fun j => JStr (lorem_sentence env (d + j))) (seq 0 n).

(** Synthetic rows of a sheet: a fresh name and a fresh address each. *)
Definition filler_rows (env : Env) (d n : nat) : list JsVal :=
  map (fun j => JArr [JStr (person_fullName env (d + 2 * j));
                      JStr (internet_email env (d + 2 * j + 1))])
      (seq 0 n).

(** The deck expected of [generatePPTX], faker standing at its [d]-th
    draw: a slide per entry, in the order of the entries and under their
    titles; the lines of a slide are its texts cycled when it has any,
    filler otherwise. *)
Fixpoint expected_deck (env : Env) (d : nat) (slides : list (string * SlideOptions))
  : list (string * list JsVal) :=
  match slides with
  | [] => []
  | (title, o) :: rest =>
      match default [] (slide_texts o) with
      | [] => (title, filler env d (slide_lines o))
              :: expected_deck env (d + slide_lines o) rest
      | texts => (title, cycled texts (slide_lines o)) :: expected_deck env d rest
      end
  end.

(** Where faker stands after the deck. *)
Fixpoint deck_draws (d : nat) (slides : list (string * SlideOptions)) : nat :=
  match slides with
  | [] => d
  | (_, o) :: rest =>
      match default [] (slide_texts o) with
      | [] => deck_draws (d + slide_lines o) rest
      | _ => deck_draws d rest
      end
  end.

(** The workbook expected of [generateXLSX]: a sheet per entry, each the
    header row followed by its texts cycled when it has any, by synthetic
    rows otherwise. *)
Fixpoint expected_book (env : Env) (d : nat) (sheets : list (string * SheetOptions))
  : list (string * list JsVal) :=
  match sheets with
  | [] => []
  | (name, o) :: rest =>
      match default [] (sheet_texts o) with
      | [] => (name, header_row :: filler_rows env d (sheet_rows o))
              :: expected_book env (d + 2 * sheet_rows o) rest
      | texts => (name, header_row :: cycled texts (sheet_rows o))
                 :: expected_book env d rest
      end
  end.

Fixpoint book_draws (d : nat) (sheets : list (string * SheetOptions)) : nat :=
  match sheets with
  | [] => d
  | (_, o) :: rest =>
      match default [] (sheet_texts o) with
      | [] => book_draws (d + 2 * sheet_rows o) rest
      | _ => book_draws d rest
      end
  end.

(** Two records expose the same field names, whatever their order. *)
Definition same_key_set (r first : JsVal) : Prop :=
  forall k, In k (Object_keys r) <-> In k (Object_keys first).

(** No external action fails. *)
Definition reliable (env : Env) : Prop :=
  forall t ev, io_error env t ev = None.

(** The events are console lines on the error stream only. *)
Definition only_stderr (events : list Event) : Prop :=
  Forall (fun ev => exists line, ev = EvErr line) events.

(** The lines [on_failure] prints. *)
Definition failure_lines (failure : string) (hints : list string) (idx : nat)
    (e : Exn) : list string :=
  ("[file-fabric] ERROR: " ++ failure ++ " failed at index " ++ string_of_nat idx)%string
  :: ("Cause: " ++ message e)%string
  :: map (fun h => ("[file-fabric] ERROR: " ++ h)%string) hints.

(** The events a computation added to the trace. *)
Definition added (w w' : World) : list Event :=
  skipn (length (trace w)) (trace w').

(** Every check on an item's fields comes before any effect of the item:
    where nothing external fails, an item that is refused has left nothing
    but its error lines. *)
Definition checks_before_effects (env : Env) : Prop :=
  forall k idx item w e w',
    attempt env k idx item w = (Throw e, w') -> only_stderr (added w w').

(** Two computations that behave alike in every world. *)
Definition eqm {A} (m1 m2 : M A) : Prop := forall w, m1 w = m2 w.

Definition scenario4_item : JsVal :=
  JObj [("path", JStr "out/c.csv"); ("rows", num 5);
        ("data", JArr [JObj [("a", num 1)]])].

Definition scenario5_plan : JsVal :=
  JObj [("pdf", JObj [("path", JStr "x.pdf"); ("lines", num (-1))])].

Definition mismatched_csv_item : JsVal :=
  JObj [("path", JStr "out/c.csv");
        ("data", JArr [JObj [("name", JStr "Ann"); ("email", JStr "ann@example.com")];
                       JObj [("name", JStr "Bob")]])].

Definition ann : JsVal := JObj [("name", JStr "Ann"); ("email", JStr "ann@example.com")].
Definition bob : JsVal := JObj [("email", JStr "bob@example.com"); ("name", JStr "Bob")].

(** A plan whose second json item has a blank path. *)
Definition stopping_plan : JsVal :=
  JObj [("json", JArr [JObj [("path", JStr "out/a.json")];
                       JObj [("path", JStr " ")];
                       JObj [("path", JStr "out/c.json")]]);
        ("pdf", JObj [("path", JStr "out/d.pdf"); ("lines", num 2)])].

(** ** Names used in the further properties *)

(** The name a kind has in locations: [json], [images.jpg], ... *)
Definition label_of (k : Kind) : string :=
  match k with
  | KJson => "json" | KPdf => "pdf" | KTxt => "txt" | KDocx => "docx"
  | KPptx => "pptx" | KXlsx => "xlsx" | KCsv => "csv"
  | KJpg => "images.jpg" | KPng => "images.png" | KCustom => "images.custom"
  | KWav => "audio.wav" | KMp3 => "audio.mp3"
  | KVideo => "video"
  | KZip => "archives.zip" | KRar => "archives.rar"
  end.


Definition video_defaults : VideoSettings :=
  mkVideoSettings (Fin 1) "1280x720" (Fin 30) "black" (Fin 23) "yuv420p" "medium" true.

(** The records [generateCSV] makes up: a fresh name and a fresh address
    each, starting at faker's [d]-th draw. *)
Definition synthetic_records (env : Env) (d n : nat) : list JsVal :=
  map (fun j => JObj [("name", JStr (person_fullName env (d + 2 * j)));
                      ("email", JStr (internet_email env (d + 2 * j + 1)))])
      (seq 0 n).

(** A collaborator that has no ffmpeg: every transcode fails. *)
Definition no_ffmpeg_env : Env :=
  mkEnv simple_dirname
        (fun n => ("sentence " ++ string_of_nat n)%string)
        (fun n => ("name " ++ string_of_nat n)%string)
        (fun n => ("mail" ++ string_of_nat n ++ "@example.com")%string)
        (fun _ ev =>
           match ev with
           | EvWriteFile _ (ArtMp3 _) => Some "Cannot find ffmpeg"
           | _ => None
           end)
        plain_number plain_wording (fun _ _ => None).

(** The top-level keys [runFromConfig] reads. *)
Definition section_keys : list string :=
  ["json"; "pdf"; "txt"; "docx"; "pptx"; "xlsx"; "csv"; "images"; "audio"; "video";
   "archives"].

Definition known_keys : list string := "outputDir" :: section_keys.

(** ** The footprint of an item and of a run *)

(** Every event a computation adds to the trace satisfies [P], whatever
    its outcome. *)
Definition adds {A} (P : Event -> Prop) (m : M A) : Prop :=
  forall w, exists events,
    trace (snd (m w)) = trace w ++ events /\ Forall P events.

(** The artifact is of the format the kind stands for. *)
Definition art_kind (k : Kind) (a : Artifact) : Prop :=
  match k, a with
  | KJson, ArtJson _ _ | KPdf, ArtPdf _ _ _ | KTxt, ArtTxt _ | KDocx, ArtDocx _
  | KPptx, ArtPptx _ | KXlsx, ArtXlsx _ | KCsv, ArtCsv _ _
  | KJpg, ArtImage _ _ | KPng, ArtImage _ _ | KCustom, ArtImage _ _
  | KWav, ArtWav _ _ | KMp3, ArtMp3 _ | KVideo, ArtMp4 _
  | KZip, ArtZip _ | KRar, ArtRar _ _ => True
  | _, _ => False
  end.

Definition done_line : string := "[file-fabric] Done.".

(** What an item of kind [k] asking for path [p] may do: print (but not
    the end-of-run line), create the parent directory of [p], write a
    file of its kind at [p]; an mp3 item may also write a WAV at the
    sibling path. *)
Definition allowed (env : Env) (k : Kind) (p : string) (ev : Event) : Prop :=
  match ev with
  | EvOut line => line <> done_line
  | EvErr _ => True
  | EvMkdir d => d = dirname env p
  | EvWriteFile q a =>
      (q = p /\ art_kind k a)
      \/ (k = KMp3 /\ q = replace_first ".mp3" ".wav" p /\ exists l o, a = ArtWav l o)
  | EvUnlink _ | EvSend _ => False
  end.










(** The text of a console call as lines: its parts between line feeds. *)
Fixpoint lines_of (s : string) : list string :=
  match s with
  | EmptyString => [EmptyString]
  | String c rest =>
      if byte_is c 10 then EmptyString :: lines_of rest
      else match lines_of rest with
           | l :: ls => String c l :: ls
           | [] => [String c EmptyString]
           end
  end.


(** The lines the events print on standard output. *)
Definition stdout_lines (events : list Event) : list string :=
  flat_map (fun ev => match ev with EvOut text => lines_of text | _ => [] end) events.




(** A text file whose path holds a line feed, then an item that fails. *)
Definition two_line_path_plan : JsVal :=
  JObj [("txt", JArr [JObj [("path", JStr ("x" ++ String (ascii_of_nat 10)
                                                 "[file-fabric] Done."));
                            ("texts", JArr [JStr "t"]); ("lines", num 1)];
                      JObj [("path", JStr " ")]])].




(** [v === false]. *)
Definition is_false (v : JsVal) : bool :=
  match v with JBool false => true | _ => false end.

(** * Properties *)

(** ** Worked examples of the helpers *)

Example blank_examples :
  blank ("  " ++ String (ascii_of_nat 9) EmptyString) = true /\ blank " a " = false.
Proof. split; reflexivity. Qed.

Example resolution_examples :
  resolution_re "1280x720" = true /\ resolution_re "x720" = false
  /\ resolution_re "1280x" = false /\ resolution_re "12x7x2" = false.
Proof. repeat split; reflexivity. Qed.

Example replace_examples :
  replace_first ".mp3" ".wav" "a.mp3.mp3" = "a.wav.mp3"
  /\ replace_first ".mp3" ".wav" "out/audio" = "out/audio".
Proof. split; reflexivity. Qed.

Example dirname_examples :
  simple_dirname "x.pdf" = "." /\ simple_dirname "out/docs/x.pdf" = "out/docs"
  /\ simple_dirname "/x.pdf" = "/".
Proof. repeat split; reflexivity. Qed.

(** ** Field validators *)

Lemma expectPositiveNumber_ok v where_ n :
  expectPositiveNumber v where_ = Ok n <->
  exists q, v = JNum (Fin q) /\ n = Fin q /\ (0 < q)%Q.
Proof.
  unfold expectPositiveNumber. split.
  - destruct v as [| | b | [| s | q] | s | l | l]; simpl; try discriminate.
    destruct (Qle_bool q 0) eqn:Hle; simpl; try discriminate.
    intros H; injection H as <-. exists q. repeat split.
    apply Qnot_le_lt. intros Hc. apply Qle_bool_iff in Hc. congruence.
  - intros (q & -> & -> & Hq). simpl.
    destruct (Qle_bool q 0) eqn:Hle; simpl; [|reflexivity].
    apply Qle_bool_iff in Hle. exfalso. exact (Qlt_not_le _ _ Hq Hle).
Qed.

Lemma expectPositiveInt_ok v where_ n :
  expectPositiveInt v where_ = Ok n <->
  exists q, v = JNum (Fin q) /\ n = Fin q /\ (0 < q)%Q /\ (inject_Z (Qfloor q) == q)%Q.
Proof.
  unfold expectPositiveInt. split.
  - destruct v as [| | b | [| s | q] | s | l | l]; simpl; try discriminate.
    destruct (Qle_bool q 0) eqn:Hle; simpl; try discriminate.
    destruct (Qeq_bool (inject_Z (Qfloor q)) q) eqn:Hfl; simpl; try discriminate.
    intros H; injection H as <-. exists q. repeat split.
    + apply Qnot_le_lt. intros Hc. apply Qle_bool_iff in Hc. congruence.
    + now apply Qeq_bool_iff.
  - intros (q & -> & -> & Hq & Hfl). simpl.
    destruct (Qle_bool q 0) eqn:Hle; simpl.
    + apply Qle_bool_iff in Hle. exfalso. exact (Qlt_not_le _ _ Hq Hle).
    + apply Qeq_bool_iff in Hfl. now rewrite Hfl.
Qed.

(** What the handler's [crf] clause lets through: the finite numbers
    strictly above 0 and at most 51. *)
Lemma expectCrf_ok v where_ n :
  expectCrf v where_ = Ok n <->
  exists q, v = JNum (Fin q) /\ n = Fin q /\ (0 < q)%Q /\ (q <= 51)%Q.
Proof.
  unfold expectCrf. split.
  - destruct (expectPositiveNumber v where_) as [m|e] eqn:Hpos; simpl; try discriminate.
    apply expectPositiveNumber_ok in Hpos as (q & -> & -> & Hq).
    unfold num_gt. simpl.
    destruct (Qle_bool 0 q) eqn:H0; simpl; try discriminate.
    destruct (Qle_bool q 51) eqn:H51; simpl; try discriminate.
    intros H; injection H as <-. exists q. repeat split; auto.
    now apply Qle_bool_iff.
  - intros (q & -> & -> & Hq & H51).
    assert (Hpos : expectPositiveNumber (JNum (Fin q)) where_ = Ok (Fin q)).
    { apply expectPositiveNumber_ok. exists q. auto. }
    rewrite Hpos. unfold num_gt. simpl.
    assert (H0 : Qle_bool 0 q = true) by (apply Qle_bool_iff, Qlt_le_weak, Hq).
    apply Qle_bool_iff in H51. now rewrite H0, H51.
Qed.

(** The guard of [generateMP4] on the same field: the finite numbers from
    0 to 51, both ends included. *)
Lemma generateMP4_crf_guard (crf : JsNum) :
  (negb (isFinite crf) || num_lt crf zero || num_gt crf (Fin 51)) = false <->
  exists q, crf = Fin q /\ (0 <= q)%Q /\ (q <= 51)%Q.
Proof.
  unfold num_gt. split.
  - destruct crf as [| s | q]; simpl; try discriminate.
    destruct (Qle_bool 0 q) eqn:H0; simpl; try discriminate.
    destruct (Qle_bool q 51) eqn:H51; simpl; try discriminate.
    intros _. exists q. repeat split; now apply Qle_bool_iff.
  - intros (q & -> & H0 & H51). simpl.
    apply Qle_bool_iff in H0, H51. now rewrite H0, H51.
Qed.

(** C7. The positive-integer validator rejects 0, -1, 1.5, NaN, Infinity
    and the string "5" (a string is never read as a number), and accepts
    1 and 1000000. *)
Theorem expectPositiveInt_table (where_ : string) :
  let rejected := Throw (JsError (where_ ++ " must be a positive integer")) in
  expectPositiveInt (num 0) where_ = rejected
  /\ expectPositiveInt (num (-1)) where_ = rejected
  /\ expectPositiveInt (JNum (Fin (3 # 2))) where_ = rejected
  /\ expectPositiveInt (JNum NaN) where_ = rejected
  /\ expectPositiveInt (JNum (Inf false)) where_ = rejected
  /\ expectPositiveInt (JStr "5") where_ = rejected
  /\ expectPositiveInt (num 1) where_ = Ok (Fin (inject_Z 1))
  /\ expectPositiveInt (num 1000000) where_ = Ok (Fin (inject_Z 1000000)).
Proof. repeat split; reflexivity. Qed.

(** C1, the behaviour of the code at crf = 0. The video handler's clause
    sends the value through the positive-number validator first, so a plan
    asking for crf 0 is refused with the positive-number message, although
    the range message of the same clause and the guard of [generateMP4]
    both take 0 as the lower end of the range. *)
Theorem video_crf_zero_refused (env : Env) (w : World) :
  let plan := JObj [("video", JObj [("path", JStr "v.mp4"); ("crf", num 0)])] in
  expectCrf (num 0) "video[0].crf"
    = Throw (JsError "video[0].crf must be a positive number")
  /\ fst (runFromConfig env plan w)
    = Throw (JsError "video[0].crf must be a positive number")
  /\ check_video (resolve_video
       (mkVideoOptions None None None None (Some (Fin 0)) None None None)) = Ok tt.
Proof. repeat split; reflexivity. Qed.

(** ** Content of the line-based generators *)

Lemma tabulate_nth_error {A} (f : nat -> A) (n i : nat) :
  i < n -> nth_error (map f (seq 0 n)) i = Some (f i).
Proof.
  intros Hi. rewrite nth_error_map, nth_error_seq.
  destruct (Nat.ltb_spec i n); [reflexivity | lia].
Qed.

Lemma tabulate_succ {A} (f : nat -> A) (n : nat) :
  map f (seq 0 (S n)) = f 0 :: map (fun j => f (S j)) (seq 0 n).
Proof. simpl. now rewrite <- seq_shift, map_map. Qed.

Lemma element_in_range (texts : list JsVal) (j : nat) :
  texts <> [] ->
  element texts (js_rem j (length texts)) = nth (j mod length texts) texts JUndefined.
Proof.
  intros Hne. unfold js_rem.
  destruct texts as [|t ts]; [congruence | reflexivity].
Qed.

Lemma fill_cyclic_unfold (texts : list JsVal) (k i : nat) (content : list JsVal) :
  fill_cyclic texts k i content
  = content ++ map (fun j => element texts (js_rem j (length texts))) (seq i k).
Proof.
  revert i content. induction k as [|k IH]; intros i content; simpl.
  - now rewrite app_nil_r.
  - rewrite IH, <- app_assoc. reflexivity.
Qed.

Lemma fill_cyclic_cycled (texts : list JsVal) (n : nat) :
  texts <> [] -> fill_cyclic texts n 0 [] = cycled texts n.
Proof.
  intros Hne. rewrite fill_cyclic_unfold. simpl. unfold cycled.
  apply map_ext. intros j. now apply element_in_range.
Qed.

Lemma fill_fake_unfold (env : Env) (k : nat) (content : list JsVal) (w : World) :
  fill_fake env k content w
  = (Ok (content ++ filler env (draws w) k), mkWorld (trace w) (draws w + k)).
Proof.
  revert content w. induction k as [|k IH]; intros content w.
  - simpl. unfold ret, filler. simpl. rewrite app_nil_r, Nat.add_0_r.
    now destruct w.
  - cbn [fill_fake]. unfold bind at 1. unfold faker_sentence, draw.
    rewrite IH. cbn [trace draws]. unfold filler.
    rewrite tabulate_succ, <- app_assoc. cbn [app].
    rewrite (map_ext (fun j => JStr (lorem_sentence env (draws w + S j)))
                     (fun j => JStr (lorem_sentence env (S (draws w) + j))))
      by (intros j; now rewrite Nat.add_succ_r).
    now rewrite Nat.add_0_r, Nat.add_succ_r.
Qed.

Lemma content_lines_cycled (env : Env) (n : nat) (texts : list JsVal) (w : World) :
  texts <> [] -> content_lines env n (Some texts) w = (Ok (cycled texts n), w).
Proof.
  intros Hne. unfold content_lines. cbn [default].
  destruct texts as [|t ts]; [congruence|]. cbn [length Nat.eqb].
  now rewrite fill_cyclic_cycled.
Qed.

Lemma content_lines_filler (env : Env) (n : nat) (w : World) :
  content_lines env n (Some []) w
  = (Ok (filler env (draws w) n), mkWorld (trace w) (draws w + n)).
Proof. unfold content_lines. cbn. now rewrite fill_fake_unfold. Qed.

Lemma xlsx_rows_cycled (env : Env) (texts : list JsVal) (k i : nat)
    (sheet : list JsVal) (w : World) :
  texts <> [] ->
  xlsx_rows_loop env texts k i sheet w
  = (Ok (sheet ++ map (fun j => nth (j mod length texts) texts JUndefined) (seq i k)), w).
Proof.
  intros Hne. revert i sheet. induction k as [|k IH]; intros i sheet.
  - simpl. unfold ret. now rewrite app_nil_r.
  - cbn [xlsx_rows_loop]. destruct texts as [|t ts] eqn:Ht; [congruence|].
    rewrite <- Ht in *. assert (Hlen : Nat.eqb (length texts) 0 = false)
      by (subst texts; reflexivity).
    rewrite Hlen. unfold bind at 1. unfold ret at 1.
    rewrite IH, <- app_assoc. cbn [app seq map].
    rewrite element_in_range by (subst texts; congruence). reflexivity.
Qed.

Lemma xlsx_rows_filler (env : Env) (k i : nat) (sheet : list JsVal) (w : World) :
  xlsx_rows_loop env [] k i sheet w
  = (Ok (sheet ++ filler_rows env (draws w) k), mkWorld (trace w) (draws w + 2 * k)).
Proof.
  revert i sheet w. induction k as [|k IH]; intros i sheet w.
  - simpl. unfold ret, filler_rows. simpl. rewrite app_nil_r, Nat.add_0_r.
    now destruct w.
  - cbn [xlsx_rows_loop length Nat.eqb].
    unfold bind at 1. unfold bind at 1. unfold faker_fullName, draw at 1.
    unfold bind at 1. unfold faker_email, draw at 1. unfold ret at 1.
    rewrite IH. cbn [trace draws]. unfold filler_rows.
    rewrite tabulate_succ, <- app_assoc. cbn [app].
    rewrite (map_ext
               (fun j => JArr [JStr (person_fullName env (draws w + 2 * S j));
                               JStr (internet_email env (draws w + 2 * S j + 1))])
               (fun j => JArr [JStr (person_fullName env (S (S (draws w)) + 2 * j));
                               JStr (internet_email env (S (S (draws w)) + 2 * j + 1))]))
      by (intros j; replace (draws w + 2 * S j) with (S (S (draws w)) + 2 * j) by lia;
          reflexivity).
    replace (draws w + 2 * 0) with (draws w) by lia.
    replace (draws w + 1) with (S (draws w)) by lia.
    replace (draws w + 2 * S k) with (S (S (draws w)) + 2 * k) by lia.
    reflexivity.
Qed.

Lemma cycled_length (texts : list JsVal) (n : nat) : length (cycled texts n) = n.
Proof. unfold cycled. now rewrite length_map, length_seq. Qed.

Lemma cycled_nth_error (texts : list JsVal) (n i : nat) :
  texts <> [] -> i < n ->
  nth_error (cycled texts n) i = nth_error texts (i mod length texts).
Proof.
  intros Hne Hi. unfold cycled. rewrite tabulate_nth_error by assumption.
  symmetry. apply nth_error_nth'. apply Nat.mod_upper_bound.
  destruct texts; [congruence | discriminate].
Qed.

(** *** Decks and workbooks *)

Lemma pptx_slides_loop_expected (env : Env) (slides : list (string * SlideOptions))
    (deck0 : list (string * list JsVal)) (w : World) :
  pptx_slides_loop env slides deck0 w
  = (Ok (deck0 ++ expected_deck env (draws w) slides),
     mkWorld (trace w) (deck_draws (draws w) slides)).
Proof.
  revert deck0 w. induction slides as [|[title o] slides IH]; intros deck0 w.
  - cbn. unfold ret. rewrite app_nil_r. now destruct w.
  - cbn [pptx_slides_loop expected_deck deck_draws]. unfold bind at 1.
    destruct (default [] (slide_texts o)) as [|t ts] eqn:Htexts.
    + assert (Hrun : content_lines env (slide_lines o) (slide_texts o) w
                     = (Ok (filler env (draws w) (slide_lines o)),
                        mkWorld (trace w) (draws w + slide_lines o))).
      { unfold content_lines. rewrite Htexts. cbn [length Nat.eqb].
        now rewrite fill_fake_unfold. }
      rewrite Hrun, IH. cbn [trace draws]. now rewrite <- app_assoc.
    + assert (Hrun : content_lines env (slide_lines o) (slide_texts o) w
                     = (Ok (cycled (t :: ts) (slide_lines o)), w)).
      { unfold content_lines. rewrite Htexts. cbn [length Nat.eqb].
        now rewrite fill_cyclic_cycled by discriminate. }
      rewrite Hrun, IH. now rewrite <- app_assoc.
Qed.

Lemma xlsx_sheets_loop_expected (env : Env) (sheets : list (string * SheetOptions))
    (book0 : list (string * list JsVal)) (w : World) :
  xlsx_sheets_loop env sheets book0 w
  = (Ok (book0 ++ expected_book env (draws w) sheets),
     mkWorld (trace w) (book_draws (draws w) sheets)).
Proof.
  revert book0 w. induction sheets as [|[name o] sheets IH]; intros book0 w.
  - cbn. unfold ret. rewrite app_nil_r. now destruct w.
  - cbn [xlsx_sheets_loop expected_book book_draws]. unfold bind at 1.
    destruct (default [] (sheet_texts o)) as [|t ts] eqn:Htexts.
    + rewrite xlsx_rows_filler, IH. cbn [trace draws app]. now rewrite <- app_assoc.
    + rewrite xlsx_rows_cycled by discriminate. rewrite IH.
      cbn [app]. fold (cycled (t :: ts) (sheet_rows o)). now rewrite <- app_assoc.
Qed.

Lemma generatePPTX_expected (env : Env) (path : string)
    (slides : list (string * SlideOptions)) (w : World) :
  generatePPTX env (mkPPTXOptions path slides) w
  = io env (EvWriteFile path (ArtPptx (expected_deck env (draws w) slides)))
       (mkWorld (trace w) (deck_draws (draws w) slides)).
Proof.
  unfold generatePPTX, bind. cbn [pptx_slides pptx_path].
  now rewrite pptx_slides_loop_expected.
Qed.

Lemma generateXLSX_expected (env : Env) (path : string)
    (sheets : list (string * SheetOptions)) (w : World) :
  generateXLSX env (mkXLSXOptions path sheets) w
  = io env (EvWriteFile path (ArtXlsx (expected_book env (draws w) sheets)))
       (mkWorld (trace w) (book_draws (draws w) sheets)).
Proof.
  unfold generateXLSX, bind. cbn [xlsx_sheets xlsx_path].
  now rewrite xlsx_sheets_loop_expected.
Qed.

Lemma deck_draws_le (d : nat) (slides : list (string * SlideOptions)) :
  d <= deck_draws d slides.
Proof.
  revert d. induction slides as [|[title o] slides IH]; intros d; cbn; [lia|].
  destruct (default [] (slide_texts o)); [|apply IH].
  specialize (IH (d + slide_lines o)). lia.
Qed.

Lemma book_draws_le (d : nat) (sheets : list (string * SheetOptions)) :
  d <= book_draws d sheets.
Proof.
  revert d. induction sheets as [|[name o] sheets IH]; intros d; cbn [book_draws]; [lia|].
  destruct (default [] (sheet_texts o)); [|apply IH].
  specialize (IH (d + 2 * sheet_rows o)). lia.
Qed.

Lemma expected_deck_length (env : Env) (d : nat) (slides : list (string * SlideOptions)) :
  length (expected_deck env d slides) = length slides.
Proof.
  revert d. induction slides as [|[title o] slides IH]; intros d; cbn; [reflexivity|].
  destruct (default [] (slide_texts o)); cbn; now rewrite IH.
Qed.

Lemma expected_book_length (env : Env) (d : nat) (sheets : list (string * SheetOptions)) :
  length (expected_book env d sheets) = length sheets.
Proof.
  revert d. induction sheets as [|[name o] sheets IH]; intros d;
    cbn [expected_book length]; [reflexivity|].
  destruct (default [] (sheet_texts o)); cbn [length]; now rewrite IH.
Qed.

(** The slide at a position of the deck: cycled texts, or filler from
    some draw of faker within the deck's. *)
Lemma expected_deck_nth (env : Env) (slides : list (string * SlideOptions)) :
  forall d j title o,
    nth_error slides j = Some (title, o) ->
    match default [] (slide_texts o) with
    | [] => exists d0,
              d <= d0 /\ d0 + slide_lines o <= deck_draws d slides
              /\ nth_error (expected_deck env d slides) j
                 = Some (title, filler env d0 (slide_lines o))
    | texts => nth_error (expected_deck env d slides) j
               = Some (title, cycled texts (slide_lines o))
    end.
Proof.
  induction slides as [|[title' o'] slides IH]; intros d j title o Hj.
  - destruct j; discriminate.
  - destruct j as [|j]; cbn [nth_error] in Hj.
    + injection Hj as -> ->. cbn [expected_deck deck_draws].
      destruct (default [] (slide_texts o)) as [|t ts]; [|reflexivity].
      exists d. split; [lia|]. split; [apply deck_draws_le | reflexivity].
    + cbn [expected_deck deck_draws].
      destruct (default [] (slide_texts o')) as [|t' ts'].
      * specialize (IH (d + slide_lines o') j title o Hj).
        destruct (default [] (slide_texts o)) as [|t ts]; [|exact IH].
        destruct IH as (d0 & Hlo & Hhi & Hnth). exists d0.
        split; [lia|]. split; [exact Hhi | exact Hnth].
      * exact (IH d j title o Hj).
Qed.

Lemma expected_book_nth (env : Env) (sheets : list (string * SheetOptions)) :
  forall d j name o,
    nth_error sheets j = Some (name, o) ->
    match default [] (sheet_texts o) with
    | [] => exists d0,
              d <= d0 /\ d0 + 2 * sheet_rows o <= book_draws d sheets
              /\ nth_error (expected_book env d sheets) j
                 = Some (name, header_row :: filler_rows env d0 (sheet_rows o))
    | texts => nth_error (expected_book env d sheets) j
               = Some (name, header_row :: cycled texts (sheet_rows o))
    end.
Proof.
  induction sheets as [|[name' o'] sheets IH]; intros d j name o Hj.
  - destruct j; discriminate.
  - destruct j as [|j]; cbn [nth_error] in Hj.
    + injection Hj as -> ->. cbn [expected_book book_draws].
      destruct (default [] (sheet_texts o)) as [|t ts]; [|reflexivity].
      exists d. split; [lia|]. split; [apply book_draws_le | reflexivity].
    + cbn [expected_book book_draws].
      destruct (default [] (sheet_texts o')) as [|t' ts'].
      * specialize (IH (d + 2 * sheet_rows o') j name o Hj).
        destruct (default [] (sheet_texts o)) as [|t ts]; [|exact IH].
        destruct IH as (d0 & Hlo & Hhi & Hnth). exists d0.
        split; [lia|]. split; [exact Hhi | exact Hnth].
      * exact (IH d j name o Hj).
Qed.

(** C4. With a non-empty [texts] of length L and a count N, each of the
    content-cycling generators writes a content of N elements whose
    element i is texts[i mod L]; element 0 is texts[0] whatever N and L
    are. This is the content of the file TXT, DOCX and PDF write; for
    PPTX it is the content of every slide given these texts and this
    count, wherever the slide stands in the deck that is written; for
    XLSX the rows under the header of every such sheet of the workbook
    that is written. *)
Theorem cyclic_fill (env : Env) (texts : list JsVal) (n : nat) :
  texts <> [] ->
  let content := cycled texts n in
  length content = n
  /\ (forall i, i < n -> nth_error content i = nth_error texts (i mod length texts))
  /\ (0 < n -> nth_error content 0 = nth_error texts 0)
  /\ (forall path w,
        generateTXT env (mkLinesOptions path n (Some texts)) w
        = io env (EvWriteFile path (ArtTxt content)) w)
  /\ (forall path w,
        generateDOCX env (mkLinesOptions path n (Some texts)) w
        = io env (EvWriteFile path (ArtDocx content)) w)
  /\ (forall path title fontSize w,
        generatePDF env (mkPDFOptions path title fontSize n (Some texts)) w
        = io env (EvWriteFile path
                    (ArtPdf (default "Fake PDF" title) (default (Fin 20) fontSize) content)) w)
  /\ (forall path slides j slideTitle w,
        nth_error slides j = Some (slideTitle, mkSlideOptions n (Some texts)) ->
        exists deck d,
          generatePPTX env (mkPPTXOptions path slides) w
          = io env (EvWriteFile path (ArtPptx deck)) (mkWorld (trace w) d)
          /\ length deck = length slides
          /\ nth_error deck j = Some (slideTitle, content))
  /\ (forall path sheets j sheetName w,
        nth_error sheets j = Some (sheetName, mkSheetOptions n (Some texts)) ->
        exists book d,
          generateXLSX env (mkXLSXOptions path sheets) w
          = io env (EvWriteFile path (ArtXlsx book)) (mkWorld (trace w) d)
          /\ length book = length sheets
          /\ nth_error book j = Some (sheetName, header_row :: content)).
Proof.
  intros Hne content. subst content.
  split; [apply cycled_length|].
  split; [intros i Hi; now apply cycled_nth_error|].
  split.
  { intros Hn. rewrite cycled_nth_error by assumption.
    now rewrite Nat.Div0.mod_0_l. }
  split.
  { intros path w. unfold generateTXT, bind. cbn [lo_lines lo_texts lo_path].
    now rewrite content_lines_cycled. }
  split.
  { intros path w. unfold generateDOCX, bind. cbn [lo_lines lo_texts lo_path].
    now rewrite content_lines_cycled. }
  split.
  { intros path title fontSize w. unfold generatePDF, bind.
    cbn [pdf_lines pdf_texts pdf_path pdf_title pdf_fontSize].
    now rewrite content_lines_cycled. }
  split.
  { intros path slides j slideTitle w Hj.
    exists (expected_deck env (draws w) slides), (deck_draws (draws w) slides).
    split; [apply generatePPTX_expected|].
    split; [apply expected_deck_length|].
    pose proof (expected_deck_nth env slides (draws w) j _ _ Hj) as Hnth.
    cbn [slide_texts slide_lines default] in Hnth.
    destruct texts as [|t ts]; [congruence | exact Hnth]. }
  intros path sheets j sheetName w Hj.
  exists (expected_book env (draws w) sheets), (book_draws (draws w) sheets).
  split; [apply generateXLSX_expected|].
  split; [apply expected_book_length|].
  pose proof (expected_book_nth env sheets (draws w) j _ _ Hj) as Hnth.
  cbn [sheet_texts sheet_rows default] in Hnth.
  destruct texts as [|t ts]; [congruence | exact Hnth].
Qed.

Lemma cyclic_fill_witness :
  [JStr "x"; JStr "y"] <> []
  /\ generateTXT quiet_env (mkLinesOptions "a.txt" 3 (Some [JStr "x"; JStr "y"])) start
     = io quiet_env (EvWriteFile "a.txt" (ArtTxt [JStr "x"; JStr "y"; JStr "x"])) start
  /\ generatePPTX quiet_env
       (mkPPTXOptions "a.pptx"
          [("Intro", mkSlideOptions 1 None);
           ("Body", mkSlideOptions 3 (Some [JStr "x"; JStr "y"]))]) start
     = io quiet_env
         (EvWriteFile "a.pptx"
            (ArtPptx [("Intro", [JStr "sentence 0"]);
                      ("Body", [JStr "x"; JStr "y"; JStr "x"])]))
         (mkWorld [] 1).
Proof.
  split; [discriminate|]. split; [|reflexivity].
  apply (cyclic_fill quiet_env [JStr "x"; JStr "y"] 3); discriminate.
Defined.

Lemma filler_defined (env : Env) (d n : nat) :
  Forall (fun v => v <> JUndefined) (filler env d n).
Proof.
  unfold filler. apply Forall_forall. intros v Hin.
  apply in_map_iff in Hin as (j & <- & _). discriminate.
Qed.

Lemma filler_rows_defined (env : Env) (d n : nat) :
  Forall (fun v => v <> JUndefined) (filler_rows env d n).
Proof.
  unfold filler_rows. apply Forall_forall. intros v Hin.
  apply in_map_iff in Hin as (j & <- & _). discriminate.
Qed.

(** C10. An explicitly empty [texts] is handled as an omitted one by
    every content-cycling generator: what is written holds synthetic
    filler for each requested line (row), and no line is the undefined
    value that indexing with [i % 0] would give. For TXT, DOCX and PDF
    this is the content of the file; for PPTX the content of every such
    slide of the deck that is written, for XLSX the rows under the header
    of every such sheet; and the run on the plan with the empty [texts] is
    the run on the plan without. *)
Theorem empty_texts_as_omitted (env : Env) (n : nat) :
  (forall w, content_lines env n (Some []) w = content_lines env n None w)
  /\ (forall w, content_lines env n (Some []) w
                = (Ok (filler env (draws w) n), mkWorld (trace w) (draws w + n)))
  /\ (forall d, length (filler env d n) = n
                /\ Forall (fun v => v <> JUndefined) (filler env d n))
  /\ (forall d, length (filler_rows env d n) = n
                /\ Forall (fun v => v <> JUndefined) (filler_rows env d n))
  /\ (forall texts, texts = Some [] \/ texts = None ->
      (forall path w,
         generateTXT env (mkLinesOptions path n texts) w
         = io env (EvWriteFile path (ArtTxt (filler env (draws w) n)))
              (mkWorld (trace w) (draws w + n)))
      /\ (forall path w,
            generateDOCX env (mkLinesOptions path n texts) w
            = io env (EvWriteFile path (ArtDocx (filler env (draws w) n)))
                 (mkWorld (trace w) (draws w + n)))
      /\ (forall path title fontSize w,
            generatePDF env (mkPDFOptions path title fontSize n texts) w
            = io env (EvWriteFile path
                        (ArtPdf (default "Fake PDF" title) (default (Fin 20) fontSize)
                                (filler env (draws w) n)))
                 (mkWorld (trace w) (draws w + n)))
      /\ (forall path slides j slideTitle w,
            nth_error slides j = Some (slideTitle, mkSlideOptions n texts) ->
            exists deck d d',
              generatePPTX env (mkPPTXOptions path slides) w
              = io env (EvWriteFile path (ArtPptx deck)) (mkWorld (trace w) d')
              /\ length deck = length slides
              /\ nth_error deck j = Some (slideTitle, filler env d n)
              /\ draws w <= d /\ d + n <= d')
      /\ (forall path sheets j sheetName w,
            nth_error sheets j = Some (sheetName, mkSheetOptions n texts) ->
            exists book d d',
              generateXLSX env (mkXLSXOptions path sheets) w
              = io env (EvWriteFile path (ArtXlsx book)) (mkWorld (trace w) d')
              /\ length book = length sheets
              /\ nth_error book j = Some (sheetName, header_row :: filler_rows env d n)
              /\ draws w <= d /\ d + 2 * n <= d'))
  /\ (forall path before slideTitle after w,
        generatePPTX env
          (mkPPTXOptions path (before ++ (slideTitle, mkSlideOptions n (Some [])) :: after)) w
        = generatePPTX env
            (mkPPTXOptions path (before ++ (slideTitle, mkSlideOptions n None) :: after)) w)
  /\ (forall path before sheetName after w,
        generateXLSX env
          (mkXLSXOptions path (before ++ (sheetName, mkSheetOptions n (Some [])) :: after)) w
        = generateXLSX env
            (mkXLSXOptions path (before ++ (sheetName, mkSheetOptions n None) :: after)) w).
Proof.
  split; [reflexivity|].
  split; [apply content_lines_filler|].
  split.
  { intros d. split; [|apply filler_defined].
    unfold filler. now rewrite length_map, length_seq. }
  split.
  { intros d. split; [|apply filler_rows_defined].
    unfold filler_rows. now rewrite length_map, length_seq. }
  split.
  { intros texts Htexts.
    assert (Hempty : default [] texts = []) by (destruct Htexts as [-> | ->]; reflexivity).
    assert (Hlines : forall w,
              content_lines env n texts w
              = (Ok (filler env (draws w) n), mkWorld (trace w) (draws w + n))).
    { intros w. unfold content_lines. rewrite Hempty. cbn [length Nat.eqb].
      now rewrite fill_fake_unfold. }
    split.
    { intros path w. unfold generateTXT, bind. cbn [lo_lines lo_texts lo_path].
      now rewrite Hlines. }
    split.
    { intros path w. unfold generateDOCX, bind. cbn [lo_lines lo_texts lo_path].
      now rewrite Hlines. }
    split.
    { intros path title fontSize w. unfold generatePDF, bind.
      cbn [pdf_lines pdf_texts pdf_path pdf_title pdf_fontSize].
      now rewrite Hlines. }
    split.
    { intros path slides j slideTitle w Hj.
      pose proof (expected_deck_nth env slides (draws w) j _ _ Hj) as Hnth.
      cbn [slide_texts slide_lines] in Hnth. rewrite Hempty in Hnth.
      destruct Hnth as (d & Hlo & Hhi & Hnth).
      exists (expected_deck env (draws w) slides), d, (deck_draws (draws w) slides).
      split; [apply generatePPTX_expected|].
      split; [apply expected_deck_length|]. auto. }
    intros path sheets j sheetName w Hj.
    pose proof (expected_book_nth env sheets (draws w) j _ _ Hj) as Hnth.
    cbn [sheet_texts sheet_rows] in Hnth. rewrite Hempty in Hnth.
    destruct Hnth as (d & Hlo & Hhi & Hnth).
    exists (expected_book env (draws w) sheets), d, (book_draws (draws w) sheets).
    split; [apply generateXLSX_expected|].
    split; [apply expected_book_length|]. auto. }
  split.
  { intros path before slideTitle after w. rewrite !generatePPTX_expected.
    assert (Hsame : forall d,
              expected_deck env d (before ++ (slideTitle, mkSlideOptions n (Some [])) :: after)
              = expected_deck env d (before ++ (slideTitle, mkSlideOptions n None) :: after)
              /\ deck_draws d (before ++ (slideTitle, mkSlideOptions n (Some [])) :: after)
                 = deck_draws d (before ++ (slideTitle, mkSlideOptions n None) :: after)).
    { induction before as [|[t o] before IH]; intros d; [split; reflexivity|].
      cbn [app expected_deck deck_draws].
      destruct (default [] (slide_texts o)).
      - destruct (IH (d + slide_lines o)) as [-> ->]. auto.
      - destruct (IH d) as [-> ->]. auto. }
    destruct (Hsame (draws w)) as [-> ->]. reflexivity. }
  intros path before sheetName after w. rewrite !generateXLSX_expected.
  assert (Hsame : forall d,
            expected_book env d (before ++ (sheetName, mkSheetOptions n (Some [])) :: after)
            = expected_book env d (before ++ (sheetName, mkSheetOptions n None) :: after)
            /\ book_draws d (before ++ (sheetName, mkSheetOptions n (Some [])) :: after)
               = book_draws d (before ++ (sheetName, mkSheetOptions n None) :: after)).
  { induction before as [|[t o] before IH]; intros d; [split; reflexivity|].
    cbn [app expected_book book_draws].
    destruct (default [] (sheet_texts o)).
    - destruct (IH (d + 2 * sheet_rows o)) as [-> ->]. auto.
    - destruct (IH d) as [-> ->]. auto. }
  destruct (Hsame (draws w)) as [-> ->]. reflexivity.
Qed.

(** ** MP3 generation and its intermediate WAV *)

Lemma prefix_drop (pat s : string) :
  String.prefix pat s = true -> s = (pat ++ drop (String.length pat) s)%string.
Proof.
  revert s. induction pat as [|c pat IH]; intros s H.
  - now destruct s.
  - destruct s as [|c' s]; [discriminate|]. simpl in H.
    destruct (Ascii.ascii_dec c c') as [->|]; [|discriminate].
    simpl. f_equal. now apply IH.
Qed.

Lemma replace_first_eq (pat rep s : string) :
  replace_first pat rep s
  = if String.prefix pat s then (rep ++ drop (String.length pat) s)%string
    else match s with
         | EmptyString => EmptyString
         | String c rest => String c (replace_first pat rep rest)
         end.
Proof. now destruct s. Qed.

Lemma contains_eq (pat s : string) :
  contains pat s
  = (String.prefix pat s
     || match s with
        | EmptyString => false
        | String _ rest => contains pat rest
        end).
Proof. now destruct s. Qed.

Lemma replace_first_absent (pat rep s : string) :
  contains pat s = false -> replace_first pat rep s = s.
Proof.
  induction s as [|c s IH]; rewrite contains_eq, replace_first_eq; intros H;
    apply orb_false_iff in H as [-> H].
  - reflexivity.
  - now rewrite IH.
Qed.

(** When [pat] occurs, it is the leftmost occurrence that is replaced. *)
Lemma replace_first_leftmost (pat rep s : string) :
  contains pat s = true ->
  exists a b,
    s = (a ++ pat ++ b)%string
    /\ replace_first pat rep s = (a ++ rep ++ b)%string
    /\ forall a1 a2, a = (a1 ++ a2)%string -> a2 <> EmptyString ->
                     String.prefix pat (a2 ++ pat ++ b) = false.
Proof.
  assert (Hhead : forall t, String.prefix pat t = true ->
    exists a b,
      t = (a ++ pat ++ b)%string
      /\ (rep ++ drop (String.length pat) t)%string = (a ++ rep ++ b)%string
      /\ forall a1 a2, a = (a1 ++ a2)%string -> a2 <> EmptyString ->
                       String.prefix pat (a2 ++ pat ++ b) = false).
  { intros t Hp. exists EmptyString, (drop (String.length pat) t).
    split; [now apply prefix_drop|]. split; [reflexivity|].
    intros a1 a2 Ha. destruct a1; simpl in Ha; [congruence | discriminate]. }
  induction s as [|c s IH]; rewrite contains_eq, replace_first_eq;
    destruct (String.prefix pat _) eqn:Hp; intros H;
    try (now apply Hhead); try discriminate.
  cbn [orb] in H. destruct (IH H) as (a & b & Hs & Hr & Hfirst).
  exists (String c a), b. cbn [String.append]. rewrite Hr, <- Hs.
  split; [reflexivity|]. split; [reflexivity|].
  intros a1 a2 Ha Hne. destruct a1 as [|c1 a1]; cbn [String.append] in Ha.
  - subst a2. cbn [String.append]. now rewrite <- Hs.
  - injection Ha as _ Ha. now apply Hfirst with a1.
Qed.

(** What [generateWAV] can do to the world: write its file, or throw and
    leave everything as it was. *)
Lemma new_Int16Array_silent (env : Env) (n : JsNum) (w : World) :
  new_Int16Array env n w = (Ok tt, w)
  \/ exists msg, new_Int16Array env n w = (Throw (JsRangeError msg), w).
Proof.
  unfold new_Int16Array. destruct (ToIndex n) as [len|]; [|eauto].
  destruct (alloc_error env (trace w) len); eauto.
Qed.

Lemma bind_lift {A B} (r : Res A) (k : A -> M B) (w : World) :
  bind (lift r) k w = match r with Ok a => k a w | Throw e => (Throw e, w) end.
Proof. unfold bind, lift. now destruct r. Qed.

Lemma bind_ok_inv {A B} (m : M A) (k : A -> M B) (w : World) (b : B) (w' : World) :
  bind m k w = (Ok b, w') ->
  exists a w1, m w = (Ok a, w1) /\ k a w1 = (Ok b, w').
Proof.
  unfold bind. destruct (m w) as [[a|e] w1]; [|discriminate].
  intros H. now exists a, w1.
Qed.

Lemma io_ok_inv (env : Env) (ev : Event) (w : World) (a : unit) (w' : World) :
  io env ev w = (Ok a, w') -> w' = record ev w.
Proof.
  unfold io. destruct (io_error env (trace w) ev); [discriminate|].
  intros H. now injection H.
Qed.

Lemma generateWAV_outcome (env : Env) (path : string) (lengthSeconds : JsNum)
    (opts : JsVal) (w : World) (r : Res unit) (w' : World) :
  generateWAV env path lengthSeconds opts w = (r, w') ->
  let wav := EvWriteFile path
               (ArtWav lengthSeconds (if is_undefined opts then JObj [] else opts)) in
  (r = Ok tt /\ w' = record wav w)
  \/ (w' = w
      /\ ((exists msg, r = Throw (JsTypeError msg))
          \/ (r = Throw (JsError "lengthSeconds must be a positive number.")
              /\ (negb (isFinite lengthSeconds) || num_le lengthSeconds zero) = true)
          \/ (exists msg, r = Throw (JsRangeError msg))
          \/ (exists reason, r = Throw (JsError reason)
                             /\ io_error env (trace w) wav = Some reason))).
Proof.
  intros H wav. subst wav. unfold generateWAV in H. cbv zeta in H.
  set (o := if is_undefined opts then JObj [] else opts) in *.
  assert (Hprop : forall v k e, prop v k = Throw e -> exists msg, e = JsTypeError msg).
  { intros v k e. destruct v; cbn; intros Hp; try discriminate;
      injection Hp as <-; eauto. }
  assert (Hnum : forall v e, ToNumber env v = Throw e -> exists msg, e = JsTypeError msg).
  { intros v e. unfold ToNumber. destruct (converts v); intros Hn; [discriminate|].
    injection Hn as <-. eauto. }
  rewrite bind_lift in H.
  destruct (prop o "sampleRate") as [sr|e] eqn:Hsr.
  2:{ injection H as <- <-. destruct (Hprop _ _ _ Hsr) as (msg & ->). eauto 8. }
  rewrite bind_lift in H.
  destruct (ToString _) as [[]|e] eqn:Hbits.
  2:{ injection H as <- <-. unfold ToString in Hbits.
      destruct (converts _); [discriminate|]. injection Hbits as <-. eauto 8. }
  rewrite bind_lift in H.
  destruct (ToNumber env (nullish (field o "amplitude") _)) as [amp|e] eqn:Hamp.
  2:{ injection H as <- <-. destruct (Hnum _ _ Hamp) as (msg & ->). eauto 8. }
  destruct (negb (isFinite lengthSeconds) || num_le lengthSeconds zero) eqn:Hguard;
    [injection H as <- <-; auto 8|].
  rewrite bind_lift in H.
  destruct (ToNumber env (nullish sr _)) as [rate|e] eqn:Hrate.
  2:{ injection H as <- <-. destruct (Hnum _ _ Hrate) as (msg & ->). eauto 8. }
  unfold bind at 1 in H.
  destruct (new_Int16Array_silent env (Math_floor (num_mul rate lengthSeconds)) w)
    as [Hbuf | (msg & Hbuf)]; rewrite Hbuf in H; [|injection H as <- <-; eauto 8].
  unfold bind at 1 in H.
  assert (Hwrite : forall r0 w0,
            io env (EvWriteFile path (ArtWav lengthSeconds o)) w = (r0, w0) ->
            (r0 = Ok tt /\ w0 = record (EvWriteFile path (ArtWav lengthSeconds o)) w)
            \/ (w0 = w /\ exists reason, r0 = Throw (JsError reason)
                  /\ io_error env (trace w) (EvWriteFile path (ArtWav lengthSeconds o))
                     = Some reason)).
  { intros r0 w0. unfold io.
    destruct (io_error env (trace w) _) as [reason|]; intros Hio;
      injection Hio as <- <-; eauto 8. }
  destruct (is_white (field o "noise")).
  - unfold ret at 1 in H. apply Hwrite in H as [H | [-> H]]; auto 8.
  - rewrite bind_lift in H.
    destruct (ToNumber env (nullish (field o "toneHz") _)) as [freq|e] eqn:Hfreq.
    2:{ injection H as <- <-. destruct (Hnum _ _ Hfreq) as (msg & ->). eauto 8. }
    unfold ret at 1 in H. apply Hwrite in H as [H | [-> H]]; auto 8.
Qed.

Lemma generateWAV_ok (env : Env) (path : string) (lengthSeconds : JsNum)
    (opts : JsVal) (w : World) (u : unit) (w' : World) :
  generateWAV env path lengthSeconds opts w = (Ok u, w') ->
  w' = record (EvWriteFile path
                 (ArtWav lengthSeconds (if is_undefined opts then JObj [] else opts))) w.
Proof.
  intros H. apply generateWAV_outcome in H
    as [[_ ->] | [_ [(m & H) | [[H _] | [(m & H) | (m & H & _)]]]]];
    [reflexivity | discriminate ..].
Qed.

Lemma generateWAV_throw (env : Env) (path : string) (lengthSeconds : JsNum)
    (opts : JsVal) (w : World) (e : Exn) (w' : World) :
  generateWAV env path lengthSeconds opts w = (Throw e, w') -> w' = w.
Proof.
  intros H. apply generateWAV_outcome in H as [[He _] | [-> _]];
    [discriminate | reflexivity].
Qed.

Lemma generateMP3_ok_trace (env : Env) (path : string) (l : JsNum) (opts : JsVal)
    (w : World) (u : unit) (w' : World) :
  generateMP3 env path l opts w = (Ok u, w') ->
  exists a o,
    w' = mkWorld (trace w ++
                  [EvWriteFile (replace_first ".mp3" ".wav" path) (ArtWav a o);
                   EvWriteFile path (ArtMp3 (replace_first ".mp3" ".wav" path))])
                 (draws w).
Proof.
  unfold generateMP3. intros H.
  apply bind_ok_inv in H as (u1 & w1 & Hwav & Hmp3).
  apply generateWAV_ok in Hwav as ->. apply io_ok_inv in Hmp3 as ->.
  eexists _, _. unfold record. cbn [trace draws]. now rewrite <- app_assoc.
Qed.

Lemma generateMP3_throw_trace (env : Env) (path : string) (l : JsNum) (opts : JsVal)
    (w : World) (e : Exn) (w' : World) :
  generateMP3 env path l opts w = (Throw e, w') ->
  w' = w
  \/ exists a o,
       w' = mkWorld (trace w ++
                     [EvWriteFile (replace_first ".mp3" ".wav" path) (ArtWav a o)])
                    (draws w).
Proof.
  unfold generateMP3, bind. intros H.
  destruct (generateWAV env _ l opts w) as [[u|e1] w1] eqn:Hwav.
  - apply generateWAV_ok in Hwav as ->. unfold io in H.
    destruct (io_error env _ _); [|discriminate].
    injection H as _ <-. right. eexists _, _. reflexivity.
  - apply generateWAV_throw in Hwav as ->. injection H as _ <-. now left.
Qed.

(** C9. A successful [generateMP3] on path P first writes a WAV file at P
    with the leftmost ".mp3" replaced by ".wav" (at P itself when P holds
    no ".mp3"), then writes the MP3 at P from it; these two writes are all
    it does, so the WAV file stays. *)
Theorem generateMP3_leaves_wav (env : Env) (path : string) (lengthSeconds : JsNum)
    (opts : JsVal) (w w' : World) :
  generateMP3 env path lengthSeconds opts w = (Ok tt, w') ->
  let wavPath := replace_first ".mp3" ".wav" path in
  trace w' = trace w ++
    [EvWriteFile wavPath
       (ArtWav lengthSeconds (if is_undefined opts then JObj [] else opts));
     EvWriteFile path (ArtMp3 wavPath)]
  /\ (forall p, ~ In (EvUnlink p) (skipn (length (trace w)) (trace w')))
  /\ (contains ".mp3" path = false -> wavPath = path)
  /\ (contains ".mp3" path = true ->
      exists a b, path = (a ++ ".mp3" ++ b)%string
                  /\ wavPath = (a ++ ".wav" ++ b)%string
                  /\ forall a1 a2, a = (a1 ++ a2)%string -> a2 <> EmptyString ->
                       String.prefix ".mp3" (a2 ++ ".mp3" ++ b) = false).
Proof.
  intros Hrun wavPath. subst wavPath.
  set (wavPath := replace_first ".mp3" ".wav" path) in *.
  assert (Htrace : trace w' = trace w ++
    [EvWriteFile wavPath
       (ArtWav lengthSeconds (if is_undefined opts then JObj [] else opts));
     EvWriteFile path (ArtMp3 wavPath)]).
  { unfold generateMP3, bind in Hrun. fold wavPath in Hrun.
    destruct (generateWAV env wavPath lengthSeconds opts w) as [[u|e] w1] eqn:Hwav;
      [|discriminate].
    apply generateWAV_ok in Hwav as ->.
    unfold io in Hrun.
    destruct (io_error env _ _); [discriminate|].
    injection Hrun as <-. cbn [record trace]. now rewrite <- app_assoc. }
  split; [exact Htrace|]. split.
  { intros p Hin. rewrite Htrace, skipn_app, Nat.sub_diag, skipn_all in Hin.
    simpl in Hin. destruct Hin as [H|[H|[]]]; discriminate. }
  split.
  - apply replace_first_absent.
  - apply replace_first_leftmost.
Qed.

Lemma generateMP3_leaves_wav_witness :
  generateMP3 quiet_env "out/a.mp3" (Fin 2) JUndefined start
  = (Ok tt, mkWorld [EvWriteFile "out/a.wav" (ArtWav (Fin 2) (JObj []));
                     EvWriteFile "out/a.mp3" (ArtMp3 "out/a.wav")] 0)
  /\ trace (mkWorld [EvWriteFile "out/a.wav" (ArtWav (Fin 2) (JObj []));
                     EvWriteFile "out/a.mp3" (ArtMp3 "out/a.wav")] 0)
     = trace start ++
       [EvWriteFile "out/a.wav" (ArtWav (Fin 2) (JObj []));
        EvWriteFile "out/a.mp3" (ArtMp3 "out/a.wav")].
Proof.
  split; [reflexivity|].
  apply (generateMP3_leaves_wav quiet_env "out/a.mp3" (Fin 2) JUndefined start _ eq_refl).
Defined.

(** A path without ".mp3": the WAV and the MP3 share the path (whether the
    transcoder accepts its input as its output is the environment's
    matter; here nothing fails). *)
Example generateMP3_same_path :
  generateMP3 quiet_env "out/audio" (Fin 2) JUndefined start
  = (Ok tt, mkWorld [EvWriteFile "out/audio" (ArtWav (Fin 2) (JObj []));
                     EvWriteFile "out/audio" (ArtMp3 "out/audio")] 0).
Proof. reflexivity. Qed.

(** Served over HTTP, the MP3 is removed after the download and the WAV
    next to it is not. *)
Example post_audio_mp3_leaves_wav :
  post_audio_mp3 quiet_env (JObj [("lengthSeconds", num 2)]) "/tmp/ff/1234.mp3" start
  = (Ok tt, mkWorld [EvWriteFile "/tmp/ff/1234.wav" (ArtWav (Fin 2) (JObj []));
                     EvWriteFile "/tmp/ff/1234.mp3" (ArtMp3 "/tmp/ff/1234.wav");
                     EvSend "/tmp/ff/1234.mp3";
                     EvUnlink "/tmp/ff/1234.mp3"] 0).
Proof. reflexivity. Qed.

(** ** CSV: key-set homogeneity and precedence of explicit data *)

Lemma includes_In (xs : list string) (s : string) :
  includes xs s = true <-> In s xs.
Proof.
  unfold includes. rewrite existsb_exists. split.
  - intros (x & Hin & Heq). apply String.eqb_eq in Heq. now subst.
  - intros Hin. exists s. split; [assumption | apply String.eqb_refl].
Qed.

(** The test of [generateCSV] compares the key count and checks that each
    key of the record is a key of the first record. *)
Lemma same_keys_spec (keys : list string) (record : JsVal) :
  same_keys keys record = true <->
  length (Object_keys record) = length keys /\ incl (Object_keys record) keys.
Proof.
  unfold same_keys. rewrite negb_true_iff, orb_false_iff, !negb_false_iff.
  rewrite Nat.eqb_eq, forallb_forall. unfold incl.
  split; intros [Hlen Hin]; split; auto; intros k Hk.
  - now apply includes_In, Hin.
  - now apply includes_In, Hin.
Qed.

(** For objects, whose keys are distinct, the test decides equality of the
    key sets. *)
Lemma same_keys_set (first record : JsVal) :
  NoDup (Object_keys first) -> NoDup (Object_keys record) ->
  same_keys (Object_keys first) record = true <-> same_key_set record first.
Proof.
  intros Hfirst Hrecord. rewrite same_keys_spec. unfold same_key_set. split.
  - intros [Hlen Hincl] k. split; [apply Hincl|].
    apply (NoDup_length_incl Hrecord); [lia | assumption].
  - intros Hset. split.
    + apply Nat.le_antisymm; apply NoDup_incl_length; auto;
        intros k Hk; now apply Hset.
    + intros k Hk. now apply Hset.
Qed.

Lemma check_records_forallb (keys : list string) (data : list JsVal) :
  check_records keys data
  = if forallb (same_keys keys) data then Ok tt
    else Throw (JsError "All records must have the same keys and key count").
Proof.
  induction data as [|record rest IH]; [reflexivity|]. simpl.
  destruct (same_keys keys record); [exact IH | reflexivity].
Qed.

Lemma homogeneous_forallb (first : JsVal) (data : list JsVal) :
  NoDup (Object_keys first) ->
  Forall (fun r => NoDup (Object_keys r)) data ->
  forallb (same_keys (Object_keys first)) data = true
  <-> Forall (fun r => same_key_set r first) data.
Proof.
  intros Hfirst Hdata. rewrite forallb_forall, Forall_forall.
  rewrite Forall_forall in Hdata.
  split; intros H r Hr; apply (same_keys_set first r); auto.
Qed.

(** C6. Given explicit records (objects, so each with distinct keys),
    [generateCSV] writes them when every record has the key set of the
    first one, in any order, and fails without writing when some record's
    key set differs; the test it applies per record compares the number
    of keys and the membership of each key. *)
Theorem csv_key_homogeneity (env : Env) (path : string) (rows : option nat)
    (first : JsVal) (rest : list JsVal) (w : World) :
  Forall (fun r => NoDup (Object_keys r)) (first :: rest) ->
  let data := first :: rest in
  (Forall (fun r => same_key_set r first) data ->
     generateCSV env (mkCSVOptions path rows (Some data)) w
     = io env (EvWriteFile path (ArtCsv (Object_keys first) data)) w)
  /\ (~ Forall (fun r => same_key_set r first) data ->
     generateCSV env (mkCSVOptions path rows (Some data)) w
     = (Throw (JsError "All records must have the same keys and key count"), w))
  /\ (forall r, same_keys (Object_keys first) r = true <->
        length (Object_keys r) = length (Object_keys first)
        /\ incl (Object_keys r) (Object_keys first)).
Proof.
  intros Hnodup data.
  assert (Hfirst : NoDup (Object_keys first)) by now inversion Hnodup.
  pose proof (homogeneous_forallb first data Hfirst Hnodup) as Hiff.
  assert (Hgen : generateCSV env (mkCSVOptions path rows (Some data)) w
    = if forallb (same_keys (Object_keys first)) data
      then io env (EvWriteFile path (ArtCsv (Object_keys first) data)) w
      else (Throw (JsError "All records must have the same keys and key count"), w)).
  { unfold generateCSV, data. cbn [csv_data csv_path]. unfold bind, lift.
    rewrite check_records_forallb.
    destruct (forallb _ _); reflexivity. }
  split; [|split].
  - intros Hall. apply Hiff in Hall. now rewrite Hgen, Hall.
  - intros Hnot. rewrite Hgen.
    destruct (forallb _ _) eqn:Hb; [|reflexivity].
    exfalso. apply Hnot. now apply Hiff.
  - intros r. apply same_keys_spec.
Qed.

Lemma csv_key_homogeneity_witness :
  Forall (fun r => NoDup (Object_keys r)) [ann; bob]
  /\ Forall (fun r => same_key_set r ann) [ann; bob]
  /\ generateCSV quiet_env (mkCSVOptions "out/c.csv" None (Some [ann; bob])) start
     = io quiet_env (EvWriteFile "out/c.csv" (ArtCsv ["name"; "email"] [ann; bob])) start.
Proof.
  assert (Hnodup : Forall (fun r => NoDup (Object_keys r)) [ann; bob]).
  { repeat constructor; simpl; intros H;
      repeat (destruct H as [H|H]; [discriminate|]); exact H. }
  assert (Hsame : Forall (fun r => same_key_set r ann) [ann; bob]).
  { constructor; [|constructor; [|constructor]];
      intros k; unfold ann, bob; simpl; tauto. }
  split; [exact Hnodup|]. split; [exact Hsame|].
  exact (proj1 (csv_key_homogeneity quiet_env "out/c.csv" None ann [bob] start Hnodup) Hsame).
Defined.

(** Mismatched key sets, as in {name, email} against {name}. *)
Example csv_mismatch :
  generateCSV quiet_env
    (mkCSVOptions "out/c.csv" None
       (Some [JObj [("name", JStr "Ann"); ("email", JStr "ann@example.com")];
              JObj [("name", JStr "Bob")]])) start
  = (Throw (JsError "All records must have the same keys and key count"), start).
Proof. reflexivity. Qed.

Lemma generateCSV_ignores_rows (env : Env) (path : string) (rows : option nat)
    (first : JsVal) (rest : list JsVal) (w : World) :
  generateCSV env (mkCSVOptions path rows (Some (first :: rest))) w
  = generateCSV env (mkCSVOptions path None (Some (first :: rest))) w.
Proof. reflexivity. Qed.

(** C5. A csv item that supplies a rows count together with a non-empty
    array of records normalizes without failure; the notice that rows is
    ignored is printed; what follows is what the same request without rows
    does, and when the records pass the key check and nothing external
    fails the file holds exactly the supplied records. *)
Theorem csv_data_wins (env : Env) (idx : nat) (item : JsVal) (path : string)
    (rowsv : JsVal) (n : JsNum) (first : JsVal) (rest : list JsVal) (w : World) :
  prop item "path" = Ok (JStr path) -> blank path = false ->
  prop item "rows" = Ok rowsv ->
  expectPositiveInt rowsv (loc "csv" idx ".rows") = Ok n ->
  prop item "data" = Ok (JArr (first :: rest)) ->
  forallb is_record (first :: rest) = true ->
  let data := first :: rest in
  let notice := EvOut ("[file-fabric] " ++ loc "csv" idx ": 'data' provided, 'rows' will be ignored.") in
  normalizeCSV idx item = Ok (mkCSVOptions path (Some (count n)) (Some data))
  /\ tryCSV env idx item w
     = (log notice ;;
        ensureDirFor env path ;;
        generateCSV env (mkCSVOptions path None (Some data)) ;;
        info ("Generated CSV → " ++ path)) w
  /\ (reliable env -> check_records (Object_keys first) data = Ok tt ->
      tryCSV env idx item w
      = (Ok tt,
         mkWorld (trace w ++
                  [notice;
                   EvMkdir (dirname env path);
                   EvWriteFile path (ArtCsv (Object_keys first) data);
                   EvOut ("[file-fabric] Generated CSV → " ++ path)])
                 (draws w))).
Proof.
  intros Hpath Hblank Hrows Hn Hdata Hrec data notice.
  assert (Hnorm : normalizeCSV idx item
                  = Ok (mkCSVOptions path (Some (count n)) (Some data))).
  { unfold normalizeCSV. rewrite Hpath. cbn [rbind].
    unfold expectString. rewrite Hblank. cbn [rbind].
    rewrite Hrows. cbn [rbind]. unfold optional.
    pose proof Hn as Hq. apply expectPositiveInt_ok in Hq as (q & -> & _).
    cbn [is_undefined]. rewrite Hn. cbn [rbind].
    rewrite Hdata. cbn [rbind is_undefined Array_isArray andb].
    unfold every. cbn [elems_of]. rewrite Hrec. reflexivity. }
  assert (Htry : tryCSV env idx item w
     = (log notice ;;
        ensureDirFor env path ;;
        generateCSV env (mkCSVOptions path None (Some data)) ;;
        info ("Generated CSV → " ++ path)) w).
  { unfold tryCSV. unfold bind at 1. unfold lift. rewrite Hnorm. reflexivity. }
  split; [exact Hnorm|]. split; [exact Htry|].
  intros Hrel Hkeys. rewrite Htry.
  unfold generateCSV, ensureDirFor, info. cbn [csv_data csv_path].
  unfold data in *. rewrite Hkeys.
  unfold bind, lift, log, io, ret. rewrite !Hrel.
  unfold record. cbn [trace draws]. now rewrite <- !app_assoc.
Qed.

Lemma csv_data_wins_witness :
  normalizeCSV 0 scenario4_item
  = Ok (mkCSVOptions "out/c.csv" (Some 5) (Some [JObj [("a", num 1)]]))
  /\ reliable quiet_env
  /\ tryCSV quiet_env 0 scenario4_item start
     = (Ok tt,
        mkWorld [EvOut "[file-fabric] csv[0]: 'data' provided, 'rows' will be ignored.";
                 EvMkdir "out";
                 EvWriteFile "out/c.csv" (ArtCsv ["a"] [JObj [("a", num 1)]]);
                 EvOut "[file-fabric] Generated CSV → out/c.csv"] 0).
Proof.
  pose proof (csv_data_wins quiet_env 0 scenario4_item "out/c.csv" (num 5)
                (Fin (inject_Z 5)) (JObj [("a", num 1)]) [] start
                eq_refl eq_refl eq_refl eq_refl eq_refl eq_refl) as H.
  assert (Hrel : reliable quiet_env) by (intros t ev; reflexivity).
  split; [exact (proj1 H)|]. split; [exact Hrel|].
  exact (proj2 (proj2 H) Hrel eq_refl).
Defined.

(** ** A bare request object and the one-element list holding it *)

(** C8. For every kind of file and every request object, a plan whose
    fragment of that kind is the bare object runs exactly as the plan
    whose fragment is the one-element list holding it: the same work
    items, the same outcome, the same console lines, directories and
    generator calls. *)
Theorem single_object_as_list (env : Env) (k : Kind) (props : list (string * JsVal))
    (siblings others : list (string * JsVal)) (w : World) :
  items_of (JObj props) = items_of (JArr [JObj props])
  /\ plan_items (plan_with k (JObj props) siblings others)
     = plan_items (plan_with k (JArr [JObj props]) siblings others)
  /\ runFromConfig env (plan_with k (JObj props) siblings others) w
     = runFromConfig env (plan_with k (JArr [JObj props]) siblings others) w.
Proof.
  split; [reflexivity|]. split; destruct k; reflexivity.
Qed.

(** ** Validation, failure and the end of the run *)

Lemma hint_lines_run (hints : list string) (w : World) :
  hint_lines hints w
  = (Ok tt,
     mkWorld (trace w ++ map EvErr (map (fun h => "[file-fabric] ERROR: " ++ h)%string hints))
             (draws w)).
Proof.
  revert w. induction hints as [|h hints IH]; intros w.
  - simpl. unfold ret. rewrite app_nil_r. now destruct w.
  - cbn [hint_lines]. unfold bind at 1. unfold error, bind, log, ret.
    rewrite IH. unfold record. cbn [trace draws map].
    now rewrite <- app_assoc.
Qed.

Lemma on_failure_run (failure : string) (hints : list string) (idx : nat)
    (e : Exn) (w : World) :
  on_failure failure hints idx e w
  = (Throw e,
     mkWorld (trace w ++ map EvErr (failure_lines failure hints idx e)) (draws w)).
Proof.
  unfold on_failure. unfold bind at 1. unfold error, bind, log.
  unfold bind. rewrite hint_lines_run. unfold throw, record, failure_lines.
  cbn [trace draws map]. now rewrite <- !app_assoc.
Qed.

Lemma only_stderr_lines (lines : list string) : only_stderr (map EvErr lines).
Proof.
  unfold only_stderr. apply Forall_forall. intros ev Hin.
  apply in_map_iff in Hin as (line & <- & _). now exists line.
Qed.

Lemma added_app (w : World) (events : list Event) (d : nat) :
  added w (mkWorld (trace w ++ events) d) = events.
Proof.
  unfold added. cbn [trace]. now rewrite skipn_app, Nat.sub_diag, skipn_all.
Qed.

Lemma on_failure_only_stderr (failure : string) (hints : list string) (idx : nat)
    (e : Exn) (w : World) :
  only_stderr (added w (snd (on_failure failure hints idx e w))).
Proof.
  rewrite on_failure_run. cbn [snd]. rewrite added_app. apply only_stderr_lines.
Qed.

(** An item the handler's validation refuses goes straight to the
    [catch] block. *)
Lemma attempt_refused (env : Env) (k : Kind) (idx : nat) (item : JsVal)
    (e : Exn) (w : World) :
  validation k idx item = Throw e ->
  attempt env k idx item w = on_failure (failure_of k) (hints_of k) idx e w.
Proof.
  intros H. unfold attempt, try_catch.
  destruct k; cbn [validation try_block] in *; unfold checked in H;
    match goal with
    | |- context [?t env idx item w] => unfold t
    end;
    unfold bind at 1; unfold lift;
    match type of H with
    | rbind ?r _ = _ => destruct r; cbn [rbind] in H;
                        [discriminate | injection H as ->; reflexivity]
    end.
Qed.

(** *** What validation guarantees of a request *)

(** Destructuring a successful chain of checks. *)
Ltac invert_checks H :=
  repeat match type of H with
    | rbind ?r _ = Ok _ =>
        let E := fresh "E" in
        destruct r eqn:E; cbn [rbind] in H; [|discriminate H]
    | (if ?c then _ else _) = Ok _ =>
        let E := fresh "E" in
        destruct c eqn:E; try discriminate H
    | match ?v with JStr _ => _ | _ => _ end = Ok _ =>
        destruct v; try discriminate H
    end.

Lemma optional_inv {A} (v : JsVal) (check : JsVal -> Res A) (o : option A) :
  optional v check = Ok o ->
  o = None \/ exists a, o = Some a /\ check v = Ok a.
Proof.
  unfold optional. destruct (is_undefined v).
  - intros H. injection H as <-. now left.
  - destruct (check v) as [a|e]; cbn [rbind]; intros H; [|discriminate].
    injection H as <-. right. now exists a.
Qed.


Lemma positive_guard (v : JsVal) (where_ : string) (d : Q) (o : option JsNum) :
  (0 < d)%Q ->
  optional v (fun x => expectPositiveNumber x where_) = Ok o ->
  (negb (isFinite (default (Fin d) o)) || num_le (default (Fin d) o) zero) = false.
Proof.
  intros Hd H.
  assert (Hpos : exists q, default (Fin d) o = Fin q /\ (0 < q)%Q).
  { apply optional_inv in H as [-> | (n & -> & Hn)].
    - now exists d.
    - apply expectPositiveNumber_ok in Hn as (q & _ & -> & Hq). now exists q. }
  destruct Hpos as (q & -> & Hq). cbn [isFinite negb orb num_le zero].
  destruct (Qle_bool q 0) eqn:Hle; [|reflexivity].
  apply Qle_bool_iff in Hle. exfalso. exact (Qlt_not_le _ _ Hq Hle).
Qed.

Lemma resolution_guard (v : JsVal) (where_ : string) (o : option string) :
  optional v (fun x => expectResolution x where_) = Ok o ->
  resolution_re (default "1280x720" o) = true.
Proof.
  intros H. apply optional_inv in H as [-> | (res & -> & Hres)]; [reflexivity|].
  unfold expectResolution in Hres. invert_checks Hres.
  injection Hres as <-. now apply negb_false_iff.
Qed.

Lemma crf_guard (v : JsVal) (where_ : string) (o : option JsNum) :
  optional v (fun x => expectCrf x where_) = Ok o ->
  (negb (isFinite (default (Fin 23) o)) || num_lt (default (Fin 23) o) zero
   || num_gt (default (Fin 23) o) (Fin 51)) = false.
Proof.
  intros H. apply generateMP4_crf_guard.
  apply optional_inv in H as [-> | (n & -> & Hn)].
  - exists 23%Q. repeat split; discriminate.
  - apply expectCrf_ok in Hn as (q & _ & -> & Hq & H51).
    exists q. repeat split; [now apply Qlt_le_weak | assumption].
Qed.

(** The guards at the head of [generateMP4] never fire on what the video
    handler lets through. *)
Lemma normalizeVideo_guards (idx : nat) (item : JsVal) (req : string * VideoOptions) :
  normalizeVideo idx item = Ok req -> check_video (resolve_video (snd req)) = Ok tt.
Proof.
  unfold normalizeVideo. intros H. invert_checks H. injection H as <-.
  unfold check_video, resolve_video.
  cbn [snd vo_duration vo_resolution vo_fps vo_crf vs_duration vs_resolution
       vs_fps vs_crf].
  repeat match goal with
    | Hopt : optional _ (fun x => expectPositiveNumber x _) = Ok ?o |- _ =>
        first [ rewrite (positive_guard _ _ 1 _ eq_refl Hopt)
              | rewrite (positive_guard _ _ 30 _ eq_refl Hopt) ]; clear Hopt
    | Hopt : optional _ (fun x => expectResolution x _) = Ok _ |- _ =>
        rewrite (resolution_guard _ _ _ Hopt); clear Hopt
    | Hopt : optional _ (fun x => expectCrf x _) = Ok _ |- _ =>
        rewrite (crf_guard _ _ _ Hopt); clear Hopt
    end.
  reflexivity.
Qed.

Lemma count_positive (v : JsVal) (where_ : string) (n : JsNum) :
  expectPositiveInt v where_ = Ok n -> 0 < count n.
Proof.
  intros H. apply expectPositiveInt_ok in H as (q & _ & -> & Hq & _).
  unfold count.
  assert (Hc : (0 < Qceiling q)%Z).
  { rewrite Zlt_Qlt. eapply Qlt_le_trans; [exact Hq | apply Qle_ceiling]. }
  lia.
Qed.

Lemma fake_records_run (env : Env) (n : nat) (records : list JsVal) (w : World) :
  exists made w',
    fake_records env n records w = (Ok (records ++ made), w') /\ length made = n.
Proof.
  revert records w. induction n as [|n IH]; intros records w.
  - exists [], w. cbn. now rewrite app_nil_r.
  - cbn [fake_records]. unfold bind at 1. unfold faker_fullName, draw at 1.
    unfold bind at 1. unfold faker_email, draw at 1.
    match goal with
    | |- context [fake_records env n ?r ?w1] => destruct (IH r w1) as (made & w' & Hrun & Hlen)
    end.
    rewrite Hrun, <- app_assoc. cbn [app]. eexists (_ :: made), w'.
    split; [reflexivity|]. cbn. now rewrite Hlen.
Qed.

Lemma bind_run {A B} (m : M A) (k : A -> M B) (w : World) (a : A) (w1 : World) :
  m w = (Ok a, w1) -> bind m k w = k a w1.
Proof. intros H. unfold bind. now rewrite H. Qed.

Lemma bind_fail {A B} (m : M A) (k : A -> M B) (w : World) (e : Exn) (w1 : World) :
  m w = (Throw e, w1) -> bind m k w = (Throw e, w1).
Proof. intros H. unfold bind. now rewrite H. Qed.

(** *** The run as a pass over the work items *)

Lemma eqm_refl {A} (m : M A) : eqm m m.
Proof. intros w. reflexivity. Qed.

Lemma eqm_trans {A} (m1 m2 m3 : M A) : eqm m1 m2 -> eqm m2 m3 -> eqm m1 m3.
Proof. intros H12 H23 w. now rewrite H12. Qed.

Lemma bind_cong {A B} (m m' : M A) (k k' : A -> M B) :
  eqm m m' -> (forall a, eqm (k a) (k' a)) -> eqm (bind m k) (bind m' k').
Proof.
  intros Hm Hk w. unfold bind. rewrite Hm.
  destruct (m' w) as [[a|e] w']; [apply Hk | reflexivity].
Qed.

Lemma bind_assoc {A B C} (m : M A) (k : A -> M B) (h : B -> M C) :
  eqm (bind (bind m k) h) (bind m (fun a => bind (k a) h)).
Proof.
  intros w. unfold bind. destruct (m w) as [[a|e] w']; reflexivity.
Qed.

Lemma ret_bind {A B} (a : A) (k : A -> M B) : eqm (bind (ret a) k) (k a).
Proof. intros w. reflexivity. Qed.

Lemma run_items_app (env : Env) (work1 work2 : list (Kind * nat * JsVal)) :
  eqm (run_items env (work1 ++ work2)) (run_items env work1 ;; run_items env work2).
Proof.
  induction work1 as [|[[k idx] item] work1 IH].
  - intros w. reflexivity.
  - cbn [app run_items].
    eapply eqm_trans; [|intros w; symmetry; apply bind_assoc].
    apply bind_cong; [apply eqm_refl | intros _; exact IH].
Qed.

Lemma for_entries_enumerate (env : Env) (k : Kind) (items : list JsVal) (idx : nat) :
  eqm (for_entries idx items
         (fun i item => try_catch (try_block env k i item)
                          (on_failure (failure_of k) (hints_of k) i)))
      (run_items env (enumerate k idx items)).
Proof.
  revert idx. induction items as [|item items IH]; intros idx.
  - apply eqm_refl.
  - cbn [for_entries enumerate run_items].
    apply bind_cong; [apply eqm_refl | intros _; apply IH].
Qed.

(** A guarded handler loop is the pass over the items of its fragment. *)
Lemma when_each_item (env : Env) (k : Kind) (frag : JsVal) :
  eqm (when (truthy frag)
         (each_item (items_of frag) (failure_of k) (hints_of k) (try_block env k)))
      (run_items env (if truthy frag then enumerate k 0 (items_of frag) else [])).
Proof.
  destruct (truthy frag); cbn [when].
  - apply for_entries_enumerate.
  - apply eqm_refl.
Qed.

Lemma top_section (env : Env) (cfg : JsVal) (k : Kind) :
  sub_key k = None ->
  eqm (when (truthy (field cfg (section_key k)))
         (each_item (items_of (field cfg (section_key k)))
            (failure_of k) (hints_of k) (try_block env k)))
      (run_items env (section_items cfg k)).
Proof.
  intros Hsub. unfold section_items, fragment. rewrite Hsub.
  apply when_each_item.
Qed.

Lemma sub_section (env : Env) (cfg : JsVal) (k : Kind) (sub : string) :
  sub_key k = Some sub -> truthy (field cfg (section_key k)) = true ->
  eqm (when (truthy (field (field cfg (section_key k)) sub))
         (each_item (items_of (field (field cfg (section_key k)) sub))
            (failure_of k) (hints_of k) (try_block env k)))
      (run_items env (section_items cfg k)).
Proof.
  intros Hsub Htruthy. unfold section_items, fragment. rewrite Hsub, Htruthy.
  apply when_each_item.
Qed.

Lemma skipped_section (env : Env) (cfg : JsVal) (k : Kind) (sub : string) :
  sub_key k = Some sub -> truthy (field cfg (section_key k)) = false ->
  section_items cfg k = [].
Proof.
  intros Hsub Hfalsy. unfold section_items, fragment. now rewrite Hsub, Hfalsy.
Qed.

Lemma handleImages_items (env : Env) (cfg : JsVal) (rest : M unit) :
  eqm (when (truthy (field cfg "images")) (handleImages env (field cfg "images")) ;; rest)
      (run_items env (section_items cfg KJpg) ;;
       run_items env (section_items cfg KPng) ;;
       run_items env (section_items cfg KCustom) ;; rest).
Proof.
  destruct (truthy (field cfg "images")) eqn:Htruthy; cbn [when].
  - unfold handleImages.
    eapply eqm_trans; [apply bind_assoc|].
    apply bind_cong; [exact (sub_section env cfg KJpg "jpg" eq_refl Htruthy)|intros _].
    eapply eqm_trans; [apply bind_assoc|].
    apply bind_cong; [exact (sub_section env cfg KPng "png" eq_refl Htruthy)|intros _].
    apply bind_cong; [exact (sub_section env cfg KCustom "custom" eq_refl Htruthy)|intros _].
    apply eqm_refl.
  - rewrite (skipped_section env cfg KJpg "jpg" eq_refl Htruthy).
    rewrite (skipped_section env cfg KPng "png" eq_refl Htruthy).
    rewrite (skipped_section env cfg KCustom "custom" eq_refl Htruthy).
    intros w. reflexivity.
Qed.

Lemma handleAudio_items (env : Env) (cfg : JsVal) (rest : M unit) :
  eqm (when (truthy (field cfg "audio")) (handleAudio env (field cfg "audio")) ;; rest)
      (run_items env (section_items cfg KWav) ;;
       run_items env (section_items cfg KMp3) ;; rest).
Proof.
  destruct (truthy (field cfg "audio")) eqn:Htruthy; cbn [when].
  - unfold handleAudio.
    eapply eqm_trans; [apply bind_assoc|].
    apply bind_cong; [exact (sub_section env cfg KWav "wav" eq_refl Htruthy)|intros _].
    apply bind_cong; [exact (sub_section env cfg KMp3 "mp3" eq_refl Htruthy)|intros _].
    apply eqm_refl.
  - rewrite (skipped_section env cfg KWav "wav" eq_refl Htruthy).
    rewrite (skipped_section env cfg KMp3 "mp3" eq_refl Htruthy).
    intros w. reflexivity.
Qed.

Lemma handleArchives_items (env : Env) (cfg : JsVal) (rest : M unit) :
  eqm (when (truthy (field cfg "archives")) (handleArchives env (field cfg "archives")) ;; rest)
      (run_items env (section_items cfg KZip) ;;
       run_items env (section_items cfg KRar) ;; rest).
Proof.
  destruct (truthy (field cfg "archives")) eqn:Htruthy; cbn [when].
  - unfold handleArchives.
    eapply eqm_trans; [apply bind_assoc|].
    apply bind_cong; [exact (sub_section env cfg KZip "zip" eq_refl Htruthy)|intros _].
    apply bind_cong; [exact (sub_section env cfg KRar "rar" eq_refl Htruthy)|intros _].
    apply eqm_refl.
  - rewrite (skipped_section env cfg KZip "zip" eq_refl Htruthy).
    rewrite (skipped_section env cfg KRar "rar" eq_refl Htruthy).
    intros w. reflexivity.
Qed.

Lemma run_sections (env : Env) (cfg : JsVal) (kinds : list Kind) (rest : M unit) :
  eqm (fold_right (fun k acc => run_items env (section_items cfg k) ;; acc) rest kinds)
      (run_items env (flat_map (section_items cfg) kinds) ;; rest).
Proof.
  induction kinds as [|k kinds IH]; cbn [fold_right flat_map].
  - intros w. reflexivity.
  - eapply eqm_trans;
      [|apply bind_cong; [intros w; symmetry; apply run_items_app
                         | intros a; apply eqm_refl]].
    eapply eqm_trans; [|intros w; symmetry; apply bind_assoc].
    apply bind_cong; [apply eqm_refl | intros _; exact IH].
Qed.

(** [runFromConfig] creates the output directory, attempts the work items
    of the plan one after the other, and reports the end. *)
Lemma runFromConfig_items (env : Env) (cfg : JsVal) :
  eqm (runFromConfig env cfg)
      (ensureOutputDir env cfg ;; run_items env (plan_items cfg) ;; info "Done.").
Proof.
  unfold runFromConfig, plan_items.
  apply bind_cong; [apply eqm_refl | intros _].
  eapply eqm_trans; [|apply (run_sections env cfg declared_order)].
  cbn [fold_right declared_order].
  apply bind_cong; [exact (top_section env cfg KJson eq_refl) | intros _].
  apply bind_cong; [exact (top_section env cfg KPdf eq_refl) | intros _].
  apply bind_cong; [exact (top_section env cfg KTxt eq_refl) | intros _].
  apply bind_cong; [exact (top_section env cfg KDocx eq_refl) | intros _].
  apply bind_cong; [exact (top_section env cfg KPptx eq_refl) | intros _].
  apply bind_cong; [exact (top_section env cfg KXlsx eq_refl) | intros _].
  apply bind_cong; [exact (top_section env cfg KCsv eq_refl) | intros _].
  eapply eqm_trans; [apply handleImages_items|].
  do 3 (apply bind_cong; [apply eqm_refl | intros _]).
  eapply eqm_trans; [apply handleAudio_items|].
  do 2 (apply bind_cong; [apply eqm_refl | intros _]).
  apply bind_cong; [exact (top_section env cfg KVideo eq_refl) | intros _].
  eapply eqm_trans; [apply handleArchives_items|].
  apply eqm_refl.
Qed.

Lemma attempt_throw (env : Env) (k : Kind) (idx : nat) (item : JsVal)
    (e : Exn) (w w' : World) :
  attempt env k idx item w = (Throw e, w') ->
  exists wf,
    try_block env k idx item w = (Throw e, wf)
    /\ w' = mkWorld (trace wf ++ map EvErr (failure_lines (failure_of k) (hints_of k) idx e))
                    (draws wf).
Proof.
  unfold attempt, try_catch.
  destruct (try_block env k idx item w) as [[a|e'] wf]; [discriminate|].
  rewrite on_failure_run. intros H. injection H as -> <-. now exists wf.
Qed.

(** A pass over work items that throws was stopped by one of them. *)
Lemma run_items_throw (env : Env) (work : list (Kind * nat * JsVal))
    (e : Exn) (w0 w2 : World) :
  run_items env work w0 = (Throw e, w2) ->
  exists pre k idx item post w1,
    work = pre ++ (k, idx, item) :: post
    /\ run_items env pre w0 = (Ok tt, w1)
    /\ attempt env k idx item w1 = (Throw e, w2).
Proof.
  revert w0. induction work as [|[[k idx] item] work IH]; intros w0 H.
  - discriminate.
  - cbn [run_items] in H. unfold bind in H.
    destruct (attempt env k idx item w0) as [[[]|e'] w'] eqn:Hatt.
    + destruct (IH _ H) as (pre & k' & idx' & item' & post & w1 & -> & Hpre & Hfail).
      exists ((k, idx, item) :: pre), k', idx', item', post, w1.
      split; [reflexivity|]. split; [|exact Hfail].
      cbn [run_items]. unfold bind. now rewrite Hatt.
    + injection H as -> ->.
      exists [], k, idx, item, work, w0. repeat split; assumption.
Qed.

(** C2. When an item of a plan fails, by validation or in its generator,
    the run ends there with that item's error: its outcome and its world
    are those of the failed attempt, whose error report is the last
    output, and the pass over the plan is the pass over the items up to
    that one; no later item of the section and no item of a later section
    is attempted. *)
Theorem fail_fast (env : Env) (cfg : JsVal)
    (pre : list (Kind * nat * JsVal)) (k : Kind) (idx : nat) (item : JsVal)
    (post : list (Kind * nat * JsVal)) (w w0 w1 : World) (e : Exn) (w2 : World) :
  plan_items cfg = pre ++ (k, idx, item) :: post ->
  ensureOutputDir env cfg w = (Ok tt, w0) ->
  run_items env pre w0 = (Ok tt, w1) ->
  attempt env k idx item w1 = (Throw e, w2) ->
  runFromConfig env cfg w = (Throw e, w2)
  /\ run_items env (plan_items cfg) w0 = run_items env (pre ++ [(k, idx, item)]) w0
  /\ (exists wf,
        w2 = mkWorld (trace wf ++
                      map EvErr (failure_lines (failure_of k) (hints_of k) idx e))
                     (draws wf))
  /\ (forall configPath, fst (main env configPath cfg w) = 1).
Proof.
  intros Hplan Hdir Hpre Hfail.
  assert (Hpass : forall rest,
            run_items env (pre ++ (k, idx, item) :: rest) w0 = (Throw e, w2)).
  { intros rest. rewrite run_items_app. unfold bind at 1. rewrite Hpre.
    cbn [run_items]. unfold bind. now rewrite Hfail. }
  assert (Hrun : runFromConfig env cfg w = (Throw e, w2)).
  { rewrite runFromConfig_items. unfold bind at 1. rewrite Hdir.
    unfold bind at 1. now rewrite Hplan, Hpass. }
  split; [exact Hrun|]. split.
  { now rewrite Hplan, !Hpass. }
  split.
  { destruct (attempt_throw env k idx item e w1 w2 Hfail) as (wf & _ & ->).
    now exists wf. }
  intros configPath. unfold main, loadYaml. unfold bind at 1. unfold lift.
  destruct (negb (truthy cfg) || negb (typeof_object cfg)); [reflexivity|].
  now rewrite Hrun.
Qed.

Lemma fail_fast_witness :
  plan_items stopping_plan
  = [(KJson, 0, JObj [("path", JStr "out/a.json")])]
    ++ (KJson, 1, JObj [("path", JStr " ")])
    :: [(KJson, 2, JObj [("path", JStr "out/c.json")]);
        (KPdf, 0, JObj [("path", JStr "out/d.pdf"); ("lines", num 2)])]
  /\ runFromConfig quiet_env stopping_plan start
     = (Throw (JsError "json[1].path must be a non-empty string"),
        mkWorld [EvMkdir "out";
                 EvWriteFile "out/a.json"
                   (ArtJson (JObj [("name", JStr "name 0");
                                   ("email", JStr "mail1@example.com")]) true);
                 EvOut "[file-fabric] Generated JSON → out/a.json";
                 EvErr "[file-fabric] ERROR: JSON generation failed at index 1";
                 EvErr "Cause: json[1].path must be a non-empty string"] 2).
Proof.
  split; [reflexivity|].
  apply (fail_fast quiet_env stopping_plan
           [(KJson, 0, JObj [("path", JStr "out/a.json")])]
           KJson 1 (JObj [("path", JStr " ")])
           [(KJson, 2, JObj [("path", JStr "out/c.json")]);
            (KPdf, 0, JObj [("path", JStr "out/d.pdf"); ("lines", num 2)])]
           start start
           (mkWorld [EvMkdir "out";
                     EvWriteFile "out/a.json"
                       (ArtJson (JObj [("name", JStr "name 0");
                                       ("email", JStr "mail1@example.com")]) true);
                     EvOut "[file-fabric] Generated JSON → out/a.json"] 2)
           (JsError "json[1].path must be a non-empty string")
           _ eq_refl eq_refl eq_refl eq_refl).
Defined.

(** A generator failure stops the run in the same way: the disk is full
    for the first file, the second is not attempted. *)
Example fail_fast_generator_error :
  runFromConfig full_disk_env
    (JObj [("txt", JArr [JObj [("path", JStr "full/a.txt"); ("lines", num 1)];
                         JObj [("path", JStr "b.txt"); ("lines", num 1)]])]) start
  = (Throw (JsError "ENOSPC: no space left on device"),
     mkWorld [EvMkdir "full";
              EvErr "[file-fabric] ERROR: TXT generation failed at index 0";
              EvErr "Cause: ENOSPC: no space left on device"] 1).
Proof. reflexivity. Qed.

(** C3, as the code has it. The field validation that the handler of a
    kind performs on an item comes before every effect of that item: an
    item it refuses leaves nothing but its error lines (no directory, no
    file, no draw from faker). The plan {pdf: {path: "x.pdf", lines: -1}}
    fails at pdf[0].lines and creates no directory. The checks a generator
    makes itself are not among them: they come after the directory of the
    item exists. *)
Theorem handler_validation_before_effects (env : Env) :
  (forall k idx item e w,
     validation k idx item = Throw e ->
     attempt env k idx item w
     = (Throw e,
        mkWorld (trace w ++ map EvErr (failure_lines (failure_of k) (hints_of k) idx e))
                (draws w)))
  /\ (forall w,
        runFromConfig env scenario5_plan w
        = (Throw (JsError "pdf[0].lines must be a positive integer"),
           mkWorld (trace w ++
                    [EvErr "[file-fabric] ERROR: PDF generation failed at index 0";
                     EvErr "Cause: pdf[0].lines must be a positive integer"])
                   (draws w))).
Proof.
  assert (Hrefused : forall k idx item e w,
     validation k idx item = Throw e ->
     attempt env k idx item w
     = (Throw e,
        mkWorld (trace w ++ map EvErr (failure_lines (failure_of k) (hints_of k) idx e))
                (draws w))).
  { intros k idx item e w H. rewrite (attempt_refused env k idx item e w H).
    apply on_failure_run. }
  split; [exact Hrefused|].
  intros w.
  assert (H : validation KPdf 0
                (JObj [("path", JStr "x.pdf"); ("lines", num (-1))])
              = Throw (JsError "pdf[0].lines must be a positive integer"))
    by reflexivity.
  pose proof (Hrefused KPdf 0 _ _ w H) as Hatt.
  rewrite runFromConfig_items.
  rewrite (bind_run _ _ w tt w) by reflexivity.
  apply bind_fail. change (plan_items scenario5_plan)
    with [(KPdf, 0, JObj [("path", JStr "x.pdf"); ("lines", num (-1))])].
  cbn [run_items]. now apply bind_fail.
Qed.

Lemma handler_validation_before_effects_witness :
  validation KPdf 0 (JObj [("path", JStr "x.pdf"); ("lines", num (-1))])
  = Throw (JsError "pdf[0].lines must be a positive integer")
  /\ attempt quiet_env KPdf 0 (JObj [("path", JStr "x.pdf"); ("lines", num (-1))]) start
     = (Throw (JsError "pdf[0].lines must be a positive integer"),
        mkWorld [EvErr "[file-fabric] ERROR: PDF generation failed at index 0";
                 EvErr "Cause: pdf[0].lines must be a positive integer"] 0).
Proof.
  split; [reflexivity|].
  exact (proj1 (handler_validation_before_effects quiet_env) KPdf 0
           (JObj [("path", JStr "x.pdf"); ("lines", num (-1))])
           (JsError "pdf[0].lines must be a positive integer") start eq_refl).
Defined.

(** C3, as stated, fails on a csv item whose records disagree on their
    keys: nothing external fails, the item is refused by the key check of
    [generateCSV], and by then its directory has been created. *)
Lemma csv_directory_before_key_check :
  reliable quiet_env
  /\ attempt quiet_env KCsv 0 mismatched_csv_item start
     = (Throw (JsError "All records must have the same keys and key count"),
        mkWorld [EvMkdir "out";
                 EvErr "[file-fabric] ERROR: CSV generation failed at index 0";
                 EvErr "Cause: All records must have the same keys and key count"] 0)
  /\ ~ checks_before_effects quiet_env.
Proof.
  split; [intros t ev; reflexivity|]. split; [reflexivity|].
  intros H.
  specialize (H KCsv 0 mismatched_csv_item start _ _ eq_refl).
  unfold added in H. cbn in H. inversion H as [|ev rest [line Hline] _].
  discriminate.
Qed.

(** The sample buffer of [generateWAV] is another check of a generator: a
    WAV item with a negative sample rate passes the handler, and is
    refused with a RangeError once its directory exists. *)
Example wav_directory_before_sample_buffer :
  validation KWav 0
    (JObj [("path", JStr "out/a.wav"); ("lengthSeconds", num 1);
           ("opts", JObj [("sampleRate", num (-1))])]) = Ok tt
  /\ attempt quiet_env KWav 0
       (JObj [("path", JStr "out/a.wav"); ("lengthSeconds", num 1);
              ("opts", JObj [("sampleRate", num (-1))])]) start
     = (Throw (JsRangeError "Invalid typed array length: -1"),
        mkWorld [EvMkdir "out";
                 EvErr "[file-fabric] ERROR: WAV generation failed at index 0";
                 EvErr "Cause: Invalid typed array length: -1"] 0).
Proof. split; reflexivity. Qed.


(** In a plan, an item whose [texts] is the empty list is attempted as
    the item without [texts] is. *)
Lemma attempt_empty_texts (env : Env) (k : Kind) (idx : nat)
    (props : list (string * JsVal)) (w : World) :
  k = KTxt \/ k = KDocx \/ k = KPdf ->
  lookup "texts" props = JUndefined ->
  attempt env k idx (JObj (("texts", JArr []) :: props)) w
  = attempt env k idx (JObj props) w.
Proof.
  intros Hk Htexts. unfold attempt, try_catch.
  assert (Hbody : try_block env k idx (JObj (("texts", JArr []) :: props)) w
                  = try_block env k idx (JObj props) w).
  { destruct Hk as [-> | [-> | ->]]; cbn [try_block];
      unfold tryTXT, tryDOCX, tryPDF, normalizeTXT, normalizeDOCX, normalizeLines,
        normalizePDF, texts_field, prop, field, bind, lift;
      cbn [lookup String.eqb Ascii.eqb Bool.eqb rbind];
      rewrite Htexts;
      repeat match goal with
        | |- context [rbind ?r _] =>
            match r with
            | rbind _ _ => fail 1
            | _ => destruct r; cbn [rbind is_undefined Array_isArray every elems_of
                                     forallb andb array_opt]
            end
        end;
      reflexivity. }
  now rewrite Hbody.
Qed.

(** * Further properties of the code *)

(** ** Validators *)

Lemma expectString_ok (v : JsVal) (where_ : string) (s : string) :
  expectString v where_ = Ok s <-> v = JStr s /\ blank s = false.
Proof.
  unfold expectString. split.
  - destruct v; try discriminate. destruct (blank s0) eqn:Hb; [discriminate|].
    intros H. injection H as <-. auto.
  - intros [-> Hb]. now rewrite Hb.
Qed.

(** The positive-integer validator lets through exactly the finite numbers
    equal to a whole number above zero, and hands them on unchanged; any
    other value it refuses with its message. The loop a generator runs up
    to such a bound makes exactly that many turns. *)
Theorem expectPositiveInt_whole (v : JsVal) (where_ : string) :
  (forall n,
     expectPositiveInt v where_ = Ok n
     <-> exists (z : Z) (q : Q),
           (0 < z)%Z /\ (q == inject_Z z)%Q /\ v = JNum (Fin q) /\ n = Fin q)
  /\ (~ (exists (z : Z) (q : Q),
           (0 < z)%Z /\ (q == inject_Z z)%Q /\ v = JNum (Fin q)) ->
      expectPositiveInt v where_
      = Throw (JsError (where_ ++ " must be a positive integer")))
  /\ (forall (z : Z) (q : Q),
        (0 < z)%Z -> (q == inject_Z z)%Q -> count (Fin q) = Z.to_nat z).
Proof.
  assert (Hiff : forall n,
     expectPositiveInt v where_ = Ok n
     <-> exists (z : Z) (q : Q),
           (0 < z)%Z /\ (q == inject_Z z)%Q /\ v = JNum (Fin q) /\ n = Fin q).
  { intros n. rewrite expectPositiveInt_ok. split.
    - intros (q & -> & -> & Hq & Hfl). exists (Qfloor q), q.
      split; [rewrite Zlt_Qlt; now rewrite Hfl|].
      split; [now symmetry|]. auto.
    - intros (z & q & Hz & Hq & -> & ->). exists q.
      split; [reflexivity|]. split; [reflexivity|]. split.
      + rewrite Hq. change 0%Q with (inject_Z 0). now rewrite <- Zlt_Qlt.
      + rewrite Hq at 1. rewrite Qfloor_Z. now symmetry. }
  split; [exact Hiff|]. split.
  - intros Hnone. unfold expectPositiveInt.
    destruct (negb (Number_isFinite v) || num_le (as_num v) zero
              || floor_differs (as_num v)) eqn:Hguards; [reflexivity|].
    exfalso. apply Hnone.
    assert (Hok : expectPositiveInt v where_ = Ok (as_num v))
      by (unfold expectPositiveInt; now rewrite Hguards).
    apply Hiff in Hok as (z & q & Hz & Hq & Hv & _). now exists z, q.
  - intros z q Hz Hq. unfold count. now rewrite Hq, Qceiling_Z.
Qed.

Lemma expectPositiveInt_whole_witness :
  expectPositiveInt (JNum (Fin (6 # 2))) "txt[0].lines" = Ok (Fin (6 # 2))
  /\ count (Fin (6 # 2)) = 3
  /\ expectPositiveInt (JNum (Fin (7 # 2))) "txt[0].lines"
     = Throw (JsError "txt[0].lines must be a positive integer").
Proof.
  destruct (expectPositiveInt_whole (JNum (Fin (6 # 2))) "txt[0].lines")
    as (Hiff & _ & Hcount).
  split.
  - apply Hiff. exists 3%Z, (6 # 2)%Q. repeat split; reflexivity.
  - split; [apply (Hcount 3%Z (6 # 2)%Q); reflexivity|].
    apply (proj1 (proj2 (expectPositiveInt_whole (JNum (Fin (7 # 2))) "txt[0].lines"))).
    intros (z & q & Hz & Hq & Hv). injection Hv as <-.
    assert (H : (7 = 2 * z)%Z).
    { unfold Qeq in Hq. cbn in Hq. lia. }
    lia.
Defined.

(** ** Enumerated fields and the resolution pattern *)

Lemma prefix_app (a b : string) : String.prefix a (a ++ b) = true.
Proof.
  induction a as [|c a IH]; simpl.
  - now destruct b.
  - destruct (Ascii.ascii_dec c c); [exact IH | congruence].
Qed.

Lemma prefix_app_l (a x y : string) :
  String.prefix a x = true -> String.prefix a (x ++ y) = true.
Proof.
  revert x. induction a as [|c a IH]; intros x H.
  - now destruct (x ++ y)%string.
  - destruct x as [|c' x]; [discriminate|]. simpl in *.
    destruct (Ascii.ascii_dec c c'); [now apply IH | discriminate].
Qed.

Lemma contains_app_l (a x y : string) :
  contains a x = true -> contains a (x ++ y) = true.
Proof.
  induction x as [|c x IH]; rewrite contains_eq; intros H;
    apply orb_true_iff in H as [H|H]; rewrite contains_eq.
  - now rewrite (prefix_app_l a EmptyString y H).
  - discriminate.
  - now rewrite (prefix_app_l a (String c x) y H).
  - cbn [String.append]. rewrite (IH H). apply orb_true_r.
Qed.

Lemma contains_app_r (a x y : string) :
  contains a y = true -> contains a (x ++ y) = true.
Proof.
  intros H. induction x as [|c x IH]; [exact H|].
  cbn [String.append]. rewrite contains_eq, IH. apply orb_true_r.
Qed.

Lemma contains_self (a b : string) : contains a (a ++ b) = true.
Proof. rewrite contains_eq, prefix_app. reflexivity. Qed.

Lemma contains_join (sep a : string) (xs : list string) :
  In a xs -> contains a (join sep xs) = true.
Proof.
  unfold join. induction xs as [|x xs IH]; [intros []|].
  intros [-> | Hin].
  - destruct xs as [|y ys]; cbn [String.concat].
    + rewrite contains_eq.
      assert (Hrefl : String.prefix a a = true).
      { clear. induction a as [|c a IH]; [reflexivity|]. simpl.
        destruct (Ascii.ascii_dec c c); [exact IH | congruence]. }
      now rewrite Hrefl.
    + apply contains_self.
  - destruct xs as [|y ys]; [destruct Hin|].
    cbn [String.concat]. apply contains_app_r, contains_app_r. now apply IH.
Qed.

(** An enumerated field (pixel format, preset) is accepted exactly when it
    is one of the listed strings, letter case included; any other
    non-blank string is refused with a message that names every allowed
    value. *)
Theorem expectOneOf_spec (allowed : list string) (v : JsVal) (where_ : string) :
  (forall s, expectOneOf allowed v where_ = Ok s <->
             v = JStr s /\ blank s = false /\ In s allowed)
  /\ (forall s, v = JStr s -> blank s = false -> ~ In s allowed ->
        exists msg,
          expectOneOf allowed v where_ = Throw (JsError msg)
          /\ msg = (where_ ++ " must be one of " ++ join ", " allowed)%string
          /\ forall a, In a allowed -> contains a msg = true).
Proof.
  split.
  - intros s. unfold expectOneOf. split.
    + destruct (expectString v where_) as [s0|e] eqn:Hs; cbn [rbind]; [|discriminate].
      apply expectString_ok in Hs as [-> Hb].
      destruct (includes allowed s0) eqn:Hin; cbn [negb]; [|discriminate].
      intros H. injection H as <-. repeat split; auto. now apply includes_In.
    + intros (-> & Hb & Hin).
      assert (Hs : expectString (JStr s) where_ = Ok s) by now apply expectString_ok.
      rewrite Hs. cbn [rbind]. apply includes_In in Hin. now rewrite Hin.
  - intros s -> Hb Hnot. eexists. split; [|split; [reflexivity|]].
    + unfold expectOneOf.
      assert (Hs : expectString (JStr s) where_ = Ok s) by now apply expectString_ok.
      rewrite Hs. cbn [rbind].
      destruct (includes allowed s) eqn:Hin; [|reflexivity].
      apply includes_In in Hin. contradiction.
    + intros a Ha. apply contains_app_r, contains_app_r. now apply contains_join.
Qed.

Lemma expectOneOf_spec_witness :
  JStr "YUV420P" = JStr "YUV420P" /\ blank "YUV420P" = false
  /\ ~ In "YUV420P" pixel_formats
  /\ exists msg,
       expectOneOf pixel_formats (JStr "YUV420P") "video[0].pixelFormat"
       = Throw (JsError msg)
       /\ msg = "video[0].pixelFormat must be one of yuv420p, yuv422p, yuv444p"
       /\ forall a, In a pixel_formats -> contains a msg = true.
Proof.
  assert (Hnot : ~ In "YUV420P" pixel_formats).
  { simpl. intros [H|[H|[H|[]]]]; discriminate. }
  split; [reflexivity|]. split; [reflexivity|]. split; [exact Hnot|].
  exact (proj2 (expectOneOf_spec pixel_formats (JStr "YUV420P") "video[0].pixelFormat")
           "YUV420P" eq_refl eq_refl Hnot).
Defined.

Lemma byte_is_eq (c : ascii) (n : nat) :
  n < 256 -> byte_is c n = true -> c = ascii_of_nat n.
Proof.
  unfold byte_is. intros Hn H. apply Nat.eqb_eq in H. subst n.
  now rewrite ascii_nat_embedding.
Qed.

Lemma resolution_tail_spec (s : string) :
  resolution_tail s = true <->
  exists w h, s = (w ++ "x" ++ h)%string
              /\ all_digits w = true /\ h <> EmptyString /\ all_digits h = true.
Proof.
  split.
  - induction s as [|c s IH]; [discriminate|]. cbn [resolution_tail].
    destruct (is_digit c) eqn:Hd.
    + intros H. destruct (IH H) as (w & h & -> & Hw & Hh & Hdh).
      exists (String c w), h. cbn [String.append all_digits]. rewrite Hd, Hw. auto.
    + intros H. apply andb_true_iff in H as [H Hdh].
      apply andb_true_iff in H as [Hx Hne].
      apply byte_is_eq in Hx; [|lia]. subst c.
      exists EmptyString, s. repeat split; auto.
      intros ->. discriminate.
  - intros (w & h & -> & Hw & Hh & Hdh).
    induction w as [|c w IH]; cbn [String.append resolution_tail].
    + cbn. rewrite Hdh. destruct h; [congruence | reflexivity].
    + cbn [all_digits] in Hw. apply andb_true_iff in Hw as [Hc Hw].
      rewrite Hc. now apply IH.
Qed.

(** The resolution pattern accepts exactly a non-empty run of decimal
    digits, the letter x, and a non-empty run of decimal digits, with
    nothing before or after. *)
Theorem resolution_re_spec (s : string) :
  resolution_re s = true <->
  exists w h, s = (w ++ "x" ++ h)%string
              /\ w <> EmptyString /\ all_digits w = true
              /\ h <> EmptyString /\ all_digits h = true.
Proof.
  unfold resolution_re. split.
  - destruct s as [|c s]; [discriminate|]. intros H.
    apply andb_true_iff in H as [Hc H].
    apply resolution_tail_spec in H as (w & h & -> & Hw & Hh & Hdh).
    exists (String c w), h. cbn [String.append all_digits]. rewrite Hc, Hw.
    repeat split; auto. discriminate.
  - intros (w & h & -> & Hne & Hw & Hh & Hdh).
    destruct w as [|c w]; [congruence|]. cbn [String.append].
    cbn [all_digits] in Hw. apply andb_true_iff in Hw as [Hc Hw]. rewrite Hc.
    apply resolution_tail_spec. now exists w, h.
Qed.

(** Signs, spaces, a capital X, a missing side or a second x are refused. *)
Example resolution_refused :
  map resolution_re ["-1x2"; " 1x2"; "1x2 "; "1X2"; "x2"; "1x"; "1x2x3"; "1.5x2"; "x"]
  = [false; false; false; false; false; false; false; false; false].
Proof. reflexivity. Qed.

(** ** The output path of an item *)

Lemma prop_ok (v : JsVal) (k : string) (r : JsVal) :
  prop v k = Ok r -> r = field v k.
Proof. destruct v; cbn; intros H; try discriminate; now injection H. Qed.

(** A request of any kind that passes validation names its output file by
    a string that is not blank; and a request whose path is refused is
    refused with the error of the path, whatever its other fields hold:
    the path is the first field every handler looks at. *)
Theorem path_required_and_first (k : Kind) (idx : nat) (item : JsVal) :
  (validation k idx item = Ok tt ->
   exists p, field item "path" = JStr p /\ blank p = false)
  /\ (forall e, normalizePath (label_of k) idx item = Throw e ->
                validation k idx item = Throw e).
Proof.
  split.
  - intros H.
    assert (Hpath : exists p, normalizePath (label_of k) idx item = Ok p).
    { destruct k; cbn [validation label_of] in *; unfold checked in H;
        match type of H with
        | rbind ?r _ = _ => destruct r as [req|e] eqn:E; [|discriminate]
        end;
        unfold normalizeJSON, normalizePDF, normalizeTXT, normalizeDOCX,
          normalizeLines, normalizePPTX, normalizeXLSX, normalizeCSV,
          normalizeCustom, normalizeAudio, normalizeVideo, normalizeZIP,
          normalizeRAR in E;
        unfold normalizePath in *;
        try (destruct (prop item "path") as [p0|e0]; cbn [rbind] in *;
             [|discriminate];
             destruct (expectString p0 _) as [s0|e1]; cbn [rbind] in *;
             [|discriminate]);
        eauto. }
    destruct Hpath as (p & Hp). unfold normalizePath in Hp.
    destruct (prop item "path") as [v|e] eqn:Hprop; cbn [rbind] in Hp; [|discriminate].
    apply prop_ok in Hprop. subst v.
    apply expectString_ok in Hp as [Hp Hb]. now exists p.
  - intros e H. unfold normalizePath in H.
    destruct k; cbn [validation label_of] in *; unfold checked;
      unfold normalizeJSON, normalizePDF, normalizeTXT, normalizeDOCX,
        normalizeLines, normalizePPTX, normalizeXLSX, normalizeCSV,
        normalizeCustom, normalizeAudio, normalizeVideo, normalizeZIP,
        normalizeRAR, normalizePath;
      (destruct (prop item "path") as [p0|e0]; cbn [rbind] in *;
       [destruct (expectString p0 _) as [s0|e1]; cbn [rbind] in *;
        [discriminate | congruence]
       | congruence]).
Qed.

Lemma path_required_and_first_witness :
  normalizePath (label_of KRar) 2 (JObj [("files", JArr []); ("rarPath", num 7)])
  = Throw (JsError "archives.rar[2].path must be a non-empty string")
  /\ validation KRar 2 (JObj [("files", JArr []); ("rarPath", num 7)])
     = Throw (JsError "archives.rar[2].path must be a non-empty string").
Proof.
  split; [reflexivity|].
  exact (proj2 (path_required_and_first KRar 2
                  (JObj [("files", JArr []); ("rarPath", num 7)])) _ eq_refl).
Defined.

(** An item that is null (an empty list entry in YAML) is reported as a
    failed item of its section, for every kind, and leaves no effect. *)
Theorem null_item_is_a_failed_item (env : Env) (k : Kind) (idx : nat) (w : World) :
  exists msg,
    attempt env k idx JNull w
    = (Throw (JsTypeError msg),
       mkWorld (trace w ++
                map EvErr (failure_lines (failure_of k) (hints_of k) idx (JsTypeError msg)))
               (draws w)).
Proof.
  exists "Cannot read properties of null (reading 'path')".
  rewrite (attempt_refused env k idx JNull
             (JsTypeError "Cannot read properties of null (reading 'path')") w).
  - apply on_failure_run.
  - destruct k; reflexivity.
Qed.

(** ** What the handlers let through reaches the encoder *)

(** A video request the handler has validated passes the guards of
    [generateMP4] again: the generator goes straight to the encoder with
    the supplied fields and the defaults for the others. *)
Theorem validated_video_reaches_encoder (env : Env) (idx : nat) (item : JsVal)
    (req : string * VideoOptions) (w : World) :
  normalizeVideo idx item = Ok req ->
  generateMP4 env (fst req) (snd req) w
  = io env (EvWriteFile (fst req) (ArtMp4 (resolve_video (snd req)))) w.
Proof.
  intros H. apply normalizeVideo_guards in H.
  unfold generateMP4, bind, lift. now rewrite H.
Qed.

Lemma validated_video_reaches_encoder_witness :
  normalizeVideo 0 (JObj [("path", JStr "v.mp4"); ("crf", num 51); ("fps", num 24)])
  = Ok ("v.mp4", mkVideoOptions None None (Some (Fin (inject_Z 24))) None
                   (Some (Fin (inject_Z 51))) None None None)
  /\ generateMP4 quiet_env "v.mp4"
       (mkVideoOptions None None (Some (Fin (inject_Z 24))) None
          (Some (Fin (inject_Z 51))) None None None) start
     = io quiet_env
         (EvWriteFile "v.mp4"
            (ArtMp4 (mkVideoSettings (Fin 1) "1280x720" (Fin (inject_Z 24)) "black"
                       (Fin (inject_Z 51)) "yuv420p" "medium" true))) start.
Proof.
  split; [reflexivity|].
  exact (validated_video_reaches_encoder quiet_env 0
           (JObj [("path", JStr "v.mp4"); ("crf", num 51); ("fps", num 24)])
           _ start eq_refl).
Defined.

(** A video item that sets none of the eight options is encoded with
    duration 1, 1280x720, 30 frames per second, black, crf 23, yuv420p,
    medium and a silent audio track. *)
Theorem video_defaults_apply (env : Env) (idx : nat) (item : JsVal) (p : string)
    (w : World) :
  field item "path" = JStr p -> blank p = false ->
  (forall name, In name ["duration"; "resolution"; "fps"; "background"; "crf";
                         "pixelFormat"; "preset"; "silentAudio"] ->
                field item name = JUndefined) ->
  tryVideo env idx item w
  = (ensureDirFor env p ;;
     io env (EvWriteFile p (ArtMp4 video_defaults)) ;;
     info ("Generated MP4 → " ++ p)) w.
Proof.
  intros Hp Hb Habsent.
  assert (Hitem : forall name, prop item name = Ok (field item name)).
  { intros name. destruct item; try discriminate; reflexivity. }
  assert (Hnorm : normalizeVideo idx item
                  = Ok (p, mkVideoOptions None None None None None None None None)).
  { unfold normalizeVideo, normalizePath. rewrite !Hitem, Hp.
    cbn [rbind]. unfold expectString. rewrite Hb. cbn [rbind].
    rewrite !Habsent by (cbn; tauto). reflexivity. }
  unfold tryVideo. rewrite (bind_run _ _ w _ w) by (unfold lift; now rewrite Hnorm).
  cbn [fst snd]. reflexivity.
Qed.

Lemma video_defaults_apply_witness :
  field (JObj [("path", JStr "v.mp4")]) "path" = JStr "v.mp4"
  /\ tryVideo quiet_env 0 (JObj [("path", JStr "v.mp4")]) start
     = (Ok tt, mkWorld [EvMkdir "."; EvWriteFile "v.mp4" (ArtMp4 video_defaults);
                        EvOut "[file-fabric] Generated MP4 → v.mp4"] 0).
Proof.
  split; [reflexivity|].
  rewrite (video_defaults_apply quiet_env 0 (JObj [("path", JStr "v.mp4")]) "v.mp4"
             start eq_refl eq_refl).
  - reflexivity.
  - intros name Hin. cbn in Hin.
    repeat (destruct Hin as [<- | Hin]; [reflexivity|]). destruct Hin.
Defined.



(** ** Line counts, supplied texts and faker *)

Lemma cycled_from_texts (texts : list JsVal) (n : nat) :
  texts <> [] -> Forall (fun v => In v texts) (cycled texts n).
Proof.
  intros Hne. unfold cycled. apply Forall_forall. intros v Hin.
  apply in_map_iff in Hin as (j & <- & _). apply nth_In.
  apply Nat.mod_upper_bound. destruct texts; [congruence | discriminate].
Qed.

Lemma content_lines_spec (env : Env) (n : nat) (texts : option (list JsVal))
    (w : World) :
  exists content,
    length content = n
    /\ content_lines env n texts w
       = (Ok content,
          mkWorld (trace w)
                  (draws w + if Nat.eqb (length (default [] texts)) 0 then n else 0))
    /\ (default [] texts <> [] ->
        Forall (fun v => In v (default [] texts)) content
        /\ forall env', content_lines env' n texts w = content_lines env n texts w).
Proof.
  destruct (default [] texts) as [|t ts] eqn:Htexts.
  - exists (filler env (draws w) n). cbn [length Nat.eqb].
    split; [unfold filler; now rewrite length_map, length_seq|].
    split; [|congruence].
    unfold content_lines. rewrite Htexts. cbn [length Nat.eqb].
    now rewrite fill_fake_unfold.
  - exists (cycled (t :: ts) n). cbn [length Nat.eqb].
    assert (Hrun : forall env0, content_lines env0 n texts w
                                = (Ok (cycled (t :: ts) n), w)).
    { intros env0. unfold content_lines. rewrite Htexts. cbn [length Nat.eqb].
      rewrite fill_cyclic_cycled by discriminate. reflexivity. }
    split; [apply cycled_length|]. split.
    + rewrite Hrun, Nat.add_0_r. now destruct w.
    + intros _. split; [apply cycled_from_texts; discriminate|].
      intros env'. now rewrite !Hrun.
Qed.

(** The content block of the line-based generators always yields exactly
    the requested number of lines. With texts supplied, every line is one
    of them, faker is not consulted and the content is the same under any
    faker; without, faker is consulted once per line. *)
Theorem content_lines_count (env : Env) (n : nat) (texts : option (list JsVal))
    (w : World) :
  exists content,
    length content = n
    /\ content_lines env n texts w
       = (Ok content,
          mkWorld (trace w)
                  (draws w + if Nat.eqb (length (default [] texts)) 0 then n else 0))
    /\ (default [] texts <> [] ->
        Forall (fun v => In v (default [] texts)) content
        /\ forall env', content_lines env' n texts w = content_lines env n texts w).
Proof. apply content_lines_spec. Qed.

Lemma content_lines_count_witness :
  exists content,
    length content = 3
    /\ content_lines quiet_env 3 (Some [JStr "a"; JStr "b"]) start = (Ok content, start)
    /\ Forall (fun v => In v [JStr "a"; JStr "b"]) content.
Proof.
  destruct (content_lines_count quiet_env 3 (Some [JStr "a"; JStr "b"]) start)
    as (content & Hlen & Hrun & Hfrom).
  exists content. split; [exact Hlen|]. split; [exact Hrun|].
  apply Hfrom. discriminate.
Defined.

Lemma content_lines_run (env : Env) (n : nat) (texts : option (list JsVal)) (w : World) :
  exists content d,
    length content = n /\ content_lines env n texts w = (Ok content, mkWorld (trace w) d).
Proof.
  destruct (content_lines_spec env n texts w) as (content & Hlen & Hrun & _).
  eauto.
Qed.

Lemma pptx_slides_loop_run (env : Env) (slides : list (string * SlideOptions))
    (deck0 : list (string * list JsVal)) (w : World) :
  exists deck d,
    pptx_slides_loop env slides deck0 w = (Ok (deck0 ++ deck), mkWorld (trace w) d)
    /\ map fst deck = map fst slides
    /\ map (fun e => length (snd e)) deck = map (fun s => slide_lines (snd s)) slides.
Proof.
  revert deck0 w. induction slides as [|[title opts] slides IH]; intros deck0 w.
  - exists [], (draws w). cbn. rewrite app_nil_r. now destruct w.
  - cbn [pptx_slides_loop].
    destruct (content_lines_run env (slide_lines opts) (slide_texts opts) w)
      as (content & d & Hlen & Hrun).
    rewrite (bind_run _ _ w content _ Hrun).
    destruct (IH (deck0 ++ [(title, content)]) (mkWorld (trace w) d))
      as (deck & d' & Hloop & Hkeys & Hlens).
    exists ((title, content) :: deck), d'.
    rewrite Hloop, <- app_assoc. cbn [app map fst snd trace].
    now rewrite Hkeys, Hlens, Hlen.
Qed.

Lemma xlsx_rows_loop_run (env : Env) (texts : list JsVal) (k i : nat)
    (sheet : list JsVal) (w : World) :
  exists rows d,
    length rows = k
    /\ xlsx_rows_loop env texts k i sheet w = (Ok (sheet ++ rows), mkWorld (trace w) d).
Proof.
  destruct texts as [|t ts] eqn:Ht.
  - exists (filler_rows env (draws w) k), (draws w + 2 * k).
    split; [unfold filler_rows; now rewrite length_map, length_seq|].
    apply xlsx_rows_filler.
  - rewrite <- Ht. eexists _, (draws w). split.
    2:{ rewrite xlsx_rows_cycled by (subst; discriminate). now destruct w. }
    now rewrite length_map, length_seq.
Qed.

Lemma xlsx_sheets_loop_run (env : Env) (sheets : list (string * SheetOptions))
    (book0 : list (string * list JsVal)) (w : World) :
  exists book d,
    xlsx_sheets_loop env sheets book0 w = (Ok (book0 ++ book), mkWorld (trace w) d)
    /\ map fst book = map fst sheets
    /\ map (fun e => length (snd e)) book = map (fun s => S (sheet_rows (snd s))) sheets
    /\ Forall (fun e => hd_error (snd e) = Some header_row) book.
Proof.
  revert book0 w. induction sheets as [|[name opts] sheets IH]; intros book0 w.
  - exists [], (draws w). cbn. rewrite app_nil_r. split; [now destruct w | auto].
  - cbn [xlsx_sheets_loop].
    destruct (xlsx_rows_loop_run env (default [] (sheet_texts opts)) (sheet_rows opts) 0
                [header_row] w) as (rows & d & Hlen & Hrun).
    rewrite (bind_run _ _ w _ _ Hrun).
    destruct (IH (book0 ++ [(name, [header_row] ++ rows)]) (mkWorld (trace w) d))
      as (book & d' & Hloop & Hkeys & Hlens & Hhead).
    exists ((name, [header_row] ++ rows) :: book), d'.
    rewrite Hloop, <- app_assoc. cbn [app map fst snd trace length].
    rewrite Hkeys, Hlens, Hlen. repeat split; auto.
Qed.

(** A deck has one slide per entry of [slides], in the order of the
    entries, titled by the key and holding the requested number of lines;
    a workbook has one sheet per entry of [sheets], named by the key, whose
    first row is the header Name, Email and which holds the requested
    number of rows after it. Nothing is written before the whole deck or
    book is built. *)
Theorem decks_and_books_follow_their_entries (env : Env) (path : string)
    (slides : list (string * SlideOptions)) (sheets : list (string * SheetOptions))
    (w : World) :
  (exists deck d,
     generatePPTX env (mkPPTXOptions path slides) w
     = io env (EvWriteFile path (ArtPptx deck)) (mkWorld (trace w) d)
     /\ map fst deck = map fst slides
     /\ map (fun e => length (snd e)) deck = map (fun s => slide_lines (snd s)) slides)
  /\ (exists book d,
        generateXLSX env (mkXLSXOptions path sheets) w
        = io env (EvWriteFile path (ArtXlsx book)) (mkWorld (trace w) d)
        /\ map fst book = map fst sheets
        /\ map (fun e => length (snd e)) book
           = map (fun s => S (sheet_rows (snd s))) sheets
        /\ Forall (fun e => hd_error (snd e) = Some header_row) book).
Proof.
  split.
  - destruct (pptx_slides_loop_run env slides [] w) as (deck & d & Hrun & Hkeys & Hlens).
    exists deck, d. split; [|auto].
    unfold generatePPTX. cbn [pptx_slides pptx_path].
    now rewrite (bind_run _ _ w _ _ Hrun).
  - destruct (xlsx_sheets_loop_run env sheets [] w)
      as (book & d & Hrun & Hkeys & Hlens & Hhead).
    exists book, d. split; [|auto].
    unfold generateXLSX. cbn [xlsx_sheets xlsx_path].
    now rewrite (bind_run _ _ w _ _ Hrun).
Qed.

(** ** CSV without explicit records *)

Lemma fake_records_unfold (env : Env) (n : nat) (records : list JsVal) (w : World) :
  fake_records env n records w
  = (Ok (records ++ synthetic_records env (draws w) n),
     mkWorld (trace w) (draws w + 2 * n)).
Proof.
  revert records w. induction n as [|n IH]; intros records w.
  - cbn. unfold ret. rewrite app_nil_r, Nat.add_0_r. now destruct w.
  - cbn [fake_records]. unfold bind at 1. unfold faker_fullName, draw at 1.
    unfold bind at 1. unfold faker_email, draw at 1.
    rewrite IH. cbn [trace draws]. unfold synthetic_records.
    rewrite tabulate_succ, <- app_assoc. cbn [app].
    rewrite (map_ext
               (fun j => JObj [("name", JStr (person_fullName env (draws w + 2 * S j)));
                               ("email", JStr (internet_email env (draws w + 2 * S j + 1)))])
               (fun j => JObj [("name", JStr (person_fullName env (S (S (draws w)) + 2 * j)));
                               ("email", JStr (internet_email env (S (S (draws w)) + 2 * j + 1)))]))
      by (intros j; replace (draws w + 2 * S j) with (S (S (draws w)) + 2 * j) by lia;
          reflexivity).
    replace (draws w + 2 * 0) with (draws w) by lia.
    replace (draws w + 1) with (S (draws w)) by lia.
    replace (draws w + 2 * S n) with (S (S (draws w)) + 2 * n) by lia.
    reflexivity.
Qed.

(** Without records, or with an empty list of records, [generateCSV]
    makes up as many records as [rows] says, five when [rows] is absent,
    under the header name, email; asked for no row at all it throws a
    TypeError and writes nothing. *)
Theorem csv_synthetic_rows (env : Env) (path : string) (rows : option nat)
    (data : option (list JsVal)) (w : World) :
  data = None \/ data = Some [] ->
  let n := default 5 rows in
  (0 < n ->
   generateCSV env (mkCSVOptions path rows data) w
   = io env (EvWriteFile path
               (ArtCsv ["name"; "email"] (synthetic_records env (draws w) n)))
        (mkWorld (trace w) (draws w + 2 * n))
   /\ length (synthetic_records env (draws w) n) = n)
  /\ (n = 0 ->
      generateCSV env (mkCSVOptions path rows data) w
      = (Throw (JsTypeError "Cannot convert undefined or null to object"), w)).
Proof.
  intros Hdata n.
  assert (Hgen : generateCSV env (mkCSVOptions path rows data) w
    = match synthetic_records env (draws w) n with
      | [] => (Throw (JsTypeError "Cannot convert undefined or null to object"),
               mkWorld (trace w) (draws w + 2 * n))
      | first :: _ =>
          io env (EvWriteFile path
                    (ArtCsv (Object_keys first) (synthetic_records env (draws w) n)))
             (mkWorld (trace w) (draws w + 2 * n))
      end).
  { unfold generateCSV. cbn [csv_rows csv_data csv_path]. fold n.
    destruct Hdata as [-> | ->];
      (rewrite (bind_run _ _ w _ _ (fake_records_unfold env n [] w)); cbn [app];
       destruct (synthetic_records env (draws w) n); reflexivity). }
  split.
  - intros Hn. rewrite Hgen. split.
    + destruct n as [|n']; [lia|]. reflexivity.
    + unfold synthetic_records. now rewrite length_map, length_seq.
  - intros Hn. rewrite Hgen, Hn. cbn. rewrite Nat.add_0_r. now destruct w.
Qed.

Lemma csv_synthetic_rows_witness :
  (@None (list JsVal) = None \/ @None (list JsVal) = Some [])
  /\ generateCSV quiet_env (mkCSVOptions "c.csv" (Some 0) None) start
     = (Throw (JsTypeError "Cannot convert undefined or null to object"), start)
  /\ generateCSV quiet_env (mkCSVOptions "c.csv" None None) start
     = io quiet_env
         (EvWriteFile "c.csv" (ArtCsv ["name"; "email"] (synthetic_records quiet_env 0 5)))
         (mkWorld [] 10).
Proof.
  split; [now left|]. split.
  - exact (proj2 (csv_synthetic_rows quiet_env "c.csv" (Some 0) None start (or_introl eq_refl))
             eq_refl).
  - apply (csv_synthetic_rows quiet_env "c.csv" None None start (or_introl eq_refl)).
    cbn. lia.
Defined.

(** A csv item with [data: []] and a rows count: the handler prints that
    rows will be ignored, and the generator then makes up that many rows,
    as it does for the item without [data]. *)
Theorem csv_empty_data_uses_rows (env : Env) (idx : nat) (item : JsVal) (p : string)
    (rowsv : JsVal) (n : JsNum) (w : World) :
  field item "path" = JStr p -> blank p = false ->
  field item "rows" = rowsv ->
  expectPositiveInt rowsv (loc "csv" idx ".rows") = Ok n ->
  field item "data" = JArr [] ->
  tryCSV env idx item w
  = (info (loc "csv" idx ": 'data' provided, 'rows' will be ignored.") ;;
     ensureDirFor env p ;;
     generateCSV env (mkCSVOptions p (Some (count n)) None) ;;
     info ("Generated CSV → " ++ p)) w
  /\ 0 < count n.
Proof.
  intros Hp Hb Hrows Hn Hdata.
  assert (Hitem : forall name, prop item name = Ok (field item name)).
  { intros name. destruct item; try discriminate; reflexivity. }
  assert (Hnorm : normalizeCSV idx item
                  = Ok (mkCSVOptions p (Some (count n)) (Some []))).
  { unfold normalizeCSV. rewrite !Hitem, Hp, Hrows, Hdata. cbn [rbind].
    unfold expectString. rewrite Hb. cbn [rbind]. unfold optional.
    pose proof Hn as Hq. apply expectPositiveInt_ok in Hq as (q & -> & _).
    cbn [is_undefined]. rewrite Hn. reflexivity. }
  split; [|now apply count_positive in Hn].
  unfold tryCSV. rewrite (bind_run _ _ w _ w) by (unfold lift; now rewrite Hnorm).
  reflexivity.
Qed.

Lemma csv_empty_data_uses_rows_witness :
  expectPositiveInt (num 2) (loc "csv" 0 ".rows") = Ok (Fin (inject_Z 2))
  /\ tryCSV quiet_env 0
       (JObj [("path", JStr "c.csv"); ("rows", num 2); ("data", JArr [])]) start
     = (Ok tt,
        mkWorld [EvOut "[file-fabric] csv[0]: 'data' provided, 'rows' will be ignored.";
                 EvMkdir ".";
                 EvWriteFile "c.csv"
                   (ArtCsv ["name"; "email"] (synthetic_records quiet_env 0 2));
                 EvOut "[file-fabric] Generated CSV → c.csv"] 4).
Proof.
  split; [reflexivity|].
  rewrite (proj1 (csv_empty_data_uses_rows quiet_env 0
                    (JObj [("path", JStr "c.csv"); ("rows", num 2); ("data", JArr [])])
                    "c.csv" (num 2) (Fin (inject_Z 2)) start
                    eq_refl eq_refl eq_refl eq_refl eq_refl)).
  reflexivity.
Defined.

(** ** Failures of MP3 generation *)

(** A failed [generateMP3] has either written nothing or has written the
    WAV and failed in the transcode; in that case the WAV is left on disk.
    It writes nothing when an option could not be converted (TypeError),
    the length was refused, the sample buffer could not be allocated
    (RangeError), or the WAV could not be written. *)
Theorem generateMP3_failure_modes (env : Env) (path : string) (lengthSeconds : JsNum)
    (opts : JsVal) (w : World) (e : Exn) (w' : World) :
  generateMP3 env path lengthSeconds opts w = (Throw e, w') ->
  let wavPath := replace_first ".mp3" ".wav" path in
  let wav := EvWriteFile wavPath
               (ArtWav lengthSeconds (if is_undefined opts then JObj [] else opts)) in
  (w' = w
   /\ ((exists msg, e = JsTypeError msg)
       \/ (e = JsError "lengthSeconds must be a positive number."
           /\ (negb (isFinite lengthSeconds) || num_le lengthSeconds zero) = true)
       \/ (exists msg, e = JsRangeError msg)
       \/ (exists reason, e = JsError reason
                          /\ io_error env (trace w) wav = Some reason)))
  \/ (w' = record wav w
      /\ exists reason,
           e = JsError reason
           /\ io_error env (trace w ++ [wav]) (EvWriteFile path (ArtMp3 wavPath))
              = Some reason).
Proof.
  intros Hrun wavPath wav. unfold generateMP3, bind in Hrun.
  fold wavPath in Hrun.
  destruct (generateWAV env wavPath lengthSeconds opts w) as [r w1] eqn:Hwav.
  apply generateWAV_outcome in Hwav. cbv zeta in Hwav. fold wav in Hwav.
  destruct Hwav as [[-> ->] | [-> Hcause]].
  - right. split; [|].
    + unfold io in Hrun. destruct (io_error env _ _); [|discriminate].
      now injection Hrun as _ <-.
    + unfold io in Hrun. cbn [record trace] in Hrun.
      destruct (io_error env (trace w ++ [wav]) _) as [reason|] eqn:Hmp3;
        [|discriminate].
      injection Hrun as <- _. now exists reason.
  - left.
    destruct Hcause as [(msg & ->) | [[-> Hg] | [(msg & ->) | (reason & -> & Hio)]]];
      injection Hrun as <- <-; (split; [reflexivity|]); eauto 8.
Qed.

Lemma generateMP3_failure_modes_witness :
  generateMP3 no_ffmpeg_env "out/a.mp3" (Fin 1) JUndefined start
  = (Throw (JsError "Cannot find ffmpeg"),
     mkWorld [EvWriteFile "out/a.wav" (ArtWav (Fin 1) (JObj []))] 0)
  /\ exists reason,
       JsError "Cannot find ffmpeg" = JsError reason
       /\ io_error no_ffmpeg_env
            [EvWriteFile "out/a.wav" (ArtWav (Fin 1) (JObj []))]
            (EvWriteFile "out/a.mp3" (ArtMp3 "out/a.wav"))
          = Some reason.
Proof.
  split; [reflexivity|].
  destruct (generateMP3_failure_modes no_ffmpeg_env "out/a.mp3" (Fin 1) JUndefined start
              _ _ eq_refl) as [[Hsame _] | [_ Hreason]].
  - discriminate Hsame.
  - exact Hreason.
Defined.

(** ** What a run reads of the plan *)

Ltac in_keys := cbn; repeat (first [left; reflexivity | right]).

Lemma run_reads_known_keys (env : Env) (cfg cfg' : JsVal) (w : World) :
  (forall key, In key known_keys -> field cfg key = field cfg' key) ->
  runFromConfig env cfg w = runFromConfig env cfg' w.
Proof.
  intros H. unfold runFromConfig, ensureOutputDir.
  rewrite (H "outputDir"), (H "json"), (H "pdf"), (H "txt"), (H "docx"),
    (H "pptx"), (H "xlsx"), (H "csv"), (H "images"), (H "audio"), (H "video"),
    (H "archives") by in_keys.
  reflexivity.
Qed.

Lemma lookup_other (key k : string) (v : JsVal) (props : list (string * JsVal)) :
  k <> key -> lookup k ((key, v) :: props) = lookup k props.
Proof.
  intros Hne. cbn [lookup]. destruct (String.eqb k key) eqn:Heq; [|reflexivity].
  apply String.eqb_eq in Heq. contradiction.
Qed.

Lemma lookup_not_in (k : string) (props : list (string * JsVal)) :
  ~ In k (map fst props) -> lookup k props = JUndefined.
Proof.
  induction props as [|[key v] props IH]; [reflexivity|]. cbn [map fst In].
  intros Hnot. rewrite lookup_other by (intros ->; tauto). apply IH. tauto.
Qed.

Lemma lookup_permutation (k : string) (props props' : list (string * JsVal)) :
  NoDup (map fst props) -> Permutation props props' ->
  lookup k props = lookup k props'.
Proof.
  intros Hnodup Hperm. induction Hperm as [| [key v] l l' Hperm IH
                                           | [k1 v1] [k2 v2] l
                                           | l l' l'' H1 IH1 H2 IH2].
  - reflexivity.
  - cbn [lookup]. destruct (String.eqb k key); [reflexivity|].
    apply IH. now inversion Hnodup.
  - cbn [lookup]. destruct (String.eqb k k2) eqn:E2, (String.eqb k k1) eqn:E1;
      try reflexivity.
    apply String.eqb_eq in E1, E2. subst k1 k2.
    cbn [map fst] in Hnodup. inversion Hnodup as [|? ? Hnot _]. cbn in Hnot. tauto.
  - rewrite IH1 by assumption. apply IH2.
    apply (Permutation_NoDup (Permutation_map fst H1) Hnodup).
Qed.

(** A run depends on the plan through the twelve keys it knows only:
    a key it does not know changes nothing, and neither does the order in
    which the sections are written (the sections are always visited in
    the declared order). *)
Theorem unknown_keys_and_key_order_are_ignored (env : Env)
    (props : list (string * JsVal)) (w : World) :
  (forall key v, ~ In key known_keys ->
     runFromConfig env (JObj ((key, v) :: props)) w = runFromConfig env (JObj props) w)
  /\ (forall props', NoDup (map fst props) -> Permutation props props' ->
        runFromConfig env (JObj props') w = runFromConfig env (JObj props) w
        /\ plan_items (JObj props') = plan_items (JObj props)).
Proof.
  split.
  - intros key v Hnot. apply run_reads_known_keys. intros k Hk.
    cbn [field]. apply lookup_other. intros ->. contradiction.
  - intros props' Hnodup Hperm.
    assert (Hfield : forall k, field (JObj props') k = field (JObj props) k).
    { intros k. cbn [field]. symmetry. now apply lookup_permutation. }
    split.
    + apply run_reads_known_keys. intros k _. apply Hfield.
    + unfold plan_items, declared_order, flat_map, section_items, fragment.
      cbn [section_key sub_key]. now rewrite !Hfield.
Qed.

Lemma unknown_keys_and_key_order_are_ignored_witness :
  ~ In "note" known_keys
  /\ runFromConfig quiet_env
       (JObj [("note", JStr "ignored");
              ("txt", JObj [("path", JStr "a.txt"); ("lines", num 1)]);
              ("json", JObj [("path", JStr "a.json"); ("data", JArr [])])]) start
     = runFromConfig quiet_env
         (JObj [("json", JObj [("path", JStr "a.json"); ("data", JArr [])]);
                ("txt", JObj [("path", JStr "a.txt"); ("lines", num 1)])]) start.
Proof.
  assert (Hnot : ~ In "note" known_keys).
  { cbn. intros H. repeat (destruct H as [H|H]; [discriminate|]). exact H. }
  split; [exact Hnot|].
  rewrite (proj1 (unknown_keys_and_key_order_are_ignored quiet_env _ start) _ _ Hnot).
  apply (proj2 (unknown_keys_and_key_order_are_ignored quiet_env
                  [("json", JObj [("path", JStr "a.json"); ("data", JArr [])]);
                   ("txt", JObj [("path", JStr "a.txt"); ("lines", num 1)])] start)).
  - repeat constructor; cbn; intros H;
      repeat (destruct H as [H|H]; [discriminate|]); exact H.
  - apply perm_swap.
Defined.

(** ** Sections that are skipped, and the root of the plan *)



(** A document whose root is not a mapping or a list (a scalar, null, an
    empty file) ends [main] with status 1 and prints nothing: the message
    [loadYaml] builds is never shown. *)
Theorem bad_root_exits_silently (env : Env) (configPath : string) (doc : JsVal)
    (w : World) :
  Array_isArray doc = false -> (forall props, doc <> JObj props) ->
  main env configPath doc w = (1, w)
  /\ loadYaml configPath doc
     = Throw (JsError ("Failed to read/parse YAML: " ++ configPath
                       ++ ". YAML root must be a mapping (object).")).
Proof.
  intros Harr Hobj.
  assert (Hload : loadYaml configPath doc
     = Throw (JsError ("Failed to read/parse YAML: " ++ configPath
                       ++ ". YAML root must be a mapping (object)."))).
  { unfold loadYaml.
    destruct doc as [| | b | n | s | l | props]; try discriminate;
      try (now destruct (Hobj props));
      cbn [typeof_object negb]; rewrite ?orb_true_r; reflexivity. }
  split; [|exact Hload].
  unfold main, bind, lift. now rewrite Hload.
Qed.

Lemma bad_root_exits_silently_witness :
  Array_isArray (JStr "json: {path: a.json") = false
  /\ main quiet_env "plan.yml" (JStr "json: {path: a.json") start = (1, start).
Proof.
  split; [reflexivity|].
  apply (bad_root_exits_silently quiet_env "plan.yml" (JStr "json: {path: a.json") start);
    [reflexivity | discriminate].
Defined.

(** ** Every failed run has one culprit *)

(** A run that fails either could not create the output directory, or was
    stopped by one item of the plan: the items before it succeeded, the
    run ends in the world that item's failed attempt left, and the last
    lines printed are its error report. *)
Theorem failed_run_has_a_culprit (env : Env) (cfg : JsVal) (w : World) (e : Exn)
    (w' : World) :
  runFromConfig env cfg w = (Throw e, w') ->
  ensureOutputDir env cfg w = (Throw e, w')
  \/ exists pre k idx item post w0 w1 wf,
       plan_items cfg = pre ++ (k, idx, item) :: post
       /\ ensureOutputDir env cfg w = (Ok tt, w0)
       /\ run_items env pre w0 = (Ok tt, w1)
       /\ attempt env k idx item w1 = (Throw e, w')
       /\ w' = mkWorld (trace wf ++
                        map EvErr (failure_lines (failure_of k) (hints_of k) idx e))
                       (draws wf).
Proof.
  intros H. rewrite runFromConfig_items in H. unfold bind at 1 in H.
  destruct (ensureOutputDir env cfg w) as [[[]|e0] w0] eqn:Hdir.
  - right. unfold bind in H.
    destruct (run_items env (plan_items cfg) w0) as [[[]|e1] w2] eqn:Hrun.
    + discriminate.
    + injection H as -> ->.
      destruct (run_items_throw env _ _ _ _ Hrun)
        as (pre & k & idx & item & post & w1 & Hplan & Hpre & Hfail).
      destruct (attempt_throw env k idx item e w1 w' Hfail) as (wf & _ & Hw').
      exists pre, k, idx, item, post, w0, w1, wf. auto.
  - left. exact H.
Qed.

Lemma failed_run_has_a_culprit_witness :
  runFromConfig quiet_env stopping_plan start
  = (Throw (JsError "json[1].path must be a non-empty string"),
     mkWorld [EvMkdir "out";
              EvWriteFile "out/a.json"
                (ArtJson (JObj [("name", JStr "name 0");
                                ("email", JStr "mail1@example.com")]) true);
              EvOut "[file-fabric] Generated JSON → out/a.json";
              EvErr "[file-fabric] ERROR: JSON generation failed at index 1";
              EvErr "Cause: json[1].path must be a non-empty string"] 2)
  /\ exists pre k idx item post,
       plan_items stopping_plan = pre ++ (k, idx, item) :: post
       /\ attempt quiet_env k idx item
            (snd (run_items quiet_env pre start))
          = (Throw (JsError "json[1].path must be a non-empty string"),
             snd (runFromConfig quiet_env stopping_plan start)).
Proof.
  split; [reflexivity|].
  destruct (failed_run_has_a_culprit quiet_env stopping_plan start _ _ eq_refl)
    as [Hdir | (pre & k & idx & item & post & w0 & w1 & wf & Hplan & Hdir & Hpre & Hfail & _)].
  - discriminate Hdir.
  - exists pre, k, idx, item, post. split; [exact Hplan|].
    injection Hdir as <-. rewrite Hpre. exact Hfail.
Defined.

(** ** Footprint *)









Lemma adds_eqm {A} (P : Event -> Prop) (m m' : M A) :
  eqm m m' -> adds P m' -> adds P m.
Proof. intros Heq Hm w. rewrite Heq. apply Hm. Qed.




Section GeneratorFootprints.
Variable env : Env.
Variable P : Event -> Prop.










End GeneratorFootprints.












(** ** The course of a successful item *)



Section GeneratorYields.
Variable env : Env.











End GeneratorYields.







Section GeneratorWrites.
Variable env : Env.










End GeneratorWrites.







(** ** The end-of-run line, as a call and as a printed line *)














(** A path that holds a line feed followed by the text of the end-of-run
    line makes the handler print that line: the run below fails at its
    second item, and its standard output has the line. *)
Example done_line_needs_single_line_paths :
  fst (runFromConfig quiet_env two_line_path_plan start)
  = Throw (JsError "txt[1].path must be a non-empty string")
  /\ In done_line (stdout_lines (trace (snd (runFromConfig quiet_env two_line_path_plan
                                               start))))
  /\ ~ In (EvOut done_line) (trace (snd (runFromConfig quiet_env two_line_path_plan start))).
Proof.
  split; [reflexivity|]. split.
  - cbn. right. left. reflexivity.
  - cbn. intros [H | [H | [H | [H | [H | []]]]]]; discriminate H.
Qed.

(** ** A successful run has processed every item *)







(** ** The mp3 endpoint *)

Lemma sendFileAndCleanup_run (env : Env) (out : string) (w : World) :
  exists rest,
    (rest = [] \/ rest = [EvUnlink out])
    /\ (sendFileAndCleanup env out w
        = (Ok tt, mkWorld (trace w ++ EvSend out :: rest) (draws w))
        \/ exists reason,
             io_error env (trace w) (EvSend out) = Some reason
             /\ sendFileAndCleanup env out w
                = (Throw (JsError reason), mkWorld (trace w ++ rest) (draws w))).
Proof.
  unfold sendFileAndCleanup, bind, try_catch, io, ret, throw.
  destruct (io_error env (trace w) (EvSend out)) as [reason|] eqn:Hsend.
  - destruct (io_error env (trace w) (EvUnlink out)).
    + exists []. split; [now left|]. right. exists reason.
      split; [reflexivity|]. rewrite app_nil_r. now destruct w.
    + exists [EvUnlink out]. split; [now right|]. right. exists reason.
      split; reflexivity.
  - cbn [record trace draws].
    destruct (io_error env (trace w ++ [EvSend out]) (EvUnlink out)).
    + exists []. split; [now left|]. now left.
    + exists [EvUnlink out]. split; [now right|]. left.
      unfold record. cbn [trace draws]. now rewrite <- app_assoc.
Qed.

(** Over HTTP, a request for an MP3 ends in one of three ways. Served: the
    WAV and the MP3 were written, the MP3 was sent and then removed (a
    failure to remove it is ignored). Transfer failed: both files were
    written, the MP3 was removed all the same, and the request ends with
    the error of the transfer. Not generated: the body was refused or the
    generator failed; nothing was sent or removed, and a WAV the
    generator had already written stays. In no case is the WAV beside the
    MP3 removed. *)
Theorem mp3_endpoint_cleanup (env : Env) (body : JsVal) (out : string)
    (w : World) (r : Res unit) (w' : World) :
  post_audio_mp3 env body out w = (r, w') ->
  let wavPath := replace_first ".mp3" ".wav" out in
  ((exists l o rest,
      r = Ok tt
      /\ (rest = [] \/ rest = [EvUnlink out])
      /\ trace w' = trace w ++
           [EvWriteFile wavPath (ArtWav l o); EvWriteFile out (ArtMp3 wavPath);
            EvSend out] ++ rest)
   \/ (exists l o rest reason,
         r = Throw (JsError reason)
         /\ (rest = [] \/ rest = [EvUnlink out])
         /\ trace w' = trace w ++
              [EvWriteFile wavPath (ArtWav l o); EvWriteFile out (ArtMp3 wavPath)]
              ++ rest
         /\ io_error env (trace w ++
                          [EvWriteFile wavPath (ArtWav l o);
                           EvWriteFile out (ArtMp3 wavPath)]) (EvSend out)
            = Some reason)
   \/ (exists e files,
         r = Throw e
         /\ trace w' = trace w ++ files
         /\ (files = [] \/ exists l o, files = [EvWriteFile wavPath (ArtWav l o)])))
  /\ (wavPath <> out -> ~ In (EvUnlink wavPath) (added w w')).
Proof.
  intros H wavPath.
  assert (Hcases :
    (exists l o rest,
      r = Ok tt
      /\ (rest = [] \/ rest = [EvUnlink out])
      /\ trace w' = trace w ++
           [EvWriteFile wavPath (ArtWav l o); EvWriteFile out (ArtMp3 wavPath);
            EvSend out] ++ rest)
   \/ (exists l o rest reason,
         r = Throw (JsError reason)
         /\ (rest = [] \/ rest = [EvUnlink out])
         /\ trace w' = trace w ++
              [EvWriteFile wavPath (ArtWav l o); EvWriteFile out (ArtMp3 wavPath)]
              ++ rest
         /\ io_error env (trace w ++
                          [EvWriteFile wavPath (ArtWav l o);
                           EvWriteFile out (ArtMp3 wavPath)]) (EvSend out)
            = Some reason)
   \/ (exists e files,
         r = Throw e
         /\ trace w' = trace w ++ files
         /\ (files = [] \/ exists l o, files = [EvWriteFile wavPath (ArtWav l o)]))).
  { unfold post_audio_mp3 in H. rewrite bind_lift in H.
    destruct (rbind (prop body "lengthSeconds") _) as [len|e].
    2:{ injection H as <- <-. right. right. exists e, []. rewrite app_nil_r. auto. }
    rewrite bind_lift in H.
    destruct (prop body "opts") as [o|e].
    2:{ injection H as <- <-. right. right. exists e, []. rewrite app_nil_r. auto. }
    unfold bind at 1 in H.
    match type of H with
    | context [generateMP3 env out len ?opts w] =>
        destruct (generateMP3 env out len opts w) as [[u|e] w1] eqn:Hgen
    end.
    - apply generateMP3_ok_trace in Hgen as (a & o' & ->). fold wavPath in H.
      destruct (sendFileAndCleanup_run env out
                  (mkWorld (trace w ++
                     [EvWriteFile wavPath (ArtWav a o');
                      EvWriteFile out (ArtMp3 wavPath)]) (draws w)))
        as (rest & Hrest & [Hsend | (reason & Hwhy & Hsend)]);
        rewrite Hsend in H; injection H as <- <-; cbn [trace] in *.
      + left. exists a, o', rest. split; [reflexivity|]. split; [exact Hrest|].
        now rewrite <- app_assoc.
      + right. left. exists a, o', rest, reason. split; [reflexivity|].
        split; [exact Hrest|]. split; [now rewrite <- app_assoc | exact Hwhy].
    - right. right. injection H as <- <-.
      apply generateMP3_throw_trace in Hgen as [-> | (a & o' & ->)].
      + exists e, []. rewrite app_nil_r. auto.
      + exists e. eexists. split; [reflexivity|]. split; [reflexivity|].
        right. now exists a, o'. }
  split; [exact Hcases|].
  intros Hne Hin. unfold added in Hin.
  assert (Hrest : forall rest, rest = [] \/ rest = [EvUnlink out] ->
            ~ In (EvUnlink wavPath) rest).
  { intros rest [-> | ->] Hr; [destruct Hr|].
    destruct Hr as [Hr|[]]. injection Hr as Hr. congruence. }
  destruct Hcases as [(l & o & rest & _ & Hr & Htr)
                      | [(l & o & rest & reason & _ & Hr & Htr & _)
                         | (e & files & _ & Htr & Hfiles)]];
    rewrite Htr, skipn_app, Nat.sub_diag, skipn_all in Hin; cbn [app skipn] in Hin.
  - destruct Hin as [Hin|[Hin|[Hin|Hin]]]; try discriminate. exact (Hrest _ Hr Hin).
  - destruct Hin as [Hin|[Hin|Hin]]; try discriminate. exact (Hrest _ Hr Hin).
  - destruct Hfiles as [-> | (l & o & ->)]; [destruct Hin|].
    destruct Hin as [Hin|[]]. discriminate.
Qed.

Lemma mp3_endpoint_cleanup_witness :
  post_audio_mp3 quiet_env (JObj [("lengthSeconds", num 2)]) "/tmp/ff/1234.mp3" start
  = (Ok tt, mkWorld [EvWriteFile "/tmp/ff/1234.wav" (ArtWav (Fin (inject_Z 2)) (JObj []));
                     EvWriteFile "/tmp/ff/1234.mp3" (ArtMp3 "/tmp/ff/1234.wav");
                     EvSend "/tmp/ff/1234.mp3";
                     EvUnlink "/tmp/ff/1234.mp3"] 0)
  /\ ~ In (EvUnlink "/tmp/ff/1234.wav")
         [EvWriteFile "/tmp/ff/1234.wav" (ArtWav (Fin (inject_Z 2)) (JObj []));
          EvWriteFile "/tmp/ff/1234.mp3" (ArtMp3 "/tmp/ff/1234.wav");
          EvSend "/tmp/ff/1234.mp3";
          EvUnlink "/tmp/ff/1234.mp3"].
Proof.
  split; [reflexivity|].
  apply (proj2 (mp3_endpoint_cleanup quiet_env (JObj [("lengthSeconds", num 2)])
                  "/tmp/ff/1234.mp3" start _ _ eq_refl)).
  discriminate.
Defined.

(** ** Archives *)

Lemma strings_only (fs : list JsVal) :
  forallb typeof_string fs = true <-> exists names, fs = map JStr names.
Proof.
  split.
  - induction fs as [|f fs IH]; [now exists []|].
    cbn [forallb]. intros H. apply andb_true_iff in H as [Hf Hfs].
    destruct (IH Hfs) as (names & ->).
    destruct f; try discriminate. now exists (s :: names).
  - intros (names & ->). induction names as [|n names IH]; [reflexivity|exact IH].
Qed.

Lemma files_field_ok (section : string) (idx : nat) (item : JsVal) (p : string)
    (names : list string) :
  field item "path" = JStr p ->
  field item "files" = JArr (map JStr names) ->
  files_field section idx item = Ok (map JStr names).
Proof.
  intros Hp Hf. unfold files_field.
  destruct item; try discriminate; cbn [prop rbind]; rewrite Hf;
    cbn [Array_isArray andb]; unfold every; cbn [elems_of];
    now rewrite (proj2 (strings_only _) (ex_intro _ names eq_refl)).
Qed.

Lemma files_field_refused (section : string) (idx : nat) (item : JsVal) (p : string) :
  field item "path" = JStr p ->
  (forall names, field item "files" <> JArr (map JStr names)) ->
  files_field section idx item
  = Throw (JsError (loc section idx ".files must be an array of file paths")).
Proof.
  intros Hp Hf. unfold files_field.
  destruct item; try discriminate; cbn [prop rbind];
    (destruct (field _ "files") as [| | | | |fs|] eqn:Hfiles; try reflexivity;
     cbn [Array_isArray andb]; unfold every; cbn [elems_of];
     destruct (forallb typeof_string fs) eqn:Hall; [|reflexivity];
     apply strings_only in Hall as (names & ->); now destruct (Hf names)).
Qed.

Lemma normalizePath_ok (section : string) (idx : nat) (item : JsVal) (p : string) :
  field item "path" = JStr p -> blank p = false ->
  normalizePath section idx item = Ok p.
Proof.
  intros Hp Hb. unfold normalizePath.
  destruct item; try discriminate; cbn [prop rbind]; rewrite Hp;
    unfold expectString; now rewrite Hb.
Qed.

(** An archive item with a path and a list of strings as files is handed
    to the archiver with exactly that list, in its order, whether or not
    it is empty and whatever the strings are: the command line checks no
    file for existence. A RAR item without [rarPath] runs the program
    named rar, one with a non-blank [rarPath] runs that. *)
Theorem archive_files_pass_as_listed (env : Env) (idx : nat) (item : JsVal)
    (p : string) (names : list string) (w : World) :
  field item "path" = JStr p -> blank p = false ->
  field item "files" = JArr (map JStr names) ->
  tryZIP env idx item w
  = (ensureDirFor env p ;;
     io env (EvWriteFile p (ArtZip (map JStr names))) ;;
     info ("Generated ZIP → " ++ p)) w
  /\ (field item "rarPath" = JUndefined ->
      tryRAR env idx item w
      = (ensureDirFor env p ;;
         io env (EvWriteFile p (ArtRar (map JStr names) "rar")) ;;
         info ("Generated RAR → " ++ p)) w)
  /\ (forall program, field item "rarPath" = JStr program -> blank program = false ->
      tryRAR env idx item w
      = (ensureDirFor env p ;;
         io env (EvWriteFile p (ArtRar (map JStr names) program)) ;;
         info ("Generated RAR → " ++ p)) w).
Proof.
  intros Hp Hb Hf.
  assert (Hitem : forall name, prop item name = Ok (field item name)).
  { intros name. destruct item; try discriminate; reflexivity. }
  split; [|split].
  - unfold tryZIP.
    rewrite (bind_run _ _ w (mkArchiveRequest p (map JStr names) "rar") w);
      [reflexivity|].
    unfold lift, normalizeZIP.
    now rewrite (normalizePath_ok _ _ _ _ Hp Hb), (files_field_ok _ _ _ _ _ Hp Hf).
  - intros Hr. unfold tryRAR.
    rewrite (bind_run _ _ w (mkArchiveRequest p (map JStr names) "rar") w);
      [reflexivity|].
    unfold lift, normalizeRAR.
    rewrite (normalizePath_ok _ _ _ _ Hp Hb), (files_field_ok _ _ _ _ _ Hp Hf).
    cbn [rbind]. rewrite Hitem, Hr. reflexivity.
  - intros program Hr Hbp. unfold tryRAR.
    rewrite (bind_run _ _ w (mkArchiveRequest p (map JStr names) program) w);
      [reflexivity|].
    unfold lift, normalizeRAR.
    rewrite (normalizePath_ok _ _ _ _ Hp Hb), (files_field_ok _ _ _ _ _ Hp Hf).
    cbn [rbind]. rewrite Hitem, Hr. cbn [rbind is_undefined].
    unfold expectString. now rewrite Hbp.
Qed.

Lemma archive_files_pass_as_listed_witness :
  tryZIP quiet_env 0 (JObj [("path", JStr "out/a.zip"); ("files", JArr [])]) start
  = (Ok tt, mkWorld [EvMkdir "out"; EvWriteFile "out/a.zip" (ArtZip []);
                     EvOut "[file-fabric] Generated ZIP → out/a.zip"] 0).
Proof.
  rewrite (proj1 (archive_files_pass_as_listed quiet_env 0
                    (JObj [("path", JStr "out/a.zip"); ("files", JArr [])])
                    "out/a.zip" [] start eq_refl eq_refl eq_refl)).
  reflexivity.
Defined.

(** An archive item whose [files] is anything but a list of strings
    (missing, a single string, a list holding a number) is refused with
    the error of [files] before any directory is made, for RAR also when
    its [rarPath] is unusable. *)
Theorem archive_files_must_be_strings (env : Env) (idx : nat) (item : JsVal)
    (p : string) (w : World) :
  field item "path" = JStr p -> blank p = false ->
  (forall names, field item "files" <> JArr (map JStr names)) ->
  tryZIP env idx item w
  = (Throw (JsError (loc "archives.zip" idx ".files must be an array of file paths")), w)
  /\ tryRAR env idx item w
     = (Throw (JsError (loc "archives.rar" idx ".files must be an array of file paths")), w).
Proof.
  intros Hp Hb Hf. split.
  - unfold tryZIP. apply bind_fail. unfold lift, normalizeZIP.
    now rewrite (normalizePath_ok _ _ _ _ Hp Hb), (files_field_refused _ _ _ _ Hp Hf).
  - unfold tryRAR. apply bind_fail. unfold lift, normalizeRAR.
    now rewrite (normalizePath_ok _ _ _ _ Hp Hb), (files_field_refused _ _ _ _ Hp Hf).
Qed.

Lemma archive_files_must_be_strings_witness :
  tryRAR quiet_env 2
    (JObj [("path", JStr "a.rar"); ("files", JArr [JStr "x.txt"; num 1]);
           ("rarPath", num 7)]) start
  = (Throw (JsError "archives.rar[2].files must be an array of file paths"), start).
Proof.
  refine (proj2 (archive_files_must_be_strings quiet_env 2
                   (JObj [("path", JStr "a.rar"); ("files", JArr [JStr "x.txt"; num 1]);
                          ("rarPath", num 7)])
                   "a.rar" start eq_refl eq_refl _)).
  intros names H. cbn in H. injection H as H.
  destruct names as [|n [|n' names]]; discriminate.
Defined.

(** ** What a JSON item writes *)

(** A JSON item that succeeds makes the directory, writes one file and
    reports it. The file holds the item's [data] itself when that is an
    object or a list, and otherwise (no [data]) a record of a name and an
    email taken from faker, in that order; [pretty] is on unless the item
    switches it off. A [data] of null never gets this far. *)
Theorem json_item_writes_data_or_fake (env : Env) (idx : nat) (item : JsVal)
    (w : World) (u : unit) (w' : World) :
  tryJSON env idx item w = (Ok u, w') ->
  exists p doc,
    field item "path" = JStr p
    /\ trace w' = trace w ++
         [EvMkdir (dirname env p);
          EvWriteFile p (ArtJson doc (negb (is_false (field item "pretty"))));
          EvOut ("[file-fabric] Generated JSON → " ++ p)]
    /\ ((field item "data" = JUndefined
         /\ doc = JObj [("name", JStr (person_fullName env (draws w)));
                        ("email", JStr (internet_email env (S (draws w))))]
         /\ draws w' = 2 + draws w)
        \/ (doc = field item "data"
            /\ ((exists props, doc = JObj props) \/ (exists elems, doc = JArr elems))
            /\ draws w' = draws w)).
Proof.
  unfold tryJSON. intros H.
  apply bind_ok_inv in H as (req & w1 & Hnorm & H).
  unfold lift in Hnorm. injection Hnorm as Hnorm <-.
  apply bind_ok_inv in H as (u1 & w1 & Hdir & H).
  apply io_ok_inv in Hdir as ->.
  apply bind_ok_inv in H as (u2 & w2 & Hgen & H).
  unfold info, log in H. injection H as _ <-.
  unfold normalizeJSON in Hnorm.
  destruct (prop item "path") as [pv|] eqn:Epath; cbn [rbind] in Hnorm; [|discriminate].
  apply prop_ok in Epath as ->.
  destruct (expectString _ _) as [p|] eqn:Ep; cbn [rbind] in Hnorm; [|discriminate].
  apply expectString_ok in Ep as [Hp _].
  assert (Hitem : forall name, prop item name = Ok (field item name)).
  { intros name. destruct item; try discriminate; reflexivity. }
  rewrite !Hitem in Hnorm. cbn [rbind] in Hnorm.
  assert (Hpretty :
    (exists b, b = negb (is_false (field item "pretty"))
       /\ (if is_undefined (field item "pretty") then Ok true
           else expectBoolean (field item "pretty") (loc "json" idx ".pretty"))
          = Ok b)
    \/ (exists e,
          (if is_undefined (field item "pretty") then Ok true
           else expectBoolean (field item "pretty") (loc "json" idx ".pretty"))
          = Throw e)).
  { destruct (field item "pretty") as [| |[|]| | | |];
      cbn [is_undefined expectBoolean is_false negb]; eauto. }
  destruct Hpretty as [(b & Hb & Hpr) | (e & Hpr)]; rewrite Hpr in Hnorm;
    cbn [rbind] in Hnorm; [|discriminate].
  exists p. unfold generateJSON in Hgen.
  destruct (field item "data") as [| |db|dn|ds|elems|props] eqn:Hdata;
    cbn [typeof_object is_undefined] in Hnorm;
    rewrite ?andb_false_r in Hnorm;
    cbn [truthy andb rbind] in Hnorm;
    try discriminate Hnorm;
    injection Hnorm as <-; cbn [json_data json_path json_pretty default] in *.
  - apply bind_ok_inv in Hgen as (doc & w3 & Hdoc & Hgen).
    apply io_ok_inv in Hgen as ->.
    unfold bind, faker_fullName, faker_email, draw, ret, record in Hdoc.
    cbn [trace draws] in Hdoc. injection Hdoc as <- <-.
    eexists. split; [exact Hp|]. split.
    + unfold record. cbn [trace draws]. rewrite <- Hb, <- !app_assoc. reflexivity.
    + left. repeat split; reflexivity.
  - apply bind_ok_inv in Hgen as (doc & w3 & Hdoc & Hgen).
    apply io_ok_inv in Hgen as ->.
    unfold ret in Hdoc. injection Hdoc as <- <-.
    eexists. split; [exact Hp|]. split.
    + unfold record. cbn [trace draws]. rewrite <- Hb, <- !app_assoc. reflexivity.
    + right. repeat split; eauto.
  - apply bind_ok_inv in Hgen as (doc & w3 & Hdoc & Hgen).
    apply io_ok_inv in Hgen as ->.
    unfold ret in Hdoc. injection Hdoc as <- <-.
    eexists. split; [exact Hp|]. split.
    + unfold record. cbn [trace draws]. rewrite <- Hb, <- !app_assoc. reflexivity.
    + right. repeat split; eauto.
Qed.

Lemma json_item_writes_data_or_fake_witness :
  exists p doc,
    field (JObj [("path", JStr "o.json"); ("data", JArr [num 1])]) "path" = JStr p
    /\ trace (snd (tryJSON quiet_env 0
                     (JObj [("path", JStr "o.json"); ("data", JArr [num 1])]) start))
       = [EvMkdir (dirname quiet_env p); EvWriteFile p (ArtJson doc true);
          EvOut ("[file-fabric] Generated JSON → " ++ p)]
    /\ doc = JArr [num 1].
Proof.
  destruct (json_item_writes_data_or_fake quiet_env 0
              (JObj [("path", JStr "o.json"); ("data", JArr [num 1])])
              start tt _ eq_refl)
    as (p & doc & Hp & Htr & [(Habsent & _) | (Hdoc & _)]).
  - discriminate Habsent.
  - exists p, doc. split; [exact Hp|]. split; [exact Htr|]. exact Hdoc.
Defined.

(** ** Custom images *)

(** A custom image that passes validation has a whole positive width and
    height and one of the seven formats (jpg is not among them), and its
    [create] and [output] objects reach the image library as the item
    holds them: what else they carry (channels, background, options) is
    not looked at. *)
Theorem custom_image_passes_through (env : Env) (idx : nat) (item : JsVal)
    (req : ImageRequest) (w : World) :
  normalizeCustom idx item = Ok req ->
  (exists qw qh,
     field (field item "create") "width" = JNum (Fin qw)
     /\ field (field item "create") "height" = JNum (Fin qh)
     /\ (0 < qw)%Q /\ (inject_Z (Qfloor qw) == qw)%Q
     /\ (0 < qh)%Q /\ (inject_Z (Qfloor qh) == qh)%Q)
  /\ field (field item "output") "format" = JStr (img_format req)
  /\ In (img_format req) image_formats
  /\ img_format req <> "jpg"
  /\ tryCustom env idx item w
     = (ensureDirFor env (img_path req) ;;
        io env (EvWriteFile (img_path req)
                  (ArtImage (field item "create") (field item "output"))) ;;
        info ("Generated image (" ++ img_format req ++ ") → " ++ img_path req)) w.
Proof.
  intros H.
  assert (Hfields :
    img_create req = field item "create" /\ img_output req = field item "output"
    /\ (exists nw nh,
          expectPositiveInt (field (field item "create") "width")
            (loc "images.custom" idx ".create.width") = Ok nw
          /\ expectPositiveInt (field (field item "create") "height")
               (loc "images.custom" idx ".create.height") = Ok nh)
    /\ field (field item "output") "format" = JStr (img_format req)
    /\ includes image_formats (img_format req) = true).
  { unfold normalizeCustom in H.
    destruct (normalizePath _ _ _) as [p|]; cbn [rbind] in H; [|discriminate].
    destruct (prop item "create") as [c|] eqn:Hc; cbn [rbind] in H; [|discriminate].
    destruct (prop item "output") as [o|] eqn:Ho; cbn [rbind] in H; [|discriminate].
    apply prop_ok in Hc as ->. apply prop_ok in Ho as ->.
    destruct (negb (truthy _) || negb (typeof_object _)); [discriminate|].
    destruct (negb (truthy _) || negb (typeof_object _)); [discriminate|].
    destruct (expectPositiveInt _ _) as [nw|] eqn:Hw; cbn [rbind] in H; [|discriminate].
    destruct (expectPositiveInt (field _ "height") _) as [nh|] eqn:Hh;
      cbn [rbind] in H; [|discriminate].
    destruct (field (field item "output") "format") as [| | | |fmt| |];
      try discriminate.
    destruct (includes image_formats fmt) eqn:Hin; cbn [negb] in H; [|discriminate].
    injection H as <-. cbn [img_create img_output img_format]. eauto 8. }
  destruct Hfields as (Hcreate & Houtput & (nw & nh & Hw & Hh) & Hfmt & Hin).
  apply expectPositiveInt_ok in Hw as (qw & Hqw & _ & Hposw & Hflw).
  apply expectPositiveInt_ok in Hh as (qh & Hqh & _ & Hposh & Hflh).
  split; [exists qw, qh; auto 8|]. split; [exact Hfmt|].
  split; [now apply includes_In|]. split.
  - intros Hjpg. rewrite Hjpg in Hin. discriminate Hin.
  - unfold tryCustom.
    rewrite (bind_run _ _ w req w) by (unfold lift; now rewrite H).
    unfold generateImage. now rewrite Hcreate, Houtput.
Qed.

Lemma custom_image_passes_through_witness :
  tryCustom quiet_env 0
    (JObj [("path", JStr "i.webp");
           ("create", JObj [("width", num 4); ("height", num 2); ("channels", num 9)]);
           ("output", JObj [("format", JStr "webp")])]) start
  = (Ok tt,
     mkWorld [EvMkdir ".";
              EvWriteFile "i.webp"
                (ArtImage (JObj [("width", num 4); ("height", num 2); ("channels", num 9)])
                          (JObj [("format", JStr "webp")]));
              EvOut "[file-fabric] Generated image (webp) → i.webp"] 0).
Proof.
  rewrite (proj2 (proj2 (proj2 (proj2
             (custom_image_passes_through quiet_env 0
                (JObj [("path", JStr "i.webp");
                       ("create", JObj [("width", num 4); ("height", num 2);
                                        ("channels", num 9)]);
                       ("output", JObj [("format", JStr "webp")])])
                _ start eq_refl))))).
  reflexivity.
Defined.
